(** * A shallow embedding of [main.py], the Gamma presentation tool

    The development models the job lifecycle of [main.py]: the ledger of
    past generations ([generation_records.json]), the submission and the
    polling of a generation, the export of the result through the direct
    API endpoints, and the orchestration of these steps by [process_file].
    Line numbers refer to [main.py].

    Python values are modelled as follows.
    - [string]: identifiers, URLs, paths, digests, header values and raw
      bytes (octet sequences; the code only compares and concatenates them).
    - [text]: extracted document text, a list of Unicode code points, so that
      [len] and slicing count code points as Python does.
    - [jval]: the JSON scalars found in the ledger and in API responses;
      numbers are integers.
    - [list (string * V)]: a [dict] with its insertion order; the ledger is a
      dict of records, a record a dict of scalars.
    - effects: a state-and-exception monad [M] over [State]; the outside
      world (remote service, file parsers, hashing, time stamps, the browser)
      is an oracle [Env].

    What the model leaves out: what is printed; the request headers; a
    transfer that breaks in the middle of a body; the inside of the browser
    automation, of which only the outcome is kept.  The clock counts whole
    seconds: [time.sleep d] adds [d], a request adds its latency, nothing
    else takes time. *)

From Stdlib Require Import ZArith Ascii String.
From stdpp Require Import base strings list gmap pretty.

(** ** Python strings *)

Abbreviation bytes := string (only parsing).
Abbreviation text := (list N) (only parsing).

(** Code points of an ASCII literal. *)
Fixpoint utext (s : string) : text :=
  match s with
  | EmptyString => []
  | String c s' => N_of_ascii c :: utext s'
  end.

(** [str.lower] on ASCII letters.  On [string] values this is all the code
    needs.  On [text] the result is only searched for lower-case ASCII
    literals, and the two non-ASCII code points whose lower case has an ASCII
    letter cannot take part in a match: U+212A gives [k], which no literal
    has, and U+0130 gives [i] followed by a combining dot, while no literal
    ends in [i]. *)
Definition lower_cp (c : N) : N :=
  if bool_decide (65 ≤ c ∧ c ≤ 90)%N then (c + 32)%N else c.

Definition lower_text (t : text) : text := lower_cp <$> t.

Fixpoint lower (s : string) : string :=
  match s with
  | EmptyString => EmptyString
  | String c s' => String (ascii_of_N (lower_cp (N_of_ascii c))) (lower s')
  end.

(** [sub in s] for [str]. *)
Fixpoint contains (sub s : string) : bool :=
  String.prefix sub s ||
  match s with
  | EmptyString => false
  | String _ s' => contains sub s'
  end.

(** [s[:n]] for bytes. *)
Definition bytes_take (n : nat) (s : bytes) : bytes := String.substring 0 n s.

(** Characters for which [str.isspace] holds, which are also the ones [\s]
    matches in a [str] pattern and the ones [str.strip] removes. *)
Definition is_space (c : N) : bool :=
  bool_decide (c ∈ [9; 10; 11; 12; 13; 28; 29; 30; 31; 32; 133; 160; 5760;
                    8192; 8193; 8194; 8195; 8196; 8197; 8198; 8199; 8200;
                    8201; 8202; 8232; 8233; 8239; 8287; 12288]%N).

(** [not t.strip()]: the text is empty or only white space. *)
Definition blank (t : text) : bool := forallb is_space t.

Fixpoint text_prefix (p t : text) : bool :=
  match p, t with
  | [], _ => true
  | a :: p', b :: t' => bool_decide (a = b) && text_prefix p' t'
  | _ :: _, [] => false
  end.

(** [t.endswith(suf)]. *)
Definition endswith (t suf : text) : bool := text_prefix (reverse suf) (reverse t).

(** [sub in t] for text. *)
Fixpoint text_contains (sub t : text) : bool :=
  text_prefix sub t ||
  match t with
  | [] => false
  | _ :: t' => text_contains sub t'
  end.

(** ["\n".join(parts)]. *)
Fixpoint join_lines (parts : list text) : text :=
  match parts with
  | [] => []
  | [p] => p
  | p :: ps => p ++ 10%N :: join_lines ps
  end.

(** ** JSON scalars and dictionaries *)

Inductive jval :=
| JNull
| JBool (b : bool)
| JNum (n : Z)
| JStr (s : string).

Global Instance jval_eq_dec : EqDecision jval.
Proof. solve_decision. Defined.

(** Truth value of a Python object in a condition. *)
Definition truthy (v : jval) : bool :=
  match v with
  | JNull => false
  | JBool b => b
  | JNum n => bool_decide (n ≠ 0%Z)
  | JStr s => bool_decide (s ≠ "")
  end.

(** [a or b]. *)
Definition py_or (a b : jval) : jval := if truthy a then a else b.

(** The text an f-string (or [str]) gives for a value. *)
Definition py_str (v : jval) : string :=
  match v with
  | JNull => "None"
  | JBool true => "True"
  | JBool false => "False"
  | JNum n => pretty n
  | JStr s => s
  end.

(** The key [json.dump] writes for a dict key. *)
Definition json_key (v : jval) : string :=
  match v with
  | JNull => "null"
  | JBool true => "true"
  | JBool false => "false"
  | JNum n => pretty n
  | JStr s => s
  end.

Section pydict.
Context {V : Type}.

(** [d.get(k)], [None] when absent. *)
Fixpoint dict_get (k : string) (d : list (string * V)) : option V :=
  match d with
  | [] => None
  | (k', v) :: d' => if decide (k' = k) then Some v else dict_get k d'
  end.

(** [d[k] = v]: an existing key keeps its position, a new one is appended. *)
Fixpoint dict_set (k : string) (v : V) (d : list (string * V)) : list (string * V) :=
  match d with
  | [] => [(k, v)]
  | (k', v') :: d' =>
      if decide (k' = k) then (k, v) :: d' else (k', v') :: dict_set k v d'
  end.

(** [d.update(kw)], and the dict built from the pairs of a JSON object. *)
Definition dict_update (d kw : list (string * V)) : list (string * V) :=
  foldl (λ acc kv, dict_set kv.1 kv.2 acc) d kw.

Definition dict_of_pairs (l : list (string * V)) : list (string * V) :=
  dict_update [] l.

End pydict.

Abbreviation jobj := (list (string * jval)) (only parsing).
Abbreviation ledger := (list (string * list (string * jval))) (only parsing).

(** [o.get(k)] as a Python value, and [o.get(k, dflt)]. *)
Definition jget (k : string) (o : jobj) : jval := default JNull (dict_get k o).
Definition jget_default (k : string) (dflt : jval) (o : jobj) : jval :=
  default dflt (dict_get k o).

(** ** The outside world *)

(** The request body built by [generate_presentation]. *)
Record TextOptions := {
  amount : string;
  tone : string;
  audience : string;
  language : string;
}.

Record ImageOptions := {
  source : string;
  model : option string;
  style : option string;
}.

Record CardOptions := {
  dimensions : string;
}.

Record Payload := {
  inputText : text;
  textMode : string;
  format : string;
  cardSplit : string;
  exportAs : string;
  themeId : option string;
  numCards : option Z;
  additionalInstructions : option string;
  textOptions : TextOptions;
  imageOptions : ImageOptions;
  cardOptions : CardOptions;
}.

(** What [requests] hands back: the status line, the [Content-Type] header
    when present, the body, and the body parsed as a JSON object
    ([None] when [response.json()] would raise). *)
Record Response := {
  status_code : Z;
  content_type : option string;
  content : bytes;
  json : option (list (string * jval));
}.

Inductive HttpResult :=
| HttpError                 (* [requests] raises: no route, timeout, ... *)
| HttpOk (r : Response).

(** A [pathlib.Path] with the attributes the code reads. *)
Record PyPath := {
  p_str : string;
  p_name : string;
  p_stem : string;
  p_suffix : string;
}.

(** A word-processor document as [python-docx] exposes it. *)
Record Docx := {
  paragraphs : list text;
  tables : list (list (list text));      (* table, row, cell *)
}.

Inductive event :=
| EvPost (url : string) (body : Payload)
| EvGet (url : string)
| EvSleep (secs : Z)
| EvWrite (path : string) (data : bytes)
| EvBrowser (url : string) (fmt : string) (headless : bool).

(** The submissions among the events. *)
Definition is_submit (e : event) : bool :=
  match e with
  | EvPost _ _ => true
  | _ => false
  end.

(** Configuration and oracles, fixed during a run.  HTTP answers are indexed
    by the number of requests issued before; [latency k] is the time request
    [k] takes; [isoformat_now k] is the [k]-th timestamp read;
    [browser_export] is the file, if any, that the Selenium session leaves at
    the output path. *)
Record Env := {
  GAMMA_API_KEY : option string;
  GAMMA_THEME_ID : option string;
  SELENIUM_AVAILABLE : bool;
  USE_BROWSER_EXPORT : option string;
  BROWSER_HEADLESS : option string;
  resolve : string → string;
  readable : string → bool;
  writable : string → bool;
  md5_hexdigest : bytes → string;
  Document : bytes → option Docx;
  PdfReader : bytes → option (list text);
  http_post : nat → string → Payload → HttpResult;
  http_get : nat → string → HttpResult;
  latency : nat → N;
  isoformat_now : nat → string;
  browser_export : nat → string → string → bool → option bytes;
}.

(** The content of [generation_records.json]. *)
Inductive LedgerFile :=
| LedgerAbsent
| LedgerCorrupt
| LedgerJson (members : list (string * list (string * jval))).

Record State := {
  clock : Z;                    (* [time.time()], in seconds *)
  nreq : nat;                   (* HTTP requests and browser sessions so far *)
  ndate : nat;                  (* [datetime.now()] calls so far *)
  ledger_file : LedgerFile;
  files : gmap string bytes;    (* every other file, by path *)
  trace : list event;           (* oldest first *)
}.

Definition set_ledger_file (l : LedgerFile) (st : State) : State :=
  {| clock := clock st; nreq := nreq st; ndate := ndate st;
     ledger_file := l; files := files st; trace := trace st |}.

Definition set_files (f : gmap string bytes) (st : State) : State :=
  {| clock := clock st; nreq := nreq st; ndate := ndate st;
     ledger_file := ledger_file st; files := f; trace := trace st |}.

Definition advance (d : Z) (st : State) : State :=
  {| clock := (clock st + d)%Z; nreq := nreq st; ndate := ndate st;
     ledger_file := ledger_file st; files := files st; trace := trace st |}.

Definition log (e : event) (st : State) : State :=
  {| clock := clock st; nreq := nreq st; ndate := ndate st;
     ledger_file := ledger_file st; files := files st;
     trace := trace st ++ [e] |}.

Definition next_req (st : State) : State :=
  {| clock := clock st; nreq := S (nreq st); ndate := ndate st;
     ledger_file := ledger_file st; files := files st; trace := trace st |}.

Definition next_date (st : State) : State :=
  {| clock := clock st; nreq := nreq st; ndate := S (ndate st);
     ledger_file := ledger_file st; files := files st; trace := trace st |}.

(** ** The monad of the program *)

Inductive exn :=
| ValueError
| TypeError
| AttributeError
| RequestException
| JSONDecodeError
| OSError.

(** [Diverges] is the answer of a loop whose fuel ran out. *)
Inductive result (A : Type) :=
| Ret (a : A)
| Raise (e : exn)
| Diverges.
Arguments Ret {A} a.
Arguments Raise {A} e.
Arguments Diverges {A}.

Definition M (A : Type) : Type := State → result A * State.

Definition ret {A} (a : A) : M A := λ st, (Ret a, st).

Definition bind {A B} (m : M A) (f : A → M B) : M B := λ st,
  match m st with
  | (Ret a, st') => f a st'
  | (Raise e, st') => (Raise e, st')
  | (Diverges, st') => (Diverges, st')
  end.

Definition raise {A} (e : exn) : M A := λ st, (Raise e, st).

(** A computation that only has a result. *)
Definition pure {A} (r : result A) : M A := λ st, (r, st).

Global Instance M_ret : MRet M := @ret.
Global Instance M_bind : MBind M := λ A B f m, bind m f.

Section program.
Variable env : Env.

Definition GAMMA_API_BASE_URL : string := "https://public-api.gamma.app/v1.0".
Definition OUTPUT_DIR : string := "output".
Definition RECORDS_FILE : string := "generation_records.json".

(** *** Library calls *)

Definition time_time : M Z := λ st, (Ret (clock st), st).

(** [time.sleep] refuses a negative length. *)
Definition time_sleep (secs : Z) : M unit := λ st,
  if bool_decide (secs < 0)%Z then (Raise ValueError, st)
  else (Ret (), advance secs (log (EvSleep secs) st)).

Definition requests_get (url : string) : M Response := λ st,
  let st' := advance (Z.of_N (latency env (nreq st))) (next_req (log (EvGet url) st)) in
  match http_get env (nreq st) url with
  | HttpError => (Raise RequestException, st')
  | HttpOk r => (Ret r, st')
  end.

Definition requests_post (url : string) (body : Payload) : M Response := λ st,
  let st' := advance (Z.of_N (latency env (nreq st))) (next_req (log (EvPost url body) st)) in
  match http_post env (nreq st) url body with
  | HttpError => (Raise RequestException, st')
  | HttpOk r => (Ret r, st')
  end.

(** [response.json()]. *)
Definition response_json (r : Response) : M (list (string * jval)) :=
  match json r with
  | Some o => mret o
  | None => raise JSONDecodeError
  end.

(** [datetime.now().isoformat()]. *)
Definition datetime_now_isoformat : M string := λ st,
  (Ret (isoformat_now env (ndate st)), next_date st).

(** [Path.exists]. *)
Definition path_exists (p : string) : M bool := λ st,
  (Ret (bool_decide (is_Some (files st !! p))), st).

(** *** The ledger: lines 93-193 *)

Definition load_records : M (list (string * list (string * jval))) := λ st,
  match ledger_file st with
  | LedgerJson members => (Ret (dict_of_pairs members), st)
  | LedgerAbsent | LedgerCorrupt => (Ret [], st)
  end.

Definition save_records (records : list (string * list (string * jval))) : M bool := λ st,
  if writable env RECORDS_FILE
  then (Ret true, set_ledger_file (LedgerJson records) st)
  else (Ret false, st).

(** [None] stands for Python's [None]. *)
Definition get_file_hash (file_path : string) : M (option string) := λ st,
  match files st !! file_path with
  | Some data =>
      if readable env file_path
      then (Ret (Some (md5_hexdigest env data)), st)
      else (Ret None, st)
  | None => (Ret None, st)
  end.

(** [not file_hash]. *)
Definition no_hash (file_hash : option string) : bool :=
  match file_hash with
  | None => true
  | Some h => bool_decide (h = "")
  end.

(** The loop of lines 144-149 over [records.items()]. *)
Fixpoint scan_records (file_path_str file_hash : string)
    (records : list (string * list (string * jval))) : bool * option (list (string * jval)) :=
  match records with
  | [] => (false, None)
  | (record_id, record) :: rest =>
      if bool_decide (jget "file_path" record = JStr file_path_str)
         || bool_decide (jget "file_hash" record = JStr file_hash)
      then (true, Some record)
      else scan_records file_path_str file_hash rest
  end.

Definition check_existing_generation (file_path : PyPath)
    : M (bool * option (list (string * jval))) :=
  file_hash ← get_file_hash (p_str file_path);
  if no_hash file_hash then mret (false, None)
  else
    records ← load_records;
    let file_path_str := resolve env (p_str file_path) in
    mret (scan_records file_path_str (default "" file_hash) records).

(** [records[generation_id] = record] followed by [json.dump]: a key that is
    not a string is a new key of the dict, written under its JSON spelling. *)
Definition setitem_dumped (k : jval) (record : list (string * jval))
    (records : list (string * list (string * jval))) : list (string * list (string * jval)) :=
  match k with
  | JStr s => dict_set s record records
  | _ => records ++ [(json_key k, record)]
  end.

Definition add_generation_record (file_path : PyPath) (generation_id gamma_url : jval)
    (status : string) : M bool :=
  file_hash ← get_file_hash (p_str file_path);
  if no_hash file_hash then mret false
  else
    records ← load_records;
    created_at ← datetime_now_isoformat;
    updated_at ← datetime_now_isoformat;
    let record :=
      [("file_path", JStr (resolve env (p_str file_path)));
       ("file_name", JStr (p_name file_path));
       ("file_hash", JStr (default "" file_hash));
       ("generation_id", generation_id);
       ("gamma_url", gamma_url);
       ("status", JStr status);
       ("created_at", JStr created_at);
       ("updated_at", JStr updated_at)] in
    save_records (setitem_dumped generation_id record records).

(** [generation_id in records] holds for a string key of the loaded dict
    only: every key of a loaded JSON object is a string. *)
Definition update_generation_record (generation_id : jval) (kwargs : list (string * jval))
    : M bool :=
  records ← load_records;
  match generation_id with
  | JStr gid =>
      match dict_get gid records with
      | Some record =>
          now ← datetime_now_isoformat;
          save_records
            (dict_set gid (dict_set "updated_at" (JStr now) (dict_update record kwargs)) records)
      | None => mret false
      end
  | _ => mret false
  end.

(** *** The generation client: lines 238-401 *)

(** [not GAMMA_API_KEY], and the truth value of an optional string. *)
Definition str_truthy (s : option string) : bool :=
  match s with
  | None => false
  | Some v => bool_decide (v ≠ "")
  end.

Definition build_payload (input_text : text) (theme_id : option string)
    (num_cards : option Z) (additional_instructions : option string)
    (has_image_urls : bool) : Payload :=
  let image_source := if has_image_urls then "noImages" else "aiGenerated" in
  {| inputText := input_text;
     textMode := "generate";
     format := "presentation";
     cardSplit := "auto";
     exportAs := "pdf";
     themeId := if str_truthy theme_id then theme_id else None;
     numCards :=
       match num_cards with
       | Some n => if bool_decide (n ≠ 0%Z) then Some n else None
       | None => None
       end;
     additionalInstructions :=
       if str_truthy additional_instructions then additional_instructions else None;
     textOptions :=
       {| amount := "detailed"; tone := "professional";
          audience := "general"; language := "en" |};
     imageOptions :=
       {| source := image_source;
          model := if bool_decide (image_source = "aiGenerated")
                   then Some "imagen-4-pro" else None;
          style := if bool_decide (image_source = "aiGenerated")
                   then Some "photorealistic" else None |};
     cardOptions := {| dimensions := "fluid" |} |}.

(** Returns the generation id, [JNull] for Python's [None]. *)
Definition generate_presentation (input_text : text) (theme_id : option string)
    (num_cards : option Z) (additional_instructions : option string)
    (has_image_urls : bool) : M jval :=
  if negb (str_truthy (GAMMA_API_KEY env)) then raise ValueError
  else
    let url := GAMMA_API_BASE_URL +:+ "/generations" in
    let payload :=
      build_payload input_text theme_id num_cards additional_instructions has_image_urls in
    response ← requests_post url payload;
    if negb (bool_decide (status_code response ∈ [200; 201]%Z)) then mret JNull
    else
      result ← response_json response;
      let generation_id := jget "generationId" result in
      if negb (truthy generation_id) then mret JNull
      else mret generation_id.

(** Lines 356-363: what [check_generation_status] makes of the response;
    [(JNull, None)] is [(None, None)]. *)
Definition status_of (response : Response) : result (jval * option (list (string * jval))) :=
  if bool_decide (status_code response ≠ 200%Z) then Ret (JNull, None)
  else
    match json response with
    | Some result => Ret (jget_default "status" (JStr "unknown") result, Some result)
    | None => Raise JSONDecodeError
    end.

Definition status_url (generation_id : jval) : string :=
  GAMMA_API_BASE_URL +:+ "/generations/" +:+ py_str generation_id.

(** Returns [(status, result_data)]. *)
Definition check_generation_status (generation_id : jval)
    : M (jval * option (list (string * jval))) :=
  if negb (str_truthy (GAMMA_API_KEY env)) then raise ValueError
  else
    response ← requests_get (status_url generation_id);
    pure (status_of response).

(** The [while] loop of lines 379-398; one unit of fuel per test of the
    loop condition. *)
Fixpoint wait_loop (fuel : nat) (generation_id : jval)
    (max_wait_time check_interval start_time : Z)
    : M (bool * option (list (string * jval))) :=
  match fuel with
  | O => λ st, (Diverges, st)
  | S fuel' =>
      now ← time_time;
      if bool_decide (now - start_time < max_wait_time)%Z then
        '(status, result) ← check_generation_status generation_id;
        if bool_decide (status = JNull) then mret (false, None)
        else if bool_decide (status = JStr "completed") then mret (true, result)
        else if bool_decide (status = JStr "failed") then mret (false, result)
        else if bool_decide (status ∈ [JStr "pending"; JStr "processing"]) then
          time_sleep check_interval;;
          wait_loop fuel' generation_id max_wait_time check_interval start_time
        else
          time_sleep check_interval;;
          wait_loop fuel' generation_id max_wait_time check_interval start_time
      else mret (false, None)
  end.

(** With [check_interval >= 1] the loop condition is tested at most
    [max_wait_time + 1] times, which is the fuel given. *)
Definition wait_for_completion (generation_id : jval)
    (max_wait_time check_interval : Z) : M (bool * option (list (string * jval))) :=
  start_time ← time_time;
  wait_loop (Z.to_nat max_wait_time + 1) generation_id max_wait_time check_interval start_time.

(** *** Export through the API: lines 404-486 *)

Fixpoint str_drop (n : nat) (s : string) : string :=
  match n, s with
  | O, _ => s
  | S n', String _ s' => str_drop n' s'
  | S _, EmptyString => EmptyString
  end.

(** The longest prefix matching [[^/?]*]. *)
Fixpoint doc_id_run (s : string) : string :=
  match s with
  | EmptyString => EmptyString
  | String c s' =>
      if bool_decide (c = "/"%char ∨ c = "?"%char) then EmptyString
      else String c (doc_id_run s')
  end.

(** Group 1 of [re.search(r'/docs/([^/?]+)', s)]: the leftmost position
    where ["/docs/"] is followed by at least one character other than
    [/] and [?]. *)
Fixpoint search_doc_id (s : string) : option string :=
  match s with
  | EmptyString => None
  | String _ s' =>
      if String.prefix "/docs/" s
         && negb (bool_decide (doc_id_run (str_drop 6 s) = ""))
      then Some (doc_id_run (str_drop 6 s))
      else search_doc_id s'
  end.

Definition export_urls (doc_id : option string) (generation_id : jval)
    (export_format : string) : list string :=
  match doc_id with
  | Some d =>
      [GAMMA_API_BASE_URL +:+ "/docs/" +:+ d +:+ "/export/" +:+ export_format;
       GAMMA_API_BASE_URL +:+ "/generations/" +:+ py_str generation_id
         +:+ "/export/" +:+ export_format;
       "https://gamma.app/api/export/" +:+ export_format +:+ "/" +:+ d]
  | None =>
      [GAMMA_API_BASE_URL +:+ "/generations/" +:+ py_str generation_id
         +:+ "/export/" +:+ export_format]
  end.

(** Lines 451-462. *)
Definition is_valid (export_format : string) (response : Response) : bool :=
  let content_type := default "" (content_type response) in
  if bool_decide (export_format = "pdf") then
    contains "pdf" (lower content_type)
    || bool_decide (bytes_take 4 (content response) = "%PDF")
  else if bool_decide (export_format = "pptx") then
    contains "presentation" (lower content_type)
    || contains "pptx" (lower content_type)
    || bool_decide (bytes_take 2 (content response) = "PK")
  else false.

(** [open(output_path, 'wb')] and the writes of lines 465-468: the chunks of
    [iter_content], written one after the other, are the body. *)
Definition write_file (output_path : string) (data : bytes) : M unit := λ st,
  if writable env output_path
  then (Ret (), set_files (<[output_path := data]> (files st)) (log (EvWrite output_path data) st))
  else (Raise OSError, st).

(** One turn of the loop of lines 441-484: [Some r] returns [r] from the
    function, [None] is [continue].  Whatever is raised inside the [try] is
    caught and the loop continues. *)
Definition try_export_url (export_url output_path export_format : string)
    : M (option (bool * option string)) := λ st,
  match requests_get export_url st with
  | (Ret response, st1) =>
      if bool_decide (status_code response = 200%Z) then
        if is_valid export_format response then
          match write_file output_path (content response) st1 with
          | (Ret _, st2) => (Ret (Some (true, Some "api")), st2)
          | (_, st2) => (Ret None, st2)
          end
        else (Ret None, st1)
      else if bool_decide (status_code response = 202%Z) then (Ret None, st1)
      else (Ret None, st1)
  | (_, st1) => (Ret None, st1)
  end.

Fixpoint for_export_urls (urls : list string) (output_path export_format : string)
    : M (bool * option string) :=
  match urls with
  | [] => mret (false, None)
  | export_url :: rest =>
      r ← try_export_url export_url output_path export_format;
      match r with
      | Some res => mret res
      | None => for_export_urls rest output_path export_format
      end
  end.

(** [re.search] raises [TypeError] on anything but a string. *)
Definition download_via_api (gamma_url generation_id : jval)
    (output_path export_format : string) : M (bool * option string) :=
  match gamma_url with
  | JStr u =>
      let doc_id := search_doc_id u in
      for_export_urls (export_urls doc_id generation_id export_format)
        output_path export_format
  | _ => raise TypeError
  end.

(** *** Export through the browser: lines 489-754

    The Selenium session is modelled by its interface.  Without Selenium the
    function returns [(False, None)] at once.  Otherwise it opens one browser
    session on [gamma_url], and the oracle [browser_export] tells whether a
    file ends up at [output_path]; every exception is caught inside. *)
Definition download_via_browser (gamma_url : jval) (output_path export_format : string)
    (headless : bool) : M (bool * option string) :=
  if negb (SELENIUM_AVAILABLE env) then mret (false, None)
  else λ st,
    let st1 := next_req (log (EvBrowser (py_str gamma_url) export_format headless) st) in
    match browser_export env (nreq st) (py_str gamma_url) output_path headless with
    | Some data =>
        (Ret (true, Some "browser"), set_files (<[output_path := data]> (files st1)) st1)
    | None => (Ret (false, None), st1)
    end.

(** Lines 757-802. *)
Definition download_pdf (gamma_url generation_id : jval) (output_path : string)
    (use_browser : bool) : M bool :=
  r ← download_via_api gamma_url generation_id output_path "pdf";
  let '(success, method) := r : bool * option string in
  if success then mret true
  else if use_browser || SELENIUM_AVAILABLE env then
    if SELENIUM_AVAILABLE env then
      let headless_mode :=
        bool_decide (lower (default "false" (BROWSER_HEADLESS env)) = "true") in
      r ← download_via_browser gamma_url output_path "pdf" headless_mode;
      let '(success, method) := r : bool * option string in
      if success then mret true else mret false
    else mret false
  else mret false.

(** *** Text extraction: lines 48-90, 222-235, 886-899 *)

(** The character class of the URL pattern: anything but white space and
    the eleven characters less-than, greater-than, double quote, the braces,
    the bar, the backslash, the caret, the backquote and the brackets. *)
Definition url_char (c : N) : bool :=
  negb (is_space c
        || bool_decide (c ∈ [60; 62; 34; 123; 125; 124; 92; 94; 96; 91; 93]%N)).

Fixpoint url_run (t : text) : text :=
  match t with
  | [] => []
  | c :: t' => if url_char c then c :: url_run t' else []
  end.

(** A match of the URL pattern at the head of [t]: [http], an optional [s],
    [://], then one or more characters of the class, as many as possible. *)
Definition match_url (t : text) : option text :=
  let scheme :=
    if text_prefix (utext "https://") t then Some 8
    else if text_prefix (utext "http://") t then Some 7
    else None in
  match scheme with
  | Some n =>
      match url_run (drop n t) with
      | [] => None
      | run => Some (take n t ++ run)
      end
  | None => None
  end.

(** [re.findall]: leftmost matches, the scan resuming after each match;
    [skip] counts the characters of the last match still to pass. *)
Fixpoint findall_from (skip : nat) (t : text) : list text :=
  match t with
  | [] => []
  | _ :: t' =>
      match skip with
      | S k => findall_from k t'
      | O =>
          match match_url t with
          | Some m => m :: findall_from (length m - 1) t'
          | None => findall_from 0 t'
          end
      end
  end.

Definition findall_urls (t : text) : list text := findall_from 0 t.

Definition has_ext (exts : list string) (url : text) : bool :=
  existsb (λ ext, endswith (lower_text url) (utext ext)) exts.

Definition has_domain (domains : list string) (url : text) : bool :=
  existsb (λ domain, text_contains (utext domain) (lower_text url)) domains.

(** Lines 76-84: image links, each kept once, in order of appearance. *)
Definition docx_image_urls (urls : list text) : list text :=
  foldl (λ image_urls url,
           let is_image :=
             has_ext [".jpg"; ".jpeg"; ".png"; ".gif"; ".webp"; ".svg"; ".bmp"] url
             || has_domain ["imgur.com"; "imgbb.com"; "cloudinary.com";
                            "unsplash.com"; "pexels.com"] url in
           if is_image && negb (bool_decide (url ∈ image_urls))
           then image_urls ++ [url] else image_urls)
        [] urls.

(** Returns [(text_content, image_urls)], [(None, [])] on any exception. *)
Definition extract_text_from_docx (file_path : string) : M (option text * list text) := λ st,
  match files st !! file_path with
  | Some data =>
      match (if readable env file_path then Document env data else None) with
      | Some doc =>
          let text_parts :=
            List.filter (λ t, negb (blank t)) (paragraphs doc)
            ++ List.filter (λ t, negb (blank t)) (concat (concat (tables doc))) in
          let all_text := join_lines text_parts in
          (Ret (Some all_text, docx_image_urls (findall_urls all_text)), st)
      | None => (Ret (None, []), st)
      end
  | None => (Ret (None, []), st)
  end.

(** Returns the text of the pages, [None] on any exception. *)
Definition extract_text_from_pdf (file_path : string) : M (option text) := λ st,
  match files st !! file_path with
  | Some data =>
      match (if readable env file_path then PdfReader env data else None) with
      | Some pages =>
          (Ret (Some (join_lines (List.filter (λ t, negb (blank t)) pages))), st)
      | None => (Ret None, st)
      end
  | None => (Ret None, st)
  end.

(** Lines 896-899. *)
Definition pdf_image_urls (text_content : option text) : list text :=
  match text_content with
  | Some ((_ :: _) as t) =>
      List.filter (has_ext [".jpg"; ".jpeg"; ".png"; ".gif"; ".webp"; ".svg"])
        (findall_urls t)
  | _ => []
  end.

(** *** The orchestrator: lines 839-976 *)

(** The header of the image section: two line feeds, three dashes, two line
    feeds, a hash sign, a space, the four characters U+56FE U+7247 U+8D44
    U+6E90, and a line feed. *)
Definition image_section_header : text :=
  [10; 10; 45; 45; 45; 10; 10; 35; 32; 0x56FE; 0x7247; 0x8D44; 0x6E90; 10]%N.

(** Lines 914-916: one link per line, the first 20 links only. *)
Definition image_section (image_urls : list text) : text :=
  foldl (λ section img_url, section ++ img_url ++ [10%N])
        image_section_header (take 20 image_urls).

(** Lines 911-918: the image section is added when there are links. *)
Definition append_image_section (text_content : text) (image_urls : list text) : text :=
  match image_urls with
  | [] => text_content
  | _ :: _ => text_content ++ image_section image_urls
  end.

(** Lines 920-923. *)
Definition truncate_text (text_content : text) : text :=
  if bool_decide (400000 < Z.of_nat (length text_content))%Z
  then take (Z.to_nat 400000) text_content
  else text_content.

(** Lines 911-923: the text sent as [inputText]. *)
Definition prepare_text (text_content : text) (image_urls : list text) : text :=
  truncate_text (append_image_section text_content image_urls).

(** Lines 928-930. *)
Definition instructions (image_urls : list text) : string :=
  let additional_instructions := "Make the presentation professional and engaging" in
  match image_urls with
  | [] => additional_instructions
  | _ :: _ =>
      additional_instructions +:+
      ". Please include and use the image URLs provided in the input text. Display images appropriately in the presentation slides."
  end.

Definition output_path_of (input_path : PyPath) : string :=
  OUTPUT_DIR +:+ "/" +:+ p_stem input_path +:+ "_gamma_presentation.pdf".

(** Lines 856-883: [Some b] returns [b], [None] goes on to generate. *)
Definition reuse_existing (input_path : PyPath) : M (option bool) :=
  '(exists_, record) ← check_existing_generation input_path;
  if exists_ : bool then
    match record with
    | Some record =>
        let gamma_url := jget "gamma_url" record in
        if truthy gamma_url then
          let output_path := output_path_of input_path in
          present ← path_exists output_path;
          (if negb present then
             let generation_id := jget "generation_id" record in
             download_pdf gamma_url generation_id output_path false;; mret ()
           else mret ());;
          mret (Some true)
        else mret None
    | None => raise AttributeError
    end
  else mret None.

(** Lines 886-906: the text and the image links, [None] when the function
    returns [False]. *)
Definition extract (input_path : PyPath) : M (option (text * list text)) :=
  r ←
    (if bool_decide (lower (p_suffix input_path) = ".docx") then
       r ← extract_text_from_docx (p_str input_path); mret (Some r)
     else if bool_decide (lower (p_suffix input_path) = ".pdf") then
       text_content ← extract_text_from_pdf (p_str input_path);
       mret (Some (text_content, pdf_image_urls text_content))
     else mret None);
  match r with
  | Some (Some text_content, image_urls) =>
      if blank text_content then mret None
      else mret (Some (text_content, image_urls))
  | _ => mret None
  end.

(** Lines 925-937: the body of the submission. *)
Definition payload_of (text_content : text) (image_urls : list text) : Payload :=
  build_payload (prepare_text text_content image_urls) (GAMMA_THEME_ID env) None
    (Some (instructions image_urls)) (bool_decide (0 < length image_urls)).

(** Lines 939-976: what follows the submission. *)
Definition finish_generation (input_path : PyPath) (generation_id : jval) : M bool :=
  if negb (truthy generation_id) then mret false
  else
    '(success, result) ← wait_for_completion generation_id 300 5;
    if negb success then mret false
    else
      match result with
      | None => raise AttributeError
      | Some result =>
          let gamma_url := py_or (jget "gammaUrl" result) (jget "url" result) in
          if negb (truthy gamma_url) then mret false
          else
            add_generation_record input_path generation_id gamma_url "completed";;
            let output_path := output_path_of input_path in
            let use_browser :=
              bool_decide (lower (default "false" (USE_BROWSER_EXPORT env)) = "true") in
            download_success ← download_pdf gamma_url generation_id output_path use_browser;
            (if download_success : bool then
               update_generation_record generation_id
                 [("pdf_downloaded", JBool true); ("pdf_path", JStr output_path)]
             else
               update_generation_record generation_id [("pdf_downloaded", JBool false)]);;
            mret download_success
      end.

(** Lines 908-976. *)
Definition generate_and_export (input_path : PyPath) (text_content : text)
    (image_urls : list text) : M bool :=
  let input_text := prepare_text text_content image_urls in
  let additional_instructions := instructions image_urls in
  generation_id ←
    generate_presentation input_text (GAMMA_THEME_ID env) None
      (Some additional_instructions) (bool_decide (0 < length image_urls));
  finish_generation input_path generation_id.

Definition process_file (input_path : PyPath) (force_regenerate : bool) : M bool :=
  present ← path_exists (p_str input_path);
  if negb present then mret false
  else
    reused ← (if negb force_regenerate then reuse_existing input_path else mret None);
    match reused with
    | Some b => mret b
    | None =>
        extracted ← extract input_path;
        match extracted with
        | None => mret false
        | Some (text_content, image_urls) =>
            generate_and_export input_path text_content image_urls
        end
    end.

End program.

(** * Properties *)

(** ** What a computation does to the trace *)

(** The events a computation adds to the trace. *)
Definition events_of {A} (m : M A) (st : State) : list event :=
  drop (length (trace st)) (trace (m st).2).

(** [m] only appends to the trace, and only events satisfying [P]. *)
Definition emits {A} (P : event → Prop) (m : M A) : Prop :=
  ∀ st, ∃ evs, trace (m st).2 = trace st ++ evs ∧ Forall P evs.

(** Anything but a submission. *)
Definition not_submit (e : event) : Prop := is_submit e = false.

(** Anything but a submission with a body other than [body]. *)
Definition posts (body : Payload) (e : event) : Prop :=
  match e with
  | EvPost _ b => b = body
  | _ => True
  end.

(** The state after a request to [url]. *)
Definition polled (env : Env) (url : string) (st : State) : State :=
  advance (Z.of_N (latency env (nreq st))) (next_req (log (EvGet url) st)).


(** The URLs requested and the files written, in order. *)
Definition gets (evs : list event) : list string :=
  omap (λ e, match e with EvGet u => Some u | _ => None end) evs.

Definition writes (evs : list event) : list (string * bytes) :=
  omap (λ e, match e with EvWrite path data => Some (path, data) | _ => None end) evs.

(** ** The format check in the words of the specification *)

(** The response advertises the content type of the format. *)
Definition advertises (export_format : string) (response : Response) : Prop :=
  let content_type := lower (default "" (content_type response)) in
  export_format = "pdf" ∧ contains "pdf" content_type = true ∨
  export_format = "pptx" ∧
    (contains "presentation" content_type = true ∨ contains "pptx" content_type = true).

(** The body begins with the signature of the format. *)
Definition has_signature (export_format : string) (response : Response) : Prop :=
  export_format = "pdf" ∧ bytes_take 4 (content response) = "%PDF" ∨
  export_format = "pptx" ∧ bytes_take 2 (content response) = "PK".

(** ** The ledger lookup in the words of the specification *)

Definition path_match (file_path_str : string) (record : list (string * jval)) : bool :=
  bool_decide (jget "file_path" record = JStr file_path_str).

Definition hash_match (file_hash : string) (record : list (string * jval)) : bool :=
  bool_decide (jget "file_hash" record = JStr file_hash).

(** [findByFileOrHash]: the first record matching by path and, only when no
    record matches by path, the first record matching by hash. *)
Definition findByFileOrHash (file_path_str file_hash : string)
    (records : list (string * list (string * jval))) : option (list (string * jval)) :=
  match List.find (λ kv, path_match file_path_str kv.2) records with
  | Some kv => Some kv.2
  | None =>
      match List.find (λ kv, hash_match file_hash kv.2) records with
      | Some kv => Some kv.2
      | None => None
      end
  end.

(** ** A sample world *)

Definition response (code : Z) (ctype : option string) (body : bytes)
    (js : option (list (string * jval))) : Response :=
  {| status_code := code; content_type := ctype; content := body; json := js |}.

(** A service that accepts every submission as generation [g1]; reports
    [g1] as [pending] to request 1, [processing] to request 2 and [completed]
    from then on; reports [g2] as [processing] for ever; and answers every
    export request with 202. *)
Definition demo_env : Env :=
  {| GAMMA_API_KEY := Some "key";
     GAMMA_THEME_ID := None;
     SELENIUM_AVAILABLE := false;
     USE_BROWSER_EXPORT := None;
     BROWSER_HEADLESS := None;
     resolve := λ p, "/data/" +:+ p;
     readable := λ p, negb (bool_decide (p = "locked.docx"));
     writable := λ _, true;
     md5_hexdigest := λ data, "md5-" +:+ data;
     Document := λ _,
       Some {| paragraphs := [utext "Quarterly report http://x.org/a.png"];
               tables := [] |};
     PdfReader := λ _, None;
     http_post := λ _ _ _,
       HttpOk (response 200 None "" (Some [("generationId", JStr "g1")]));
     http_get := λ k url,
       if bool_decide (url = "https://public-api.gamma.app/v1.0/generations/g2") then
         HttpOk (response 200 None "" (Some [("status", JStr "processing")]))
       else if bool_decide (url = "https://public-api.gamma.app/v1.0/generations/g1") then
         match k with
         | 1 => HttpOk (response 200 None "" (Some [("status", JStr "pending")]))
         | 2 => HttpOk (response 200 None "" (Some [("status", JStr "processing")]))
         | _ => HttpOk (response 200 None ""
                          (Some [("status", JStr "completed");
                                 ("gammaUrl", JStr "https://gamma.app/docs/abc")]))
         end
       else HttpOk (response 202 None "" None);
     latency := λ _, 0%N;
     isoformat_now := λ k, "t" +:+ pretty k;
     browser_export := λ _ _ _ _, None |}.

(** The sample service, except that the first export candidate of document
    [abc] is answered with a web page and the second with a PDF file. *)
Definition html_env : Env :=
  {| GAMMA_API_KEY := GAMMA_API_KEY demo_env;
     GAMMA_THEME_ID := GAMMA_THEME_ID demo_env;
     SELENIUM_AVAILABLE := SELENIUM_AVAILABLE demo_env;
     USE_BROWSER_EXPORT := USE_BROWSER_EXPORT demo_env;
     BROWSER_HEADLESS := BROWSER_HEADLESS demo_env;
     resolve := resolve demo_env;
     readable := readable demo_env;
     writable := writable demo_env;
     md5_hexdigest := md5_hexdigest demo_env;
     Document := Document demo_env;
     PdfReader := PdfReader demo_env;
     http_post := http_post demo_env;
     http_get := λ k url,
       if bool_decide (url = "https://public-api.gamma.app/v1.0/docs/abc/export/pdf") then
         HttpOk (response 200 (Some "text/html") "<!DOCTYPE html><html></html>" None)
       else if bool_decide
                 (url = "https://public-api.gamma.app/v1.0/generations/g1/export/pdf") then
         HttpOk (response 200 (Some "application/pdf") "%PDF-1.7 slides" None)
       else http_get demo_env k url;
     latency := latency demo_env;
     isoformat_now := isoformat_now demo_env;
     browser_export := browser_export demo_env |}.

(** A paragraph of 400000 letters [a], and a link to a picture. *)
Definition long_paragraph : text := replicate (Z.to_nat 400000) 97%N.
Definition picture_url : text := utext "http://x.org/a.png".

(** The sample service, with a document made of the long paragraph
    followed by a paragraph that is the link. *)
Definition long_env : Env :=
  {| GAMMA_API_KEY := GAMMA_API_KEY demo_env;
     GAMMA_THEME_ID := GAMMA_THEME_ID demo_env;
     SELENIUM_AVAILABLE := SELENIUM_AVAILABLE demo_env;
     USE_BROWSER_EXPORT := USE_BROWSER_EXPORT demo_env;
     BROWSER_HEADLESS := BROWSER_HEADLESS demo_env;
     resolve := resolve demo_env;
     readable := readable demo_env;
     writable := writable demo_env;
     md5_hexdigest := md5_hexdigest demo_env;
     Document := λ _,
       Some {| paragraphs := [long_paragraph; picture_url]; tables := [] |};
     PdfReader := PdfReader demo_env;
     http_post := http_post demo_env;
     http_get := http_get demo_env;
     latency := latency demo_env;
     isoformat_now := isoformat_now demo_env;
     browser_export := browser_export demo_env |}.

Definition report : PyPath :=
  {| p_str := "report.docx"; p_name := "report.docx";
     p_stem := "report"; p_suffix := ".docx" |}.

Definition locked : PyPath :=
  {| p_str := "locked.docx"; p_name := "locked.docx";
     p_stem := "locked"; p_suffix := ".docx" |}.

(** [gen-1] was made from a copy of the report, [gen-2] from an older
    content of [report.docx], [gen-3] from [locked.docx]. *)
Definition demo_ledger : list (string * list (string * jval)) :=
  [("gen-1", [("file_path", JStr "/data/copy.docx");
              ("file_hash", JStr "md5-REPORT");
              ("generation_id", JStr "gen-1");
              ("gamma_url", JStr "https://gamma.app/docs/one");
              ("status", JStr "completed");
              ("created_at", JStr "2025-01-01T10:00:00");
              ("updated_at", JStr "2025-01-01T10:00:00")]);
   ("gen-2", [("file_path", JStr "/data/report.docx");
              ("file_hash", JStr "md5-OLD");
              ("generation_id", JStr "gen-2");
              ("gamma_url", JStr "https://gamma.app/docs/two");
              ("status", JStr "completed");
              ("created_at", JStr "2025-01-02T10:00:00");
              ("updated_at", JStr "2025-01-02T10:00:00")]);
   ("gen-3", [("file_path", JStr "/data/locked.docx");
              ("file_hash", JStr "md5-LOCKED");
              ("generation_id", JStr "gen-3");
              ("gamma_url", JStr "https://gamma.app/docs/three");
              ("status", JStr "completed");
              ("created_at", JStr "2025-01-03T10:00:00");
              ("updated_at", JStr "2025-01-03T10:00:00")])].

Definition demo_state : State :=
  {| clock := 0; nreq := 0; ndate := 0;
     ledger_file := LedgerJson demo_ledger;
     files := {["report.docx" := "REPORT"; "locked.docx" := "LOCKED"]};
     trace := [] |}.

(** The sample world once the submission, request 0, is made. *)
Definition polling_state : State :=
  {| clock := 0; nreq := 1; ndate := 0;
     ledger_file := LedgerJson demo_ledger;
     files := {["report.docx" := "REPORT"; "locked.docx" := "LOCKED"]};
     trace := [] |}.

(** * The rest of the program

    The export to PPTX, the listing of the ledger and the command line.
    The listing is the one place where what is printed is kept: the entries,
    in the order in which they are printed, are the value of
    [list_generations].  Strings are compared byte by byte, which on UTF-8
    is the order of the code points that Python compares. *)

Section program_rest.
Variable env : Env.

(** Lines 805-836. *)
Definition download_pptx (gamma_url generation_id : jval) (output_path : string)
    (use_browser : bool) : M bool :=
  r ← download_via_api env gamma_url generation_id output_path "pptx";
  let '(success, method) := r : bool * option string in
  if success then mret true
  else if use_browser || (negb use_browser && SELENIUM_AVAILABLE env) then
    if SELENIUM_AVAILABLE env then
      r ← download_via_browser env gamma_url output_path "pptx" true;
      let '(success, method) := r : bool * option string in
      if success then mret true else mret false
    else mret false
  else mret false.

End program_rest.

(** *** Listing the ledger: lines 196-219 *)

(** The sort key of line 209: [x[1].get('created_at', '')]. *)
Definition created_at_key (item : string * list (string * jval)) : jval :=
  jget_default "created_at" (JStr "") item.2.

(** [a < b] on two keys; [None] where Python raises [TypeError]: strings
    compare with strings, numbers and booleans with each other, [None] with
    nothing. *)
Definition key_number (v : jval) : option Z :=
  match v with
  | JNum n => Some n
  | JBool b => Some (if b then 1 else 0)%Z
  | _ => None
  end.

Definition key_lt (a b : jval) : option bool :=
  match a, b with
  | JStr s, JStr t => Some (String.ltb s t)
  | _, _ =>
      match key_number a, key_number b with
      | Some m, Some n => Some (bool_decide (m < n)%Z)
      | _, _ => None
      end
  end.

(** Keys that a sort can compare: all strings, or all numbers. *)
Definition comparable_keys (keys : list jval) : bool :=
  forallb (λ k, match k with JStr _ => true | _ => false end) keys
  || forallb (λ k, bool_decide (is_Some (key_number k))) keys.

(** The place of a new item in a list sorted from the greatest key down:
    after the items whose key is not smaller. *)
Fixpoint insert_desc (item : string * list (string * jval))
    (sorted : list (string * list (string * jval)))
    : list (string * list (string * jval)) :=
  match sorted with
  | [] => [item]
  | item' :: rest =>
      if default false (key_lt (created_at_key item') (created_at_key item))
      then item :: item' :: rest
      else item' :: insert_desc item rest
  end.

(** [sorted(items, key=..., reverse=True)]: a stable sort, items with equal
    keys stay in their order; a sort of two items or more raises [TypeError]
    when their keys cannot be compared. *)
Definition sorted_newest_first (items : list (string * list (string * jval)))
    : result (list (string * list (string * jval))) :=
  if bool_decide (2 ≤ length items) && negb (comparable_keys (created_at_key <$> items))
  then Raise TypeError
  else Ret (foldl (λ sorted item, insert_desc item sorted) [] items).

(** One entry of the listing, lines 211-217: the number of the entry and the
    six fields printed, ['N/A'] for a missing one. *)
Record Entry := {
  entry_number : nat;
  entry_file_name : jval;
  entry_generation_id : jval;
  entry_status : jval;
  entry_gamma_url : jval;
  entry_created_at : jval;
  entry_updated_at : jval;
}.

Definition entry_of (i : nat) (record : list (string * jval)) : Entry :=
  {| entry_number := i;
     entry_file_name := jget_default "file_name" (JStr "N/A") record;
     entry_generation_id := jget_default "generation_id" (JStr "N/A") record;
     entry_status := jget_default "status" (JStr "N/A") record;
     entry_gamma_url := jget_default "gamma_url" (JStr "N/A") record;
     entry_created_at := jget_default "created_at" (JStr "N/A") record;
     entry_updated_at := jget_default "updated_at" (JStr "N/A") record |}.

(** The function prints; its value here is the list of the entries printed,
    in order.  [enumerate(..., 1)] numbers them from 1. *)
Definition list_generations : M (list Entry) :=
  records ← load_records;
  match records with
  | [] => mret []
  | _ :: _ =>
      sorted ← pure (sorted_newest_first records);
      mret (imap (λ i item, entry_of (S i) item.2) sorted)
  end.

(** *** The command line: lines 979-1042 *)

(** [os.environ["USE_BROWSER_EXPORT"] = "true"]. *)
Definition with_browser_export (env : Env) : Env :=
  {| GAMMA_API_KEY := GAMMA_API_KEY env;
     GAMMA_THEME_ID := GAMMA_THEME_ID env;
     SELENIUM_AVAILABLE := SELENIUM_AVAILABLE env;
     USE_BROWSER_EXPORT := Some "true";
     BROWSER_HEADLESS := BROWSER_HEADLESS env;
     resolve := resolve env;
     readable := readable env;
     writable := writable env;
     md5_hexdigest := md5_hexdigest env;
     Document := Document env;
     PdfReader := PdfReader env;
     http_post := http_post env;
     http_get := http_get env;
     latency := latency env;
     isoformat_now := isoformat_now env;
     browser_export := browser_export env |}.

(** What the loop of lines 991-1008 decides. *)
Inductive Command :=
| CmdList
| CmdUsage (arg : string)
| CmdRun (force_regenerate use_browser : bool).

Fixpoint parse_args (args : list string) (force_regenerate use_browser : bool) : Command :=
  match args with
  | [] => CmdRun force_regenerate use_browser
  | arg :: rest =>
      if bool_decide (arg = "--list") || bool_decide (arg = "-l") then CmdList
      else if bool_decide (arg = "--force") || bool_decide (arg = "-f")
           then parse_args rest true use_browser
      else if bool_decide (arg = "--browser") || bool_decide (arg = "-b")
           then parse_args rest force_regenerate true
      else CmdUsage arg
  end.

(** The name that marks the document to process: the six characters U+539F
    U+59CB U+90AE U+4EF6 U+6570 U+636E, here in UTF-8. *)
Definition RAW_MAIL_DATA : string := "原始邮件数据".

(** What follows the loop over the arguments, lines 1010-1042;
    [docx_files] and [pdf_files] are what the two [glob] calls of lines
    1021-1022 list. *)
Definition run_command (env : Env) (command : Command) (docx_files pdf_files : list PyPath)
    : M unit :=
  match command with
  | CmdList => list_generations;; mret ()
  | CmdUsage _ => mret ()
  | CmdRun force_regenerate use_browser =>
      let env := if use_browser then with_browser_export env else env in
      if negb (str_truthy (GAMMA_API_KEY env)) then mret ()
      else
        match docx_files with
        | _ :: _ =>
            match List.find (λ docx_file, contains RAW_MAIL_DATA (p_name docx_file))
                            docx_files with
            | Some docx_file => process_file env docx_file force_regenerate;; mret ()
            | None => mret ()
            end
        | [] =>
            match pdf_files with
            | pdf_file :: _ => process_file env pdf_file force_regenerate;; mret ()
            | [] => mret ()
            end
        end
  end.

(** [argv] is [sys.argv]. *)
Definition main (env : Env) (argv : list string) (docx_files pdf_files : list PyPath)
    : M unit :=
  run_command env (parse_args (drop 1 argv) false false) docx_files pdf_files.

(** * More properties *)

(** A record with a Gamma URL, as line 866 tests it. *)
Definition resolved (record : list (string * jval)) : Prop :=
  truthy (jget "gamma_url" record) = true.

(** The ledger as [load_records] reads it. *)
Definition ledger_of (st : State) : list (string * list (string * jval)) :=
  match ledger_file st with
  | LedgerJson members => dict_of_pairs members
  | LedgerAbsent | LedgerCorrupt => []
  end.

(** The number of submissions among the events. *)
Definition submissions (evs : list event) : nat := length (List.filter is_submit evs).

(** What may follow a document id in a URL: nothing, a slash or a question
    mark. *)
Definition ends_doc_id (rest : string) : Prop :=
  match rest with
  | EmptyString => True
  | String c _ => c = "/"%char ∨ c = "?"%char
  end.

(** The test of lines 78-82: the link ends in an image extension or names
    an image host. *)
Definition is_image_link (url : list N) : bool :=
  has_ext [".jpg"; ".jpeg"; ".png"; ".gif"; ".webp"; ".svg"; ".bmp"] url
  || has_domain ["imgur.com"; "imgbb.com"; "cloudinary.com";
                 "unsplash.com"; "pexels.com"] url.

(** A match of the URL pattern standing in a text: the scheme, then
    characters of the class only, at least one, and as many as there are. *)
Definition url_match_in (t url : list N) : Prop :=
  ∃ before rest,
    t = before ++ url ++ rest ∧
    (∃ run, run ≠ [] ∧ Forall (λ c, url_char c = true) run ∧
            (url = utext "https://" ++ run ∨ url = utext "http://" ++ run)) ∧
    match rest with
    | [] => True
    | c :: _ => url_char c = false
    end.

(** ** Hoare triples for the monad of the program *)

(** From a state where [P] holds, [m] ends, with a value, an exception or
    out of fuel, in a state where [Q] holds of the outcome. *)
Definition hoare {A} (P : State → Prop) (m : M A) (Q : result A → State → Prop) : Prop :=
  ∀ st, P st → Q (m st).1 (m st).2.

(** [m] leaves the part [g] of the state as it was. *)
Definition keeps {X A} (g : State → X) (m : M A) : Prop :=
  ∀ st, g (m st).2 = g st.

(** [m] does not touch the ledger file. *)
Definition keeps_ledger {A} (m : M A) : Prop := keeps ledger_file m.

(** [m] does not touch any file but the one at [output_path], the ledger
    apart. *)
Definition files_but (output_path : string) (st : State) : gmap string string :=
  delete output_path (files st).

Definition writes_only {A} (output_path : string) (m : M A) : Prop :=
  keeps (files_but output_path) m.

(** Every record of the ledger has a Gamma URL. *)
Definition all_resolved (st : State) : Prop := Forall resolved (ledger_of st).*2.

(** [a] is not older than [b]: the creation key of [a] is not smaller. *)
Definition not_older (a b : string * list (string * jval)) : Prop :=
  key_lt (created_at_key a) (created_at_key b) ≠ Some true.

(** No item is older than one that comes after it. *)
Fixpoint newest_first (items : list (string * list (string * jval))) : Prop :=
  match items with
  | [] => True
  | item :: rest => Forall (not_older item) rest ∧ newest_first rest
  end.

(** The items with a given creation key, in order. *)
Definition created_with (k : jval) (items : list (string * list (string * jval)))
    : list (string * list (string * jval)) :=
  List.filter (λ item, bool_decide (created_at_key item = k)) items.



(** The ledger holds a record made from the file at [file_path_str]. *)
Definition recorded (file_path_str : string) (st : State) : Prop :=
  ∃ k record, dict_get k (ledger_of st) = Some record ∧
              path_match file_path_str record = true.

(** * Proofs *)

(** ** Dictionaries *)

Section pydict_facts.
Context {V : Type}.
Implicit Types (d kw : list (string * V)) (k : string) (v : V).

Lemma dict_get_set_eq k v d : dict_get k (dict_set k v d) = Some v.
Proof.
  induction d as [|[k' v'] d IH]; simpl.
  - by rewrite decide_True.
  - destruct (decide (k' = k)) as [->|Hne]; simpl.
    + by rewrite decide_True.
    + by rewrite decide_False.
Qed.

Lemma dict_get_set_ne k k' v d : k ≠ k' → dict_get k' (dict_set k v d) = dict_get k' d.
Proof.
  intros Hne. induction d as [|[k0 v0] d IH]; simpl.
  - by rewrite decide_False.
  - destruct (decide (k0 = k)) as [->|Hk0]; simpl.
    + by rewrite !decide_False.
    + by rewrite IH.
Qed.

Lemma dict_get_update_other k d kw :
  k ∉ kw.*1 → dict_get k (dict_update d kw) = dict_get k d.
Proof.
  unfold dict_update. revert d.
  induction kw as [|[k' v'] kw IH]; intros d Hk; simpl; [done|].
  rewrite fmap_cons, not_elem_of_cons in Hk. destruct Hk as [Hne Hk].
  rewrite IH by done. apply dict_get_set_ne. simpl in Hne. congruence.
Qed.

Lemma dict_get_None k d : dict_get k d = None ↔ k ∉ d.*1.
Proof.
  induction d as [|[k' v'] d IH]; simpl.
  - split; [intros _; apply not_elem_of_nil|done].
  - rewrite not_elem_of_cons. destruct (decide (k' = k)) as [->|Hne]; simpl.
    + split; [done|]. by intros [? _].
    + rewrite IH. split; [by intros ?|by intros [_ ?]].
Qed.

Lemma dict_set_fresh k v d : k ∉ d.*1 → dict_set k v d = d ++ [(k, v)].
Proof.
  induction d as [|[k' v'] d IH]; simpl; [done|].
  rewrite not_elem_of_cons. intros [Hne Hk].
  rewrite decide_False by done. by rewrite IH.
Qed.

Lemma dict_set_keys k v d :
  (dict_set k v d).*1 = if decide (k ∈ d.*1) then d.*1 else d.*1 ++ [k].
Proof.
  induction d as [|[k' v'] d IH].
  - destruct (decide (k ∈ ([] : list (string * V)).*1)) as [Hin|_]; [|done].
    by apply elem_of_nil in Hin.
  - cbn [dict_set]. rewrite fmap_cons. cbn [fst].
    destruct (decide (k' = k)) as [->|Hne].
    + rewrite decide_True; [done|left].
    + rewrite fmap_cons, IH. cbn [fst]. destruct (decide (k ∈ d.*1)) as [Hin|Hin].
      * rewrite decide_True; [done|by right].
      * rewrite decide_False; [done|]. rewrite not_elem_of_cons. done.
Qed.

Lemma dict_set_NoDup k v d : NoDup d.*1 → NoDup (dict_set k v d).*1.
Proof.
  intros Hd. rewrite dict_set_keys. case_decide; [done|].
  apply NoDup_app. split_and!; [done| |apply NoDup_singleton].
  intros x Hx. rewrite list_elem_of_singleton. by intros ->.
Qed.

Lemma dict_update_NoDup d kw : NoDup d.*1 → NoDup (dict_update d kw).*1.
Proof.
  unfold dict_update. revert d. induction kw as [|kv kw IH]; intros d Hd; simpl; [done|].
  apply IH. by apply dict_set_NoDup.
Qed.

Lemma dict_of_pairs_NoDup (l : list (string * V)) : NoDup (dict_of_pairs l).*1.
Proof. apply dict_update_NoDup. simpl. constructor. Qed.

(** Loading what was saved gives it back: a dict is the dict of its pairs. *)
Lemma dict_update_fresh d kw : NoDup (d ++ kw).*1 → dict_update d kw = d ++ kw.
Proof.
  unfold dict_update. revert d. induction kw as [|[k v] kw IH]; intros d Hnd; simpl.
  - by rewrite app_nil_r.
  - assert (k ∉ d.*1) as Hk.
    { rewrite fmap_app in Hnd. apply NoDup_app in Hnd as (_ & Hdis & _).
      intros Hin. apply (Hdis k Hin). simpl. left. }
    rewrite (dict_set_fresh k v d Hk). rewrite IH.
    + by rewrite <- app_assoc.
    + by rewrite <- app_assoc.
Qed.

Lemma dict_of_pairs_id (l : list (string * V)) : NoDup l.*1 → dict_of_pairs l = l.
Proof. intros Hl. unfold dict_of_pairs. by apply dict_update_fresh. Qed.

End pydict_facts.

Ltac mrun := unfold mbind, M_bind, bind, mret, M_ret, ret, raise, pure in *.

Lemma get_file_hash_state env file_path st : (get_file_hash env file_path st).2 = st.
Proof. unfold get_file_hash. by repeat case_match. Qed.

Lemma load_records_state st : (load_records st).2 = st.
Proof. unfold load_records. by repeat case_match. Qed.

Lemma check_existing_generation_state env file_path st :
  (check_existing_generation env file_path st).2 = st.
Proof.
  unfold check_existing_generation. mrun.
  pose proof (get_file_hash_state env (p_str file_path) st) as Hh.
  destruct (get_file_hash env (p_str file_path) st) as [[file_hash| |] st1];
    simpl in Hh; subst st1; [|done..].
  destruct (no_hash file_hash); [done|].
  pose proof (load_records_state st) as Hl.
  destruct (load_records st) as [[records| |] st1]; simpl in Hl; by subst st1.
Qed.

Lemma scan_records_spec file_path_str file_hash records :
  let hit record := path_match file_path_str record || hash_match file_hash record in
  match scan_records file_path_str file_hash records with
  | (true, Some record) =>
      ∃ before record_id after,
        records = before ++ (record_id, record) :: after ∧ hit record = true ∧
        ∀ kv, kv ∈ before → hit kv.2 = false
  | (false, None) => ∀ kv, kv ∈ records → hit kv.2 = false
  | _ => False
  end.
Proof.
  intros hit. induction records as [|[record_id record] rest IH]; simpl.
  - intros kv Hkv. by apply elem_of_nil in Hkv.
  - fold (path_match file_path_str record) (hash_match file_hash record).
    fold (hit record). destruct (hit record) eqn:Hhit.
    + exists [], record_id, rest. split_and!; [done..|].
      intros kv Hkv. by apply elem_of_nil in Hkv.
    + destruct (scan_records file_path_str file_hash rest) as [[] [found|]]; try done.
      * destruct IH as (before & rid & after & -> & Hfound & Hbefore).
        exists ((record_id, record) :: before), rid, after. split_and!; [done..|].
        intros kv [->|Hkv]%elem_of_cons; [done|by apply Hbefore].
      * intros kv [->|Hkv]%elem_of_cons; [done|by apply IH].
Qed.

(** With a hash the lookup is the scan of the loaded ledger. *)
Lemma check_existing_generation_scan env file_path st h records :
  (get_file_hash env (p_str file_path) st).1 = Ret (Some h) → h ≠ "" →
  (load_records st).1 = Ret records →
  check_existing_generation env file_path st =
  (Ret (scan_records (resolve env (p_str file_path)) h records), st).
Proof.
  intros Hhash Hne Hload.
  pose proof (get_file_hash_state env (p_str file_path) st) as Hst1.
  pose proof (load_records_state st) as Hst2.
  unfold check_existing_generation. mrun.
  destruct (get_file_hash env (p_str file_path) st) as [r st1].
  simpl in Hhash, Hst1. subst r st1.
  simpl. rewrite bool_decide_false by done.
  destruct (load_records st) as [r st1]. simpl in *. by subst.
Qed.

(** C3, as amended: when the content hash is computed, the lookup returns the
    first record, in ledger order, that matches by resolved path or by content
    hash; a record that matches by hash only is returned before a later one
    that matches by path. *)
Theorem check_existing_generation_first_match env file_path st h records :
  (get_file_hash env (p_str file_path) st).1 = Ret (Some h) → h ≠ "" →
  (load_records st).1 = Ret records →
  let hit record :=
    path_match (resolve env (p_str file_path)) record || hash_match h record in
  ∃ res, check_existing_generation env file_path st = (Ret res, st) ∧
    match res with
    | (true, Some record) =>
        ∃ before record_id after,
          records = before ++ (record_id, record) :: after ∧ hit record = true ∧
          ∀ kv, kv ∈ before → hit kv.2 = false
    | (false, None) => ∀ kv, kv ∈ records → hit kv.2 = false
    | _ => False
    end.
Proof.
  intros Hhash Hne Hload hit.
  exists (scan_records (resolve env (p_str file_path)) h records). split.
  - by apply check_existing_generation_scan.
  - apply scan_records_spec.
Qed.

Lemma check_existing_generation_first_match_witness :
  ∃ res, check_existing_generation demo_env report demo_state = (Ret res, demo_state) ∧
    match res with
    | (true, Some record) =>
        ∃ before record_id after,
          demo_ledger = before ++ (record_id, record) :: after ∧
          path_match "/data/report.docx" record || hash_match "md5-REPORT" record = true ∧
          ∀ kv, kv ∈ before →
            path_match "/data/report.docx" kv.2 || hash_match "md5-REPORT" kv.2 = false
    | (false, None) =>
        ∀ kv, kv ∈ demo_ledger →
          path_match "/data/report.docx" kv.2 || hash_match "md5-REPORT" kv.2 = false
    | _ => False
    end.
Proof.
  apply (check_existing_generation_first_match demo_env report demo_state
           "md5-REPORT" demo_ledger); [reflexivity|done|reflexivity].
Defined.

(** C3, as stated, fails: in the sample ledger [gen-1] matches [report.docx]
    by hash only and comes first, [gen-2] matches it by path; the code returns
    [gen-1], the path-first lookup of the specification returns [gen-2]. *)
Lemma check_existing_generation_not_path_first :
  resolve demo_env (p_str report) = "/data/report.docx" ∧
  (get_file_hash demo_env (p_str report) demo_state).1 = Ret (Some "md5-REPORT") ∧
  (load_records demo_state).1 = Ret demo_ledger ∧
  (check_existing_generation demo_env report demo_state).1
    = Ret (true, dict_get "gen-1" demo_ledger) ∧
  findByFileOrHash "/data/report.docx" "md5-REPORT" demo_ledger
    = dict_get "gen-2" demo_ledger ∧
  dict_get "gen-1" demo_ledger ≠ dict_get "gen-2" demo_ledger.
Proof. split_and!; try (vm_compute; reflexivity). vm_compute. discriminate. Qed.

(** C4, as amended: when the content hash cannot be computed,
    [check_existing_generation] answers [(False, None)] without reading the
    ledger, so no record is found, not even by path; [process_file] does not
    abort but goes on exactly as a forced run does. *)
Theorem hash_failure_skips_dedup env file_path st :
  (get_file_hash env (p_str file_path) st).1 = Ret None →
  check_existing_generation env file_path st = (Ret (false, None), st) ∧
  process_file env file_path false st = process_file env file_path true st.
Proof.
  intros Hhash.
  assert (check_existing_generation env file_path st = (Ret (false, None), st)) as Hcheck.
  { pose proof (get_file_hash_state env (p_str file_path) st) as Hst.
    unfold check_existing_generation. mrun.
    destruct (get_file_hash env (p_str file_path) st) as [r st1].
    simpl in *. by subst. }
  split; [done|].
  unfold process_file. mrun. unfold path_exists.
  destruct (bool_decide (is_Some (files st !! p_str file_path))); simpl; [|done].
  unfold reuse_existing. mrun. by rewrite Hcheck.
Qed.

Lemma hash_failure_skips_dedup_witness :
  check_existing_generation demo_env locked demo_state = (Ret (false, None), demo_state) ∧
  process_file demo_env locked false demo_state = process_file demo_env locked true demo_state.
Proof. apply (hash_failure_skips_dedup demo_env locked demo_state). reflexivity. Defined.

(** C4, as stated, fails: [locked.docx] cannot be read, the ledger holds the
    record [gen-3] for its resolved path, and the lookup finds nothing. *)
Lemma hash_failure_hides_path_match :
  (get_file_hash demo_env (p_str locked) demo_state).1 = Ret None ∧
  (load_records demo_state).1 = Ret demo_ledger ∧
  List.find (λ kv, path_match (resolve demo_env (p_str locked)) kv.2) demo_ledger
    = Some ("gen-3", default [] (dict_get "gen-3" demo_ledger)) ∧
  (check_existing_generation demo_env locked demo_state).1 = Ret (false, None).
Proof. split_and!; vm_compute; reflexivity. Qed.


Lemma load_saved (records : list (string * list (string * jval))) st :
  NoDup records.*1 →
  (load_records (set_ledger_file (LedgerJson records) st)).1 = Ret records.
Proof. intros Hnd. unfold load_records. simpl. by rewrite dict_of_pairs_id. Qed.




(** ** The polling loop *)

Section polling.
Context (env : Env) (generation_id : jval) (max_wait_time check_interval start_time : Z).

Local Abbreviation url := (status_url generation_id).
Local Abbreviation loop fuel :=
  (wait_loop env fuel generation_id max_wait_time check_interval start_time).

(** One turn of the loop, spelled out. *)
Lemma wait_loop_unfold fuel st :
  loop (S fuel) st =
  if bool_decide (clock st - start_time < max_wait_time)%Z then
    if str_truthy (GAMMA_API_KEY env) then
      match http_get env (nreq st) url with
      | HttpError => (Raise RequestException, polled env url st)
      | HttpOk response =>
          match status_of response with
          | Ret (status, result) =>
              if bool_decide (status = JNull) then (Ret (false, None), polled env url st)
              else if bool_decide (status = JStr "completed")
                   then (Ret (true, result), polled env url st)
              else if bool_decide (status = JStr "failed")
                   then (Ret (false, result), polled env url st)
              else if bool_decide (check_interval < 0)%Z
                   then (Raise ValueError, polled env url st)
              else loop fuel (advance check_interval
                                (log (EvSleep check_interval) (polled env url st)))
          | Raise e => (Raise e, polled env url st)
          | Diverges => (Diverges, polled env url st)
          end
      end
    else (Raise ValueError, st)
  else (Ret (false, None), st).
Proof.
  cbn [wait_loop]. mrun. unfold time_time. cbn [fst snd].
  destruct (bool_decide (clock st - start_time < max_wait_time)%Z); [|done].
  unfold check_generation_status. mrun.
  destruct (str_truthy (GAMMA_API_KEY env)); [|done]. cbn [negb].
  unfold requests_get, polled.
  destruct (http_get env (nreq st) (status_url generation_id)) as [|response]; [done|].
  destruct (status_of response) as [[status result]| |]; [|done..].
  destruct (bool_decide (status = JNull)); [done|].
  destruct (bool_decide (status = JStr "completed")); [done|].
  destruct (bool_decide (status = JStr "failed")); [done|].
  unfold time_sleep.
  destruct (bool_decide (status ∈ [JStr "pending"; JStr "processing"]));
    destruct (bool_decide (check_interval < 0)%Z); done.
Qed.


(** Requests are counted one by one. *)
Lemma wait_loop_nreq fuel st : nreq st ≤ nreq (loop fuel st).2.
Proof.
  revert st. induction fuel as [|fuel IH]; intros st; [done|].
  rewrite wait_loop_unfold. repeat case_match; simpl; try lia.
  etrans; [|apply IH]. simpl. lia.
Qed.




End polling.

Section rounds.
Context (env : Env) (generation_id : jval) (max_wait_time check_interval start_time : Z).
Context (Hkey : str_truthy (GAMMA_API_KEY env) = true).

Local Abbreviation url := (status_url generation_id).
Local Abbreviation loop fuel :=
  (wait_loop env fuel generation_id max_wait_time check_interval start_time).





End rounds.

Lemma wait_for_completion_eq env generation_id max_wait_time check_interval st :
  wait_for_completion env generation_id max_wait_time check_interval st =
  wait_loop env (Z.to_nat max_wait_time + 1) generation_id max_wait_time check_interval
            (clock st) st.
Proof. done. Qed.

Lemma events_of_app {A} (m : M A) st evs :
  trace (m st).2 = trace st ++ evs → events_of m st = evs.
Proof. intros Htrace. unfold events_of. rewrite Htrace. apply drop_app_length. Qed.









(** ** Export through the API *)

Lemma is_valid_spec export_format response :
  is_valid export_format response = true ↔
  advertises export_format response ∨ has_signature export_format response.
Proof.
  unfold is_valid, advertises, has_signature.
  destruct (decide (export_format = "pdf")) as [->|Hpdf].
  - rewrite bool_decide_true by done. rewrite orb_true_iff, bool_decide_eq_true.
    split.
    + intros [?|?]; [left; left|right; left]; done.
    + intros [[[_ ?]|[[=] _]]|[[_ ?]|[[=] _]]]; [by left|by right].
  - rewrite bool_decide_false by done.
    destruct (decide (export_format = "pptx")) as [->|Hpptx].
    + rewrite bool_decide_true by done.
      rewrite !orb_true_iff, bool_decide_eq_true. split.
      * intros [[?|?]|?]; [left; right; split; [done|by left]
                          |left; right; split; [done|by right]
                          |right; right; done].
      * intros [[[[=] _]|[_ [?|?]]]|[[[=] _]|[_ ?]]];
          [left; by left|left; by right|by right].
    + rewrite bool_decide_false by done. split; [done|].
      intros [[[? _]|[? _]]|[[? _]|[? _]]]; done.
Qed.

(** The state after the body of a response is written to [output_path]. *)
Lemma try_export_url_cases env export_url output_path export_format st :
  try_export_url env export_url output_path export_format st =
  match http_get env (nreq st) export_url with
  | HttpOk response =>
      if bool_decide (status_code response = 200%Z)
         && is_valid export_format response && writable env output_path
      then (Ret (Some (true, Some "api")),
            set_files (<[output_path := content response]> (files st))
              (log (EvWrite output_path (content response)) (polled env export_url st)))
      else (Ret None, polled env export_url st)
  | HttpError => (Ret None, polled env export_url st)
  end.
Proof.
  unfold try_export_url, requests_get, write_file, polled.
  destruct (http_get env (nreq st) export_url) as [|response]; [done|].
  destruct (bool_decide (status_code response = 200%Z)); simpl.
  - destruct (is_valid export_format response); simpl; [|done].
    by destruct (writable env output_path).
  - by destruct (bool_decide (status_code response = 202%Z)).
Qed.

(** A candidate whose answer is not a writable, valid 200 is passed, and the
    loop goes on with the candidates that follow. *)
Lemma for_export_urls_next env export_url rest output_path export_format st response :
  http_get env (nreq st) export_url = HttpOk response →
  bool_decide (status_code response = 200%Z) && is_valid export_format response = false →
  for_export_urls env (export_url :: rest) output_path export_format st =
  for_export_urls env rest output_path export_format (polled env export_url st).
Proof.
  intros Hget Hno. cbn [for_export_urls]. mrun.
  by rewrite try_export_url_cases, Hget, Hno.
Qed.

Lemma gets_cons_get url evs : gets (EvGet url :: evs) = url :: gets evs.
Proof. done. Qed.

Lemma writes_cons_get url evs : writes (EvGet url :: evs) = writes evs.
Proof. done. Qed.

Lemma for_export_urls_spec env output_path export_format urls : ∀ st,
  let r := for_export_urls env urls output_path export_format st in
  ∃ n evs,
    trace r.2 = trace st ++ evs ∧ n ≤ length urls ∧ nreq r.2 = nreq st + n ∧
    gets evs = take n urls ∧
    (r.1 = Ret (true, Some "api") ∧
       (∃ export_url response,
          0 < n ∧ urls !! (n - 1) = Some export_url ∧
          http_get env (nreq st + (n - 1)) export_url = HttpOk response ∧
          status_code response = 200%Z ∧
          is_valid export_format response = true ∧
          writes evs = [(output_path, content response)])
     ∨ r.1 = Ret (false, None) ∧ n = length urls ∧ writes evs = []).
Proof.
  induction urls as [|export_url rest IH]; intros st r.
  { exists 0, []. unfold r. simpl. rewrite app_nil_r. split_and!; try done. by right. }
  unfold r. cbn [for_export_urls]. mrun. rewrite try_export_url_cases.
  assert (∀ st1 : State,
            st1 = polled env export_url st →
            let r1 := for_export_urls env rest output_path export_format st1 in
            ∃ n evs,
              trace r1.2 = trace st ++ evs ∧ n ≤ length (export_url :: rest) ∧
              nreq r1.2 = nreq st + n ∧ gets evs = take n (export_url :: rest) ∧
              (r1.1 = Ret (true, Some "api") ∧
                 (∃ export_url0 response,
                    0 < n ∧ (export_url :: rest) !! (n - 1) = Some export_url0 ∧
                    http_get env (nreq st + (n - 1)) export_url0 = HttpOk response ∧
                    status_code response = 200%Z ∧
                    is_valid export_format response = true ∧
                    writes evs = [(output_path, content response)])
               ∨ r1.1 = Ret (false, None) ∧ n = length (export_url :: rest) ∧
                 writes evs = [])) as Hnext.
  { intros st1 -> r1.
    destruct (IH (polled env export_url st)) as (n & evs & Htrace & Hn & Hnreq & Hgets & Hres).
    exists (S n), (EvGet export_url :: evs). fold r1 in Htrace, Hnreq, Hres.
    split_and!.
    - rewrite Htrace. simpl. by rewrite <- app_assoc.
    - simpl. lia.
    - rewrite Hnreq. simpl. lia.
    - by rewrite gets_cons_get, Hgets.
    - rewrite writes_cons_get. destruct Hres as [[Hok (u & response & Hpos & Hu & Hget & H200 & Hvalid & Hw)]|
                        (Hfail & -> & Hw)].
      + left. split; [done|]. exists u, response. split_and!; try done.
        * lia.
        * destruct n as [|n]; [lia|]. simpl in *. by rewrite Nat.sub_0_r in *.
        * rewrite <- Hget. f_equal. simpl. lia.
      + right. done. }
  destruct (http_get env (nreq st) export_url) as [|response] eqn:Hget;
    [by apply Hnext|].
  destruct (bool_decide (status_code response = 200%Z)) eqn:H200; [|by apply Hnext].
  destruct (is_valid export_format response) eqn:Hvalid; [|by apply Hnext].
  destruct (writable env output_path); [|by apply Hnext].
  exists 1, [EvGet export_url; EvWrite output_path (content response)].
  simpl. split_and!; try done.
  - by rewrite <- app_assoc.
  - lia.
  - lia.
  - left. split; [done|]. exists export_url, response.
    rewrite Nat.add_0_r. apply bool_decide_eq_true in H200. split_and!; try done. lia.
Qed.

Lemma download_via_api_spec env gamma_url generation_id output_path export_format st :
  let run := download_via_api env (JStr gamma_url) generation_id output_path export_format in
  let urls := export_urls (search_doc_id gamma_url) generation_id export_format in
  ∃ n,
    n ≤ length urls ∧ gets (events_of run st) = take n urls ∧
    nreq (run st).2 = nreq st + n ∧
    ((run st).1 = Ret (true, Some "api") ∧
       (∃ export_url response,
          0 < n ∧ urls !! (n - 1) = Some export_url ∧
          http_get env (nreq st + (n - 1)) export_url = HttpOk response ∧
          status_code response = 200%Z ∧
          is_valid export_format response = true ∧
          writes (events_of run st) = [(output_path, content response)])
     ∨ (run st).1 = Ret (false, None) ∧ n = length urls ∧
       writes (events_of run st) = []).
Proof.
  intros run urls.
  destruct (for_export_urls_spec env output_path export_format urls st)
    as (n & evs & Htrace & Hn & Hnreq & Hgets & Hres).
  exists n. unfold run, download_via_api. fold urls.
  by rewrite (events_of_app _ st evs Htrace).
Qed.

(** C7: in [download_via_api] a 200 answer that neither advertises the
    content type of the format nor begins with its signature is passed:
    nothing is written and the next candidate is tried; a PDF request
    answered with [Content-Type: text/html] and a body without the PDF
    signature is such an answer; and whatever is written to the output path
    is the body of a 200 answer that advertises the content type of the
    format or begins with its signature. *)
Theorem format_mismatch_is_rejected env output_path export_format :
  (∀ export_url rest st response,
     http_get env (nreq st) export_url = HttpOk response →
     status_code response = 200%Z →
     ¬ advertises export_format response →
     ¬ has_signature export_format response →
     for_export_urls env (export_url :: rest) output_path export_format st =
     for_export_urls env rest output_path export_format (polled env export_url st) ∧
     files (polled env export_url st) = files st ∧
     trace (polled env export_url st) = trace st ++ [EvGet export_url]) ∧
  (∀ response,
     content_type response = Some "text/html" →
     bytes_take 4 (content response) ≠ "%PDF" →
     ¬ advertises "pdf" response ∧ ¬ has_signature "pdf" response) ∧
  (∀ gamma_url generation_id st path data,
     (path, data) ∈ writes (events_of (download_via_api env gamma_url generation_id
                                         output_path export_format) st) →
     path = output_path ∧
     ∃ k export_url response,
       http_get env k export_url = HttpOk response ∧
       status_code response = 200%Z ∧
       (advertises export_format response ∨ has_signature export_format response) ∧
       data = content response).
Proof.
  split_and!.
  - intros export_url rest st response Hget H200 Hadv Hsig. split; [|done].
    apply (for_export_urls_next _ _ _ _ _ _ response); [done|].
    apply andb_false_iff. right.
    destruct (is_valid export_format response) eqn:Hvalid; [|done].
    apply is_valid_spec in Hvalid as [?|?]; done.
  - intros response Htype Hbody. unfold advertises, has_signature.
    rewrite Htype. split.
    + intros [[_ Hpdf]|[[=] _]]. vm_compute in Hpdf. done.
    + intros [[_ Hpdf]|[[=] _]]. done.
  - intros gamma_url generation_id st path data Hin.
    destruct gamma_url as [| | |gamma_url];
      try (unfold events_of in Hin; simpl in Hin; rewrite drop_all in Hin;
           by apply elem_of_nil in Hin).
    destruct (download_via_api_spec env gamma_url generation_id output_path
                export_format st) as (n & _ & _ & _ & Hres).
    destruct Hres as [[_ (u & response & _ & _ & Hget & H200 & Hvalid & Hw)]|(_ & _ & Hw)].
    + rewrite Hw in Hin. apply list_elem_of_singleton in Hin as [= -> ->].
      split; [done|]. exists (nreq st + (n - 1)), u, response.
      split_and!; try done. by apply is_valid_spec.
    + rewrite Hw in Hin. by apply elem_of_nil in Hin.
Qed.

Lemma format_mismatch_is_rejected_witness :
  let out := "output/report_gamma_presentation.pdf" in
  let page := response 200 (Some "text/html") "<!DOCTYPE html><html></html>" None in
  let u1 := "https://public-api.gamma.app/v1.0/docs/abc/export/pdf" in
  let rest := ["https://public-api.gamma.app/v1.0/generations/g1/export/pdf";
               "https://gamma.app/api/export/pdf/abc"] in
  (for_export_urls html_env (u1 :: rest) out "pdf" polling_state =
   for_export_urls html_env rest out "pdf" (polled html_env u1 polling_state) ∧
   files (polled html_env u1 polling_state) = files polling_state ∧
   trace (polled html_env u1 polling_state) = trace polling_state ++ [EvGet u1]) ∧
  ∃ k export_url response,
    http_get html_env k export_url = HttpOk response ∧
    status_code response = 200%Z ∧
    (advertises "pdf" response ∨ has_signature "pdf" response) ∧
    "%PDF-1.7 slides" = content response.
Proof.
  intros out page u1 rest.
  destruct (format_mismatch_is_rejected html_env out "pdf") as (Hnext & Hpage & Hwrite).
  destruct (Hpage page) as [Hadv Hsig]; [reflexivity|vm_compute; discriminate|].
  split.
  - apply (Hnext u1 rest polling_state page); [reflexivity|reflexivity|done|done].
  - apply (Hwrite (JStr "https://gamma.app/docs/abc") (JStr "g1") polling_state
             out "%PDF-1.7 slides").
    vm_compute. apply list_elem_of_singleton. reflexivity.
Defined.

(** C8: in [download_via_api] a candidate answered with 202 is passed:
    nothing is written, and the loop goes on with the candidates that follow,
    so the candidate is not asked again; the URLs requested by a call are the
    first candidates, in their order, each once; and a call that succeeds has
    stopped on a 200 answer, whose body is what it wrote. *)
Theorem accepted_is_not_success env output_path export_format :
  (∀ export_url rest st response,
     http_get env (nreq st) export_url = HttpOk response →
     status_code response = 202%Z →
     for_export_urls env (export_url :: rest) output_path export_format st =
     for_export_urls env rest output_path export_format (polled env export_url st) ∧
     files (polled env export_url st) = files st ∧
     trace (polled env export_url st) = trace st ++ [EvGet export_url]) ∧
  (∀ gamma_url generation_id st,
     let run :=
       download_via_api env (JStr gamma_url) generation_id output_path export_format in
     let urls := export_urls (search_doc_id gamma_url) generation_id export_format in
     ∃ n,
       n ≤ length urls ∧ gets (events_of run st) = take n urls ∧
       nreq (run st).2 = nreq st + n ∧
       ((run st).1 = Ret (true, Some "api") ∧
          (∃ export_url response,
             0 < n ∧ urls !! (n - 1) = Some export_url ∧
             http_get env (nreq st + (n - 1)) export_url = HttpOk response ∧
             status_code response = 200%Z ∧
             is_valid export_format response = true ∧
             writes (events_of run st) = [(output_path, content response)])
        ∨ (run st).1 = Ret (false, None) ∧ n = length urls ∧
          writes (events_of run st) = [])).
Proof.
  split.
  - intros export_url rest st response Hget H202. split; [|done].
    apply (for_export_urls_next _ _ _ _ _ _ response); [done|].
    apply andb_false_iff. left. apply bool_decide_eq_false. lia.
  - intros gamma_url generation_id st. apply download_via_api_spec.
Qed.

Lemma accepted_is_not_success_witness :
  let out := "output/report_gamma_presentation.pdf" in
  let u1 := "https://public-api.gamma.app/v1.0/docs/abc/export/pdf" in
  let rest := ["https://public-api.gamma.app/v1.0/generations/g1/export/pdf";
               "https://gamma.app/api/export/pdf/abc"] in
  for_export_urls demo_env (u1 :: rest) out "pdf" polling_state =
  for_export_urls demo_env rest out "pdf" (polled demo_env u1 polling_state) ∧
  files (polled demo_env u1 polling_state) = files polling_state ∧
  trace (polled demo_env u1 polling_state) = trace polling_state ++ [EvGet u1].
Proof.
  intros out u1 rest.
  apply (proj1 (accepted_is_not_success demo_env out "pdf") u1 rest polling_state
           (response 202 None "" None)); reflexivity.
Defined.

(** ** Traces of the orchestrator *)

Lemma not_submit_posts body e : not_submit e → posts body e.
Proof. by destruct e. Qed.

Create HintDb emits discriminated.

Section emits_rules.
Context {A B : Type} (P : event → Prop).

Lemma emits_silent (m : M A) : (∀ st, trace (m st).2 = trace st) → emits P m.
Proof. intros Hm st. exists []. by rewrite app_nil_r, Hm. Qed.

Lemma emits_one (m : M A) e : (∀ st, trace (m st).2 = trace st ++ [e]) → P e → emits P m.
Proof. intros Hm He st. exists [e]. split; [done|]. by constructor. Qed.

Lemma emits_ret (a : A) : emits P (mret a).
Proof. by apply emits_silent. Qed.

Lemma emits_raise e : emits P (raise e : M A).
Proof. by apply emits_silent. Qed.

Lemma emits_pure (r : result A) : emits P (pure r).
Proof. by apply emits_silent. Qed.

Lemma emits_bind (m : M A) (f : A → M B) :
  emits P m → (∀ a, emits P (f a)) → emits P (m ≫= f).
Proof.
  intros Hm Hf st. destruct (Hm st) as (evs & Hevs & HP).
  unfold mbind, M_bind, bind. destruct (m st) as [[a| |] st1]; simpl in *.
  - destruct (Hf a st1) as (evs' & Hevs' & HP').
    exists (evs ++ evs'). rewrite Hevs', Hevs, <- app_assoc. split; [done|].
    by apply Forall_app.
  - by exists evs.
  - by exists evs.
Qed.

Lemma emits_mono (Q : event → Prop) (m : M A) :
  (∀ e, Q e → P e) → emits Q m → emits P m.
Proof.
  intros HQP Hm st. destruct (Hm st) as (evs & Hevs & HQ).
  exists evs. split; [done|]. eapply Forall_impl; eauto.
Qed.

End emits_rules.

Lemma emits_events_of {A} P (m : M A) st : emits P m → Forall P (events_of m st).
Proof.
  intros Hm. destruct (Hm st) as (evs & Hevs & HP).
  by rewrite (events_of_app m st evs).
Qed.

Ltac emits_go :=
  repeat first
    [ apply emits_ret | apply emits_raise | apply emits_pure
    | apply emits_bind; [|intros ?]
    | match goal with
      | |- emits _ (if ?b then _ else _) => destruct b
      | |- emits _ (match ?x with _ => _ end) => destruct x
      end
    | solve [eauto with emits] ].

Section quiet.
Context (env : Env) (P : event → Prop).

Lemma emits_time_time : emits P time_time.
Proof. by apply emits_silent. Qed.

Lemma emits_path_exists p : emits P (path_exists p).
Proof. by apply emits_silent. Qed.

Lemma emits_datetime_now : emits P (datetime_now_isoformat env).
Proof. by apply emits_silent. Qed.

Lemma emits_load_records : emits P load_records.
Proof. apply emits_silent. intros st. unfold load_records. by destruct (ledger_file st). Qed.

Lemma emits_save_records records : emits P (save_records env records).
Proof.
  apply emits_silent. intros st. unfold save_records.
  by destruct (writable env RECORDS_FILE).
Qed.

Lemma emits_get_file_hash p : emits P (get_file_hash env p).
Proof. apply emits_silent. intros st. by rewrite get_file_hash_state. Qed.

Lemma emits_response_json r : emits P (response_json r).
Proof. unfold response_json. destruct (json r); [apply emits_ret|apply emits_raise]. Qed.

Lemma emits_extract_text_from_docx p : emits P (extract_text_from_docx env p).
Proof. apply emits_silent. intros st. unfold extract_text_from_docx. by repeat case_match. Qed.

Lemma emits_extract_text_from_pdf p : emits P (extract_text_from_pdf env p).
Proof. apply emits_silent. intros st. unfold extract_text_from_pdf. by repeat case_match. Qed.

Lemma emits_time_sleep secs : P (EvSleep secs) → emits P (time_sleep secs).
Proof.
  intros HP st. unfold time_sleep. case_bool_decide.
  - exists []. by rewrite app_nil_r.
  - exists [EvSleep secs]. split; [done|]. by constructor.
Qed.

Lemma emits_requests_get url : P (EvGet url) → emits P (requests_get env url).
Proof.
  intros HP. apply (emits_one P _ (EvGet url)); [|done].
  intros st. unfold requests_get. by destruct (http_get env (nreq st) url).
Qed.

Lemma emits_requests_post url body :
  P (EvPost url body) → emits P (requests_post env url body).
Proof.
  intros HP. apply (emits_one P _ (EvPost url body)); [|done].
  intros st. unfold requests_post. by destruct (http_post env (nreq st) url body).
Qed.

End quiet.

Global Hint Resolve emits_time_time emits_path_exists emits_datetime_now
  emits_load_records emits_save_records emits_get_file_hash emits_response_json
  emits_extract_text_from_docx emits_extract_text_from_pdf : emits.

Section quiet_program.
Context (env : Env) (P : event → Prop).
Context (Hget : ∀ url, P (EvGet url)) (Hsleep : ∀ secs, P (EvSleep secs)).
Context (Hwrite : ∀ path data, P (EvWrite path data)).
Context (Hbrowser : ∀ url fmt headless, P (EvBrowser url fmt headless)).

Lemma emits_check_existing_generation p : emits P (check_existing_generation env p).
Proof. unfold check_existing_generation. emits_go. Qed.

Lemma emits_add_generation_record p generation_id gamma_url status :
  emits P (add_generation_record env p generation_id gamma_url status).
Proof. unfold add_generation_record. emits_go. Qed.

Lemma emits_update_generation_record generation_id kwargs :
  emits P (update_generation_record env generation_id kwargs).
Proof. unfold update_generation_record. emits_go. Qed.

Lemma emits_check_generation_status generation_id :
  emits P (check_generation_status env generation_id).
Proof.
  unfold check_generation_status. emits_go. by apply emits_requests_get.
Qed.

Lemma emits_wait_loop fuel generation_id max_wait_time check_interval start_time :
  emits P (wait_loop env fuel generation_id max_wait_time check_interval start_time).
Proof.
  induction fuel as [|fuel IH]; [by apply emits_silent|].
  cbn [wait_loop].
  apply emits_bind; [apply emits_time_time|intros now].
  destruct (bool_decide _); [|apply emits_ret].
  apply emits_bind; [apply emits_check_generation_status|intros [status result]].
  repeat (destruct (bool_decide _); [apply emits_ret|]).
  destruct (bool_decide _);
    (apply emits_bind; [by apply emits_time_sleep|intros _; apply IH]).
Qed.

Lemma emits_wait_for_completion generation_id max_wait_time check_interval :
  emits P (wait_for_completion env generation_id max_wait_time check_interval).
Proof.
  unfold wait_for_completion.
  apply emits_bind; [apply emits_time_time|intros start_time; apply emits_wait_loop].
Qed.

Lemma emits_for_export_urls urls output_path export_format :
  emits P (for_export_urls env urls output_path export_format).
Proof.
  intros st.
  destruct (for_export_urls_spec env output_path export_format urls st)
    as (n & evs & Htrace & _).
  exists evs. split; [done|]. apply Forall_forall. intros e He.
  pose proof Htrace as Htrace'. clear Htrace'.
  revert st evs Htrace e He.
  induction urls as [|export_url rest IH]; intros st evs Htrace e He.
  - simpl in Htrace. apply (f_equal length) in Htrace.
    rewrite length_app in Htrace. destruct evs; [by apply elem_of_nil in He|].
    simpl in Htrace. lia.
  - cbn [for_export_urls] in Htrace. unfold mbind, M_bind, bind in Htrace.
    rewrite try_export_url_cases in Htrace.
    assert (∀ evs', trace (for_export_urls env rest output_path export_format
                             (polled env export_url st)).2
                    = trace st ++ evs' → e ∈ evs' → P e) as Hnext.
    { intros evs' Hevs' He'.
      destruct (for_export_urls_spec env output_path export_format rest
                  (polled env export_url st)) as (n' & evs1 & Htrace1 & _).
      rewrite Htrace1 in Hevs'. simpl in Hevs'. rewrite <- app_assoc in Hevs'.
      apply app_inv_head in Hevs'. subst evs'.
      apply elem_of_cons in He' as [->|He']; [apply Hget|].
      by apply (IH (polled env export_url st) evs1). }
    destruct (http_get env (nreq st) export_url) as [|response]; [by apply (Hnext evs)|].
    destruct (bool_decide (status_code response = 200%Z) &&
              is_valid export_format response && writable env output_path);
      [|by apply (Hnext evs)].
    simpl in Htrace. rewrite <- app_assoc in Htrace. apply app_inv_head in Htrace.
    subst evs. repeat (apply elem_of_cons in He as [->|He]); [done..|].
    by apply elem_of_nil in He.
Qed.

Lemma emits_download_via_api gamma_url generation_id output_path export_format :
  emits P (download_via_api env gamma_url generation_id output_path export_format).
Proof.
  unfold download_via_api. destruct gamma_url; try apply emits_raise.
  apply emits_for_export_urls.
Qed.

Lemma emits_download_via_browser gamma_url output_path export_format headless :
  emits P (download_via_browser env gamma_url output_path export_format headless).
Proof.
  unfold download_via_browser. destruct (SELENIUM_AVAILABLE env); [|apply emits_ret].
  intros st. exists [EvBrowser (py_str gamma_url) export_format headless].
  split; [|by constructor]. simpl. by destruct (browser_export _ _ _ _ _).
Qed.

Lemma emits_download_pdf gamma_url generation_id output_path use_browser :
  emits P (download_pdf env gamma_url generation_id output_path use_browser).
Proof.
  unfold download_pdf.
  apply emits_bind; [apply emits_download_via_api|intros [success method]].
  destruct success; [apply emits_ret|].
  destruct (use_browser || SELENIUM_AVAILABLE env); [|apply emits_ret].
  destruct (SELENIUM_AVAILABLE env); [|apply emits_ret].
  apply emits_bind; [apply emits_download_via_browser|intros [success' method']].
  destruct success'; apply emits_ret.
Qed.

Lemma emits_reuse_existing p : emits P (reuse_existing env p).
Proof.
  unfold reuse_existing.
  apply emits_bind; [apply emits_check_existing_generation|intros [exists_ record]].
  destruct exists_; [|apply emits_ret].
  destruct record as [record|]; [|apply emits_raise].
  destruct (truthy _); [|apply emits_ret].
  apply emits_bind; [apply emits_path_exists|intros present].
  apply emits_bind; [|intros _; apply emits_ret].
  destruct present; simpl; [apply emits_ret|].
  apply emits_bind; [apply emits_download_pdf|intros _; apply emits_ret].
Qed.

Lemma emits_extract p : emits P (extract env p).
Proof.
  unfold extract. apply emits_bind.
  - repeat (destruct (bool_decide _)); emits_go.
  - intros [[[text_content|] image_urls]|]; try apply emits_ret.
    destruct (blank text_content); apply emits_ret.
Qed.

End quiet_program.

(** ** Submissions *)

Section submissions.
Context (env : Env).

Lemma emits_generate_presentation input_text theme_id num_cards instr has_image_urls :
  emits (posts (build_payload input_text theme_id num_cards instr has_image_urls))
    (generate_presentation env input_text theme_id num_cards instr has_image_urls).
Proof.
  unfold generate_presentation.
  destruct (negb _); [apply emits_raise|].
  apply emits_bind; [by apply emits_requests_post|intros response].
  destruct (negb _); [apply emits_ret|].
  apply emits_bind; [apply emits_response_json|intros result].
  destruct (negb _); apply emits_ret.
Qed.

Lemma emits_finish_generation P input_path generation_id :
  (∀ url, P (EvGet url)) → (∀ secs, P (EvSleep secs)) →
  (∀ path data, P (EvWrite path data)) →
  (∀ url fmt headless, P (EvBrowser url fmt headless)) →
  emits P (finish_generation env input_path generation_id).
Proof.
  intros Hget Hsleep Hwrite Hbrowser. unfold finish_generation.
  destruct (negb _); [apply emits_ret|].
  apply emits_bind; [by apply emits_wait_for_completion|intros [success result]].
  destruct (negb _); [apply emits_ret|].
  destruct result as [result|]; [|apply emits_raise].
  destruct (negb _); [apply emits_ret|].
  apply emits_bind; [apply emits_add_generation_record|intros _].
  apply emits_bind; [by apply emits_download_pdf|intros download_success].
  apply emits_bind; [|intros _; apply emits_ret].
  destruct download_success; apply emits_update_generation_record.
Qed.

Lemma emits_generate_and_export input_path text_content image_urls :
  emits (posts (payload_of env text_content image_urls))
    (generate_and_export env input_path text_content image_urls).
Proof.
  unfold generate_and_export.
  apply emits_bind; [apply emits_generate_presentation|intros generation_id].
  by apply emits_finish_generation.
Qed.

(** With a credential the submission is the first thing that happens. *)
Lemma generate_and_export_posts input_path text_content image_urls st :
  str_truthy (GAMMA_API_KEY env) = true →
  ∃ evs,
    events_of (generate_and_export env input_path text_content image_urls) st =
    EvPost (GAMMA_API_BASE_URL +:+ "/generations") (payload_of env text_content image_urls)
      :: evs.
Proof.
  intros Hkey.
  set (url := GAMMA_API_BASE_URL +:+ "/generations").
  set (body := payload_of env text_content image_urls).
  set (st1 := advance (Z.of_N (latency env (nreq st))) (next_req (log (EvPost url body) st))).
  assert (∀ r : result jval,
            ∃ evs, trace ((pure r ≫= finish_generation env input_path) st1).2
                   = trace st1 ++ evs) as Hrest.
  { intros r.
    assert (emits (λ _, True) (pure r ≫= finish_generation env input_path)) as Hem.
    { apply emits_bind; [apply emits_pure|intros g].
      by apply emits_finish_generation. }
    destruct (Hem st1) as (evs & Hevs & _).
    by exists evs. }
  assert (∃ r : result jval,
            generate_and_export env input_path text_content image_urls st =
            (pure r ≫= finish_generation env input_path) st1) as [r Hr].
  { unfold generate_and_export, generate_presentation. rewrite Hkey. cbn [negb].
    fold url. change (build_payload _ _ _ _ _) with body.
    unfold mbind, M_bind, bind, requests_post, pure. fold st1.
    destruct (http_post env (nreq st) url body) as [|response].
    - by exists (Raise RequestException).
    - destruct (negb _); [by exists (Ret JNull)|].
      unfold response_json. destruct (json response) as [result|]; cbn.
      + destruct (negb _); by eexists (Ret _).
      + by exists (Raise JSONDecodeError). }
  destruct (Hrest r) as (evs & Hevs). exists evs.
  apply events_of_app. rewrite Hr, Hevs. unfold st1. simpl. by rewrite <- app_assoc.
Qed.

End submissions.

(** ** The orchestrator *)

Section orchestrator.
Context (env : Env).

Lemma extract_state input_path st : (extract env input_path st).2 = st.
Proof.
  unfold extract, extract_text_from_docx, extract_text_from_pdf.
  unfold mbind, M_bind, bind, mret, M_ret, ret.
  repeat case_match; simplify_eq; done.
Qed.

(** When no record is reused nothing has happened. *)
Lemma reuse_existing_none input_path st :
  (reuse_existing env input_path st).1 = Ret None →
  (reuse_existing env input_path st).2 = st.
Proof.
  unfold reuse_existing. unfold mbind, M_bind, bind, mret, M_ret, ret, raise.
  pose proof (check_existing_generation_state env input_path st) as Hst.
  destruct (check_existing_generation env input_path st) as [[[exists_ record]| |] st1];
    simpl in Hst; subst st1; [|done..].
  destruct exists_; [|done]. destruct record as [record|]; [|done].
  destruct (truthy _); [|done].
  unfold path_exists. cbn. destruct (negb _); cbn; [|done].
  destruct (download_pdf _ _ _ _ _ _) as [[b| |] st1]; done.
Qed.

(** Lines 885-976: what [process_file] does once it has decided to
    generate. *)
Lemma process_file_unfold input_path force_regenerate st :
  process_file env input_path force_regenerate st =
  if bool_decide (is_Some (files st !! p_str input_path)) then
    match (if force_regenerate then (Ret None, st) else reuse_existing env input_path st) with
    | (Ret (Some b), st1) => (Ret b, st1)
    | (Ret None, st1) =>
        match extract env input_path st1 with
        | (Ret (Some (text_content, image_urls)), st2) =>
            generate_and_export env input_path text_content image_urls st2
        | (Ret None, st2) => (Ret false, st2)
        | (Raise e, st2) => (Raise e, st2)
        | (Diverges, st2) => (Diverges, st2)
        end
    | (Raise e, st1) => (Raise e, st1)
    | (Diverges, st1) => (Diverges, st1)
    end
  else (Ret false, st).
Proof.
  unfold process_file. unfold mbind, M_bind, bind, mret, M_ret, ret, path_exists. cbn.
  destruct (bool_decide _); cbn; [|done].
  destruct force_regenerate; cbn.
  - destruct (extract env input_path st) as [[[[t us]|]| |] st2]; done.
  - destruct (reuse_existing env input_path st) as [[[b|]| |] st1]; try done.
    destruct (extract env input_path st1) as [[[[t us]|]| |] st2]; done.
Qed.

(** Every submission of [process_file] carries the text and the links of the
    extraction, prepared by lines 911-937. *)
Lemma process_file_submissions input_path force_regenerate st url body :
  EvPost url body ∈ events_of (process_file env input_path force_regenerate) st →
  ∃ text_content image_urls,
    (extract env input_path st).1 = Ret (Some (text_content, image_urls)) ∧
    body = payload_of env text_content image_urls.
Proof.
  intros Hin.
  assert (∀ evs, Forall not_submit evs → EvPost url body ∉ evs) as Hquiet.
  { intros evs Hall Hpost. by apply (proj1 (Forall_forall _ _) Hall) in Hpost. }
  assert (EvPost url body ∉ events_of (λ st, (Ret false, st)) st) as Hnone.
  { unfold events_of. simpl. rewrite drop_all. apply not_elem_of_nil. }
  assert (EvPost url body ∈ events_of (λ st,
            match extract env input_path st with
            | (Ret (Some (text_content, image_urls)), st2) =>
                generate_and_export env input_path text_content image_urls st2
            | (Ret None, st2) => (Ret false, st2)
            | (Raise e, st2) => (Raise e, st2)
            | (Diverges, st2) => (Diverges, st2)
            end) st →
          ∃ text_content image_urls,
            (extract env input_path st).1 = Ret (Some (text_content, image_urls)) ∧
            body = payload_of env text_content image_urls) as Hgen.
  { unfold events_of. pose proof (extract_state input_path st) as Hst.
    destruct (extract env input_path st) as [[[[t us]|]| |] st2]; simpl in Hst; subst st2;
      try (intros Hpost; by apply Hnone in Hpost).
    intros Hpost. exists t, us. split; [done|].
    pose proof (emits_events_of _ _ st (emits_generate_and_export env input_path t us))
      as Hall.
    by apply (proj1 (Forall_forall _ _) Hall) in Hpost. }
  unfold events_of in Hin. rewrite process_file_unfold in Hin.
  destruct (bool_decide _); [|by apply Hnone in Hin].
  destruct force_regenerate; [by apply Hgen|].
  assert (emits not_submit (reuse_existing env input_path)) as Hreuse
    by (by apply emits_reuse_existing).
  apply (emits_events_of _ _ st) in Hreuse.
  pose proof (reuse_existing_none input_path st) as Hsame.
  unfold events_of in Hreuse.
  destruct (reuse_existing env input_path st) as [[[b|]| |] st1];
    simpl in Hreuse, Hsame; try (by apply Hquiet in Hreuse).
  rewrite Hsame in Hin by done. by apply Hgen.
Qed.

End orchestrator.

(** ** The text of a submission *)

Lemma truncate_text_take text_content :
  truncate_text text_content = take (Z.to_nat 400000) text_content.
Proof.
  unfold truncate_text. case_bool_decide as Hlong; [done|].
  rewrite take_ge; [done|]. lia.
Qed.

Lemma truncate_text_length text_content :
  (Z.of_nat (length (truncate_text text_content)) ≤ 400000)%Z.
Proof. rewrite truncate_text_take, length_take. lia. Qed.

Lemma truncate_text_short text_content :
  (Z.of_nat (length text_content) ≤ 400000)%Z → truncate_text text_content = text_content.
Proof. intros Hshort. unfold truncate_text. by rewrite bool_decide_false by lia. Qed.

Lemma image_section_lines image_urls :
  image_section image_urls =
  image_section_header ++ concat ((λ img_url, img_url ++ [10%N]) <$> take 20 image_urls).
Proof.
  unfold image_section. generalize image_section_header as section.
  induction (take 20 image_urls) as [|img_url rest IH]; intros section; simpl.
  - by rewrite app_nil_r.
  - rewrite IH. by rewrite <- !app_assoc.
Qed.

(** C10: the text of every submission of [process_file] is the extracted
    text, followed by the image section when there are links, cut to its
    first 400000 characters; it is never longer than 400000 characters. *)
Theorem submitted_text_is_truncated env input_path force_regenerate st url body :
  EvPost url body ∈ events_of (process_file env input_path force_regenerate) st →
  (Z.of_nat (length (inputText body)) ≤ 400000)%Z ∧
  ∃ text_content image_urls,
    (extract env input_path st).1 = Ret (Some (text_content, image_urls)) ∧
    inputText body =
      take (Z.to_nat 400000) (append_image_section text_content image_urls).
Proof.
  intros Hpost.
  apply process_file_submissions in Hpost as (text_content & image_urls & Hextract & ->).
  split.
  - apply truncate_text_length.
  - exists text_content, image_urls. split; [done|]. apply truncate_text_take.
Qed.

Lemma submitted_text_is_truncated_witness :
  let body :=
    payload_of demo_env (utext "Quarterly report http://x.org/a.png")
      [utext "http://x.org/a.png"] in
  (Z.of_nat (length (inputText body)) ≤ 400000)%Z ∧
  ∃ text_content image_urls,
    (extract demo_env report demo_state).1 = Ret (Some (text_content, image_urls)) ∧
    inputText body =
      take (Z.to_nat 400000) (append_image_section text_content image_urls).
Proof.
  intros body.
  apply (submitted_text_is_truncated demo_env report true demo_state
           "https://public-api.gamma.app/v1.0/generations" body).
  vm_compute. apply list_elem_of_here.
Defined.

(** C6, as amended: for every submission of [process_file], without image
    links the image source is [aiGenerated] and the text is the extracted
    text; with image links the source is [noImages] and the text is the
    extracted text followed by the image section, which lists the first 20
    links, one per line; in both cases the text is cut to its first 400000
    characters, so the links are all there when text and section together
    have at most 400000 characters. *)
Theorem submission_image_mode env input_path force_regenerate st url body :
  EvPost url body ∈ events_of (process_file env input_path force_regenerate) st →
  ∃ text_content image_urls,
    (extract env input_path st).1 = Ret (Some (text_content, image_urls)) ∧
    (image_urls = [] →
       source (imageOptions body) = "aiGenerated" ∧
       inputText body = take (Z.to_nat 400000) text_content) ∧
    (image_urls ≠ [] →
       let section :=
         image_section_header
         ++ concat ((λ img_url, img_url ++ [10%N]) <$> take 20 image_urls) in
       source (imageOptions body) = "noImages" ∧
       inputText body = take (Z.to_nat 400000) (text_content ++ section) ∧
       ((Z.of_nat (length (text_content ++ section)) ≤ 400000)%Z →
          inputText body = text_content ++ section)).
Proof.
  intros Hpost.
  apply process_file_submissions in Hpost as (text_content & image_urls & Hextract & ->).
  exists text_content, image_urls. split; [done|]. split.
  - intros ->. split; [done|]. apply truncate_text_take.
  - intros Hlinks section.
    assert (inputText (payload_of env text_content image_urls)
            = truncate_text (text_content ++ section)) as Htext.
    { unfold section. rewrite <- image_section_lines.
      destruct image_urls; [done|]. done. }
    rewrite Htext. split_and!.
    + destruct image_urls; [done|]. done.
    + apply truncate_text_take.
    + apply truncate_text_short.
Qed.

Lemma submission_image_mode_witness :
  let body :=
    payload_of demo_env (utext "Quarterly report http://x.org/a.png")
      [utext "http://x.org/a.png"] in
  ∃ text_content image_urls,
    (extract demo_env report demo_state).1 = Ret (Some (text_content, image_urls)) ∧
    (image_urls = [] →
       source (imageOptions body) = "aiGenerated" ∧
       inputText body = take (Z.to_nat 400000) text_content) ∧
    (image_urls ≠ [] →
       let section :=
         image_section_header
         ++ concat ((λ img_url, img_url ++ [10%N]) <$> take 20 image_urls) in
       source (imageOptions body) = "noImages" ∧
       inputText body = take (Z.to_nat 400000) (text_content ++ section) ∧
       ((Z.of_nat (length (text_content ++ section)) ≤ 400000)%Z →
          inputText body = text_content ++ section)).
Proof.
  intros body.
  apply (submission_image_mode demo_env report true demo_state
           "https://public-api.gamma.app/v1.0/generations" body).
  vm_compute. apply list_elem_of_here.
Defined.

(** ** A document longer than the limit *)

(** No link starts at a character other than [h]. *)
Lemma match_url_not_h c t : c ≠ 104%N → match_url (c :: t) = None.
Proof.
  intros Hc. unfold match_url.
  change (utext "https://") with (104%N :: utext "ttps://").
  change (utext "http://") with (104%N :: utext "ttp://").
  cbn [text_prefix]. by rewrite !bool_decide_false by done.
Qed.

Lemma findall_from_no_h big rest :
  Forall (λ c, c ≠ 104%N) big → findall_from 0 (big ++ rest) = findall_from 0 rest.
Proof.
  induction 1 as [|c big Hc Hbig IH]; [done|].
  cbn [app findall_from]. by rewrite match_url_not_h.
Qed.

Lemma text_contains_no_h sub big :
  Forall (λ c, c ≠ 104%N) big → text_contains (104%N :: sub) big = false.
Proof.
  induction 1 as [|c big Hc Hbig IH]; [done|].
  cbn [text_contains text_prefix]. rewrite IH.
  rewrite bool_decide_false; [done|]. by intros <-.
Qed.

Lemma blank_app t1 t2 : blank t1 = false → blank (t1 ++ t2) = false.
Proof.
  unfold blank. intros Ht1. rewrite forallb_app. by rewrite Ht1.
Qed.

Section long_document.
Context (env : Env) (input_path : PyPath) (st : State) (data : string).
Context (big link : list N).
Context (Hfile : files st !! p_str input_path = Some data).
Context (Hreadable : readable env (p_str input_path) = true).
Context (Hsuffix : lower (p_suffix input_path) = ".docx").
Context (Hdoc : Document env data = Some {| paragraphs := [big; link]; tables := [] |}).
Context (Hbig : blank big = false) (Hlink : blank link = false).

Lemma extract_two_paragraphs :
  extract env input_path st =
  (Ret (Some (big ++ 10%N :: link,
              docx_image_urls (findall_urls (big ++ 10%N :: link)))), st).
Proof.
  unfold extract. rewrite Hsuffix. rewrite bool_decide_true by done.
  unfold mbind, M_bind, bind, mret, M_ret, ret, extract_text_from_docx.
  rewrite Hfile, Hreadable, Hdoc. cbn [paragraphs tables concat app List.filter].
  rewrite Hbig, Hlink. cbn [negb fst snd].
  change (join_lines ([big; link] ++ [])) with (big ++ 10%N :: link).
  by rewrite blank_app.
Qed.

(** A forced run submits the prepared text first of all. *)
Lemma process_file_forced_posts text_content image_urls :
  extract env input_path st = (Ret (Some (text_content, image_urls)), st) →
  str_truthy (GAMMA_API_KEY env) = true →
  ∃ evs,
    events_of (process_file env input_path true) st =
    EvPost (GAMMA_API_BASE_URL +:+ "/generations") (payload_of env text_content image_urls)
      :: evs.
Proof.
  intros Hextract Hkey.
  destruct (generate_and_export_posts env input_path text_content image_urls st Hkey)
    as (evs & Hevs).
  exists evs. rewrite <- Hevs. unfold events_of.
  rewrite process_file_unfold, Hfile, Hextract.
  rewrite bool_decide_true; [done|by eexists].
Qed.

(** When the first paragraph fills the limit and holds no [h], the link of
    the second paragraph is recognised and then cut off with the rest. *)
Lemma long_document_submission :
  Forall (λ c, c ≠ 104%N) big →
  length big = Z.to_nat 400000 →
  docx_image_urls (findall_urls (10%N :: link)) = [link] →
  str_truthy (GAMMA_API_KEY env) = true →
  let body := payload_of env (big ++ 10%N :: link) [link] in
  extract env input_path st = (Ret (Some (big ++ 10%N :: link, [link])), st) ∧
  (∃ evs, events_of (process_file env input_path true) st =
          EvPost (GAMMA_API_BASE_URL +:+ "/generations") body :: evs) ∧
  source (imageOptions body) = "noImages" ∧
  inputText body = big.
Proof.
  intros Hno_h Hlength Hlinks Hkey body.
  assert (extract env input_path st = (Ret (Some (big ++ 10%N :: link, [link])), st))
    as Hextract.
  { rewrite extract_two_paragraphs. unfold findall_urls.
    rewrite findall_from_no_h by done. unfold findall_urls in Hlinks.
    by rewrite Hlinks. }
  split_and!; [done|by apply process_file_forced_posts|done|].
  change (inputText body) with (prepare_text (big ++ 10%N :: link) [link]).
  unfold prepare_text. rewrite truncate_text_take.
  cbn [append_image_section]. rewrite <- !app_assoc.
  by apply take_app_length'.
Qed.

End long_document.

Lemma replicate_to_nat_succ {A} (n : Z) (x : A) :
  (0 ≤ n)%Z → replicate (Z.to_nat (Z.succ n)) x = x :: replicate (Z.to_nat n) x.
Proof. intros Hn. by rewrite Z2Nat.inj_succ. Qed.

Lemma long_paragraph_not_blank : blank long_paragraph = false.
Proof.
  unfold long_paragraph. change 400000%Z with (Z.succ 399999).
  by rewrite replicate_to_nat_succ.
Qed.

(** C6, as stated, fails: the sample document has a paragraph of 400000
    letters followed by a link to a picture.  The link is recognised, the
    submission says [noImages], and its text is the long paragraph alone: the
    image section, and with it the link, is cut off by the limit. *)
Lemma long_document_loses_its_links :
  let body := payload_of long_env (long_paragraph ++ 10%N :: picture_url) [picture_url] in
  extract long_env report demo_state
    = (Ret (Some (long_paragraph ++ 10%N :: picture_url, [picture_url])), demo_state) ∧
  (∃ evs, events_of (process_file long_env report true) demo_state =
          EvPost (GAMMA_API_BASE_URL +:+ "/generations") body :: evs) ∧
  source (imageOptions body) = "noImages" ∧
  additionalInstructions body
    = Some "Make the presentation professional and engaging. Please include and use the image URLs provided in the input text. Display images appropriately in the presentation slides." ∧
  inputText body = long_paragraph ∧
  text_contains picture_url (inputText body) = false.
Proof.
  intros body.
  assert (Forall (λ c, c ≠ 104%N) long_paragraph) as Hno_h.
  { by apply Forall_replicate. }
  destruct (long_document_submission long_env report demo_state "REPORT"
              long_paragraph picture_url) as (Hextract & Hpost & Hsource & Htext);
    [reflexivity|reflexivity|reflexivity|reflexivity|apply long_paragraph_not_blank
    |vm_compute; reflexivity|done|apply length_replicate|vm_compute; reflexivity
    |reflexivity|].
  split_and!; [done|done|done|reflexivity|done|].
  fold body in Htext. rewrite Htext.
  change picture_url with (104%N :: utext "ttp://x.org/a.png").
  by apply text_contains_no_h.
Qed.

(** ** Reusing a generation *)

Lemma scan_records_hit file_path_str file_hash before record_id record after :
  (∀ kv, kv ∈ before →
         path_match file_path_str kv.2 || hash_match file_hash kv.2 = false) →
  path_match file_path_str record || hash_match file_hash record = true →
  scan_records file_path_str file_hash (before ++ (record_id, record) :: after)
  = (true, Some record).
Proof.
  intros Hbefore Hhit. induction before as [|[id0 r0] before IH]; simpl.
  - unfold path_match, hash_match in Hhit. by rewrite Hhit.
  - pose proof (Hbefore (id0, r0) (list_elem_of_here _ _)) as Hmiss.
    unfold path_match, hash_match in Hmiss. simpl in Hmiss. rewrite Hmiss.
    apply IH. intros kv Hkv. apply Hbefore. by right.
Qed.

Section reuse.
Context (env : Env).

(** With a URL that is a string the export returns: nothing in it raises. *)
Lemma download_pdf_returns gamma_url generation_id output_path use_browser st :
  ∃ b, (download_pdf env (JStr gamma_url) generation_id output_path use_browser st).1
       = Ret b.
Proof.
  unfold download_pdf. unfold mbind, M_bind, bind, mret, M_ret, ret.
  destruct (download_via_api_spec env gamma_url generation_id output_path "pdf" st)
    as (n & _ & _ & _ & Hres).
  destruct (download_via_api env (JStr gamma_url) generation_id output_path "pdf" st)
    as [r st1]. simpl in Hres.
  destruct Hres as [[-> _]|(-> & _)]; [by exists true|].
  destruct (use_browser || SELENIUM_AVAILABLE env); [|by exists false].
  destruct (SELENIUM_AVAILABLE env) eqn:Hselenium; [|by exists false].
  unfold download_via_browser. rewrite Hselenium. cbn [negb].
  destruct (browser_export _ _ _ _ _); [by exists true|by exists false].
Qed.

(** C1: a non-forced run of [process_file] on a file whose content hash is
    computed, and whose record in the ledger (the first that matches its
    resolved path or its hash) holds a Gamma URL, returns [True] without any
    submission; when the expected output file is there, it does nothing at
    all: no request, no change of state. *)
Theorem second_run_reuses_ledger input_path st h records before record_id record after
    gamma_url :
  (get_file_hash env (p_str input_path) st).1 = Ret (Some h) → h ≠ "" →
  (load_records st).1 = Ret records →
  records = before ++ (record_id, record) :: after →
  (∀ kv, kv ∈ before →
         path_match (resolve env (p_str input_path)) kv.2 || hash_match h kv.2 = false) →
  path_match (resolve env (p_str input_path)) record || hash_match h record = true →
  jget "gamma_url" record = JStr gamma_url → gamma_url ≠ "" →
  let run := process_file env input_path false in
  (run st).1 = Ret true ∧
  Forall (λ e, is_submit e = false) (events_of run st) ∧
  (is_Some (files st !! output_path_of input_path) →
     run st = (Ret true, st) ∧ events_of run st = []).
Proof.
  intros Hhash Hh Hload -> Hbefore Hhit Hurl Hresolved run.
  assert (is_Some (files st !! p_str input_path)) as Hfile.
  { unfold get_file_hash in Hhash.
    destruct (files st !! p_str input_path); [by eexists|done]. }
  assert (check_existing_generation env input_path st = (Ret (true, Some record), st))
    as Hcheck.
  { rewrite (check_existing_generation_scan env input_path st h _ Hhash Hh Hload).
    by rewrite (scan_records_hit _ _ before record_id record after). }
  destruct (download_pdf_returns gamma_url (jget "generation_id" record)
              (output_path_of input_path) false st) as [b Hb].
  assert (run st =
          if bool_decide (is_Some (files st !! output_path_of input_path))
          then (Ret true, st)
          else (Ret true, (download_pdf env (JStr gamma_url) (jget "generation_id" record)
                             (output_path_of input_path) false st).2)) as Hrun.
  { unfold run. rewrite process_file_unfold. rewrite bool_decide_true by done.
    unfold reuse_existing. unfold mbind, M_bind, bind, mret, M_ret, ret.
    rewrite Hcheck, Hurl. cbn [truthy]. rewrite bool_decide_true by done.
    unfold path_exists. destruct (bool_decide _); cbn [negb]; [done|].
    destruct (download_pdf _ _ _ _ _ _) as [r st1]. simpl in Hb. by subst r. }
  split_and!.
  - rewrite Hrun. by destruct (bool_decide _).
  - unfold events_of. rewrite Hrun. destruct (bool_decide _); cbn [snd].
    + rewrite drop_all. constructor.
    + assert (emits not_submit (download_pdf env (JStr gamma_url)
                (jget "generation_id" record) (output_path_of input_path) false)) as Hquiet
        by (by apply emits_download_pdf).
      apply (emits_events_of _ _ st Hquiet).
  - intros Hout. rewrite Hrun. rewrite bool_decide_true by done.
    split; [done|]. unfold events_of. rewrite Hrun, bool_decide_true by done.
    cbn. apply drop_all.
Qed.

End reuse.

Lemma second_run_reuses_ledger_witness :
  let run := process_file demo_env report false in
  (run demo_state).1 = Ret true ∧
  Forall (λ e, is_submit e = false) (events_of run demo_state) ∧
  (is_Some (files demo_state !! output_path_of report) →
     run demo_state = (Ret true, demo_state) ∧ events_of run demo_state = []).
Proof.
  apply (second_run_reuses_ledger demo_env report demo_state "md5-REPORT" demo_ledger []
           "gen-1" (default [] (dict_get "gen-1" demo_ledger))
           (drop 1 demo_ledger) "https://gamma.app/docs/one").
  - reflexivity.
  - done.
  - reflexivity.
  - reflexivity.
  - intros kv Hkv. by apply elem_of_nil in Hkv.
  - reflexivity.
  - reflexivity.
  - done.
Defined.

(** ** The ledger as a store *)

Lemma load_records_ledger_of st : load_records st = (Ret (ledger_of st), st).
Proof. unfold load_records, ledger_of. by destruct (ledger_file st). Qed.

Lemma ledger_of_NoDup st : NoDup (ledger_of st).*1.
Proof.
  unfold ledger_of. destruct (ledger_file st); simpl; try constructor.
  apply dict_of_pairs_NoDup.
Qed.

Lemma ledger_of_saved (records : list (string * list (string * jval))) st :
  NoDup records.*1 → ledger_of (set_ledger_file (LedgerJson records) st) = records.
Proof. intros Hnd. unfold ledger_of. simpl. by apply dict_of_pairs_id. Qed.

Lemma dict_of_pairs_snoc {V} (d : list (string * V)) k v :
  dict_of_pairs (d ++ [(k, v)]) = dict_set k v (dict_of_pairs d).
Proof. unfold dict_of_pairs, dict_update. by rewrite foldl_app. Qed.

(** What [json.load] reads back after [records[generation_id] = record] and
    [json.dump]. *)
Lemma dict_of_pairs_setitem_dumped generation_id record
    (records : list (string * list (string * jval))) :
  NoDup records.*1 →
  dict_of_pairs (setitem_dumped generation_id record records)
  = dict_set (json_key generation_id) record records.
Proof.
  intros Hnd.
  assert (dict_of_pairs (records ++ [(json_key generation_id, record)])
          = dict_set (json_key generation_id) record records) as Happ.
  { rewrite dict_of_pairs_snoc. by rewrite dict_of_pairs_id. }
  destruct generation_id; simpl; try done.
  apply dict_of_pairs_id. by apply dict_set_NoDup.
Qed.

Lemma dict_get_elem_of {V} k (v : V) d : dict_get k d = Some v → (k, v) ∈ d.
Proof.
  induction d as [|[k' v'] d IH]; simpl; [done|].
  destruct (decide (k' = k)) as [->|Hne].
  - intros [= ->]. left.
  - intros Hget. right. by apply IH.
Qed.

Lemma dict_set_elem_of {V} k (v : V) d kv :
  kv ∈ dict_set k v d → kv = (k, v) ∨ kv ∈ d.
Proof.
  induction d as [|[k' v'] d IH]; simpl.
  - intros Hin%list_elem_of_singleton. by left.
  - destruct (decide (k' = k)) as [->|Hne].
    + intros [->|Hin]%elem_of_cons; [by left|]. right. by right.
    + intros [->|Hin]%elem_of_cons; [right; left|].
      destruct (IH Hin) as [->|Hd]; [by left|]. right. by right.
Qed.

(** The state [add_generation_record] leaves. *)
Lemma add_generation_record_run env file_path generation_id gamma_url status st :
  add_generation_record env file_path generation_id gamma_url status st =
  match get_file_hash env (p_str file_path) st with
  | (Ret file_hash, _) =>
      if no_hash file_hash then (Ret false, st)
      else
        let record :=
          [("file_path", JStr (resolve env (p_str file_path)));
           ("file_name", JStr (p_name file_path));
           ("file_hash", JStr (default "" file_hash));
           ("generation_id", generation_id);
           ("gamma_url", gamma_url);
           ("status", JStr status);
           ("created_at", JStr (isoformat_now env (ndate st)));
           ("updated_at", JStr (isoformat_now env (S (ndate st))))] in
        if writable env RECORDS_FILE
        then (Ret true,
              set_ledger_file
                (LedgerJson (setitem_dumped generation_id record (ledger_of st)))
                (next_date (next_date st)))
        else (Ret false, next_date (next_date st))
  | (Raise e, _) => (Raise e, st)
  | (Diverges, _) => (Diverges, st)
  end.
Proof.
  unfold add_generation_record. mrun.
  pose proof (get_file_hash_state env (p_str file_path) st) as Hst.
  destruct (get_file_hash env (p_str file_path) st) as [[file_hash| |] st1];
    simpl in Hst; subst st1; [|done..].
  destruct (no_hash file_hash); [done|].
  rewrite load_records_ledger_of.
  unfold datetime_now_isoformat, save_records. simpl.
  by destruct (writable env RECORDS_FILE).
Qed.

Lemma get_file_hash_frame env file_path st st' :
  files st' = files st →
  (get_file_hash env file_path st').1 = (get_file_hash env file_path st).1.
Proof. intros Hfiles. unfold get_file_hash. rewrite Hfiles. by repeat case_match. Qed.

Lemma get_file_hash_total env file_path st :
  ∃ file_hash, get_file_hash env file_path st = (Ret file_hash, st).
Proof. unfold get_file_hash. repeat case_match; by eexists. Qed.

(** The scan of a ledger in which a record that matches was just set. *)
Lemma scan_records_dict_set file_path_str file_hash k record records :
  path_match file_path_str record || hash_match file_hash record = true →
  ∃ found,
    scan_records file_path_str file_hash (dict_set k record records) = (true, Some found) ∧
    ((∀ kv, kv ∈ records →
        path_match file_path_str kv.2 || hash_match file_hash kv.2 = false) →
     found = record).
Proof.
  intros Hhit. unfold path_match, hash_match in *.
  induction records as [|[k' record'] records IH]; simpl.
  - rewrite Hhit. by exists record.
  - destruct (decide (k' = k)) as [->|Hne]; simpl.
    + rewrite Hhit. by exists record.
    + destruct (bool_decide (jget "file_path" record' = JStr file_path_str)
                || bool_decide (jget "file_hash" record' = JStr file_hash)) eqn:Hold.
      * exists record'. split; [done|]. intros Hnone.
        specialize (Hnone (k', record') ltac:(left)). simpl in Hnone. congruence.
      * destruct IH as (found & Hscan & Hfound). exists found. split; [done|].
        intros Hnone. apply Hfound. intros kv Hkv. apply Hnone. by right.
Qed.




(** X3: after [add_generation_record] has returned [True] for a file, the
    lookup of that file finds a record; when no earlier record matched the
    file by path or by content hash, the record found is the one just added,
    with the generation id, the Gamma URL, the status and the file name that
    were passed. *)
Theorem add_generation_record_then_lookup env file_path generation_id gamma_url status st :
  let r := add_generation_record env file_path generation_id gamma_url status st in
  r.1 = Ret true →
  ∃ h record,
    (get_file_hash env (p_str file_path) st).1 = Ret (Some h) ∧
    check_existing_generation env file_path r.2 = (Ret (true, Some record), r.2) ∧
    ((∀ kv, kv ∈ ledger_of st →
        path_match (resolve env (p_str file_path)) kv.2 || hash_match h kv.2 = false) →
     jget "generation_id" record = generation_id ∧
     jget "gamma_url" record = gamma_url ∧
     jget "status" record = JStr status ∧
     jget "file_name" record = JStr (p_name file_path) ∧
     jget "file_hash" record = JStr h ∧
     jget "created_at" record = JStr (isoformat_now env (ndate st))).
Proof.
  intros r. unfold r. rewrite add_generation_record_run.
  destruct (get_file_hash_total env (p_str file_path) st) as [file_hash Hhash].
  rewrite Hhash. destruct file_hash as [h|]; [|by simpl].
  simpl. destruct (bool_decide (h = "")) eqn:Hempty; [by simpl|].
  apply bool_decide_eq_false in Hempty.
  destruct (writable env RECORDS_FILE); [|by simpl]. simpl. intros _.
  set (record := [("file_path", JStr (resolve env (p_str file_path)));
                  ("file_name", JStr (p_name file_path)); ("file_hash", JStr h);
                  ("generation_id", generation_id); ("gamma_url", gamma_url);
                  ("status", JStr status);
                  ("created_at", JStr (isoformat_now env (ndate st)));
                  ("updated_at", JStr (isoformat_now env (S (ndate st))))]).
  set (st' := set_ledger_file _ _).
  destruct (scan_records_dict_set (resolve env (p_str file_path)) h
              (json_key generation_id) record (ledger_of st)) as (found & Hscan & Hfound).
  { unfold path_match. unfold record, jget. simpl. by rewrite bool_decide_true. }
  exists h, found. split; [done|]. split.
  - rewrite (check_existing_generation_scan env file_path st' h
               (dict_set (json_key generation_id) record (ledger_of st))).
    + by rewrite Hscan.
    + rewrite (get_file_hash_frame env _ st st') by done. by rewrite Hhash.
    + done.
    + rewrite load_records_ledger_of. simpl. unfold ledger_of, st'. simpl.
      f_equal. apply dict_of_pairs_setitem_dumped. apply ledger_of_NoDup.
  - intros Hnone. rewrite (Hfound Hnone). by unfold record, jget.
Qed.

Lemma add_generation_record_then_lookup_witness :
  let r := add_generation_record demo_env report (JStr "g1")
             (JStr "https://gamma.app/docs/abc") "completed" demo_state in
  ∃ h record,
    (get_file_hash demo_env (p_str report) demo_state).1 = Ret (Some h) ∧
    check_existing_generation demo_env report r.2 = (Ret (true, Some record), r.2) ∧
    ((∀ kv, kv ∈ ledger_of demo_state →
        path_match (resolve demo_env (p_str report)) kv.2 || hash_match h kv.2 = false) →
     jget "generation_id" record = JStr "g1" ∧
     jget "gamma_url" record = JStr "https://gamma.app/docs/abc" ∧
     jget "status" record = JStr "completed" ∧
     jget "file_name" record = JStr (p_name report) ∧
     jget "file_hash" record = JStr h ∧
     jget "created_at" record = JStr (isoformat_now demo_env (ndate demo_state))).
Proof.
  apply (add_generation_record_then_lookup demo_env report (JStr "g1")
           (JStr "https://gamma.app/docs/abc") "completed" demo_state).
  reflexivity.
Defined.


(** ** The generation client as a whole *)

Section client.
Context (env : Env).

Lemma generate_presentation_run input_text theme_id num_cards instr has_image_urls st :
  let url := GAMMA_API_BASE_URL +:+ "/generations" in
  let payload := build_payload input_text theme_id num_cards instr has_image_urls in
  let st' := advance (Z.of_N (latency env (nreq st)))
               (next_req (log (EvPost url payload) st)) in
  generate_presentation env input_text theme_id num_cards instr has_image_urls st =
  if str_truthy (GAMMA_API_KEY env) then
    match http_post env (nreq st) url payload with
    | HttpError => (Raise RequestException, st')
    | HttpOk response =>
        if bool_decide (status_code response ∈ [200; 201]%Z) then
          match json response with
          | Some o =>
              (Ret (if truthy (jget "generationId" o) then jget "generationId" o
                    else JNull), st')
          | None => (Raise JSONDecodeError, st')
          end
        else (Ret JNull, st')
    end
  else (Raise ValueError, st).
Proof.
  intros url payload st'. unfold generate_presentation. mrun.
  destruct (str_truthy (GAMMA_API_KEY env)); simpl; [|done].
  unfold requests_post. fold url payload st'.
  destruct (http_post env (nreq st) url payload) as [|response]; [done|].
  destruct (bool_decide (status_code response ∈ [200; 201]%Z)); simpl; [|done].
  unfold response_json. mrun. destruct (json response) as [o|]; [|done].
  by destruct (truthy (jget "generationId" o)).
Qed.

End client.

Section poll_count.
Context (env : Env) (generation_id : jval) (max_wait_time check_interval start_time : Z).
Local Abbreviation url := (status_url generation_id).
Local Abbreviation loop fuel :=
  (wait_loop env fuel generation_id max_wait_time check_interval start_time).

Lemma polled_nreq st : nreq (polled env url st) = S (nreq st).
Proof. done. Qed.

Lemma polled_clock st :
  clock (polled env url st) = (clock st + Z.of_N (latency env (nreq st)))%Z.
Proof. done. Qed.

(** The polls of the loop: none, and then nothing happened at all; or each
    poll but the first came a full interval after the one before, all within
    the time allowed, and the loop ended less than the time of the last
    request and one interval after the time allowed. *)
Lemma wait_loop_polls fuel : ∀ st,
  (0 ≤ check_interval)%Z →
  let r := loop fuel st in
  let n := nreq r.2 - nreq st in
  (n = 0 ∧ r.2 = st) ∨
  (0 < n ∧
   ((Z.of_nat n - 1) * check_interval + (clock st - start_time) < max_wait_time)%Z ∧
   (clock r.2 - start_time
    < max_wait_time + Z.of_N (latency env (nreq r.2 - 1)) + check_interval)%Z).
Proof.
  induction fuel as [|fuel IH]; intros st Hint.
  - left. simpl. split; [lia|done].
  - cbv zeta. rewrite wait_loop_unfold.
    destruct (bool_decide (clock st - start_time < max_wait_time)%Z) eqn:Htime;
      [|left; simpl; split; [lia|done]].
    apply bool_decide_eq_true in Htime.
    destruct (str_truthy (GAMMA_API_KEY env)); [|left; simpl; split; [lia|done]].
    assert (∀ A (a : result A),
              let r := (a, polled env url st) in
              let n := nreq r.2 - nreq st in
              (n = 0 ∧ r.2 = st) ∨
              (0 < n ∧
               ((Z.of_nat n - 1) * check_interval + (clock st - start_time)
                < max_wait_time)%Z ∧
               (clock r.2 - start_time
                < max_wait_time + Z.of_N (latency env (nreq r.2 - 1)) + check_interval)%Z))
      as Hlast.
    { intros A a. right. cbn [snd]. rewrite polled_nreq, polled_clock.
      replace (S (nreq st) - nreq st) with 1 by lia.
      replace (S (nreq st) - 1) with (nreq st) by lia.
      split; [lia|]. split; lia. }
    destruct (http_get env (nreq st) url) as [|response]; [apply Hlast|].
    destruct (status_of response) as [[status result]| |]; [|apply Hlast..].
    destruct (bool_decide (status = JNull)); [apply Hlast|].
    destruct (bool_decide (status = JStr "completed")); [apply Hlast|].
    destruct (bool_decide (status = JStr "failed")); [apply Hlast|].
    destruct (bool_decide (check_interval < 0)%Z); [apply Hlast|].
    set (st2 := advance check_interval (log (EvSleep check_interval) (polled env url st))).
    pose proof (wait_loop_nreq env generation_id max_wait_time check_interval start_time
                  fuel st2) as Hmono.
    specialize (IH st2 Hint). cbv zeta in IH.
    assert (nreq st2 = S (nreq st)) as Hn2 by done.
    assert (clock st2 = (clock st + Z.of_N (latency env (nreq st)) + check_interval)%Z)
      as Hc2 by done.
    rewrite Hn2 in IH, Hmono. rewrite Hc2 in IH.
    right. destruct IH as [[Hzero Hsame]|(Hpos & Hbound & Hend)].
    + rewrite Hsame. rewrite Hn2, Hc2.
      replace (S (nreq st) - nreq st) with 1 by lia.
      replace (S (nreq st) - 1) with (nreq st) by lia.
      split; [lia|]. split; lia.
    + split; [lia|]. split; [|done].
      replace (Z.of_nat (nreq (loop fuel st2).2 - nreq st) - 1)%Z
        with (Z.of_nat (nreq (loop fuel st2).2 - S (nreq st)) - 1 + 1)%Z by lia.
      nia.
Qed.

(** The requests of the loop are its polls. *)
Lemma wait_loop_gets fuel : ∀ st,
  ∃ evs, trace (loop fuel st).2 = trace st ++ evs ∧
         gets evs = replicate (nreq (loop fuel st).2 - nreq st) url.
Proof.
  induction fuel as [|fuel IH]; intros st.
  - exists []. simpl. rewrite app_nil_r. split; [done|].
    by replace (nreq st - nreq st) with 0 by lia.
  - rewrite wait_loop_unfold.
    assert (∃ evs, trace st = trace st ++ evs ∧
                   gets evs = replicate (nreq st - nreq st) url) as Hnone.
    { exists []. rewrite app_nil_r. split; [done|].
      by replace (nreq st - nreq st) with 0 by lia. }
    assert (∃ evs, trace (polled env url st) = trace st ++ evs ∧
                   gets evs = replicate (nreq (polled env url st) - nreq st) url) as Hone.
    { exists [EvGet url]. split; [done|]. rewrite polled_nreq.
      by replace (S (nreq st) - nreq st) with 1 by lia. }
    destruct (bool_decide (clock st - start_time < max_wait_time)%Z); [|done].
    destruct (str_truthy (GAMMA_API_KEY env)); [|done].
    destruct (http_get env (nreq st) url) as [|response]; [done|].
    destruct (status_of response) as [[status result]| |]; [|done..].
    destruct (bool_decide (status = JNull)); [done|].
    destruct (bool_decide (status = JStr "completed")); [done|].
    destruct (bool_decide (status = JStr "failed")); [done|].
    destruct (bool_decide (check_interval < 0)%Z); [done|].
    set (st2 := advance check_interval (log (EvSleep check_interval) (polled env url st))).
    pose proof (wait_loop_nreq env generation_id max_wait_time check_interval start_time
                  fuel st2) as Hmono.
    destruct (IH st2) as (evs & Htrace & Hgets).
    assert (nreq st2 = S (nreq st)) as Hn2 by done. rewrite Hn2 in Hgets, Hmono.
    exists (EvGet url :: EvSleep check_interval :: evs). split.
    + rewrite Htrace. unfold st2. simpl. by rewrite <- !app_assoc.
    + replace (nreq (loop fuel st2).2 - nreq st)
        with (S (nreq (loop fuel st2).2 - S (nreq st))) by lia.
      simpl. f_equal. exact Hgets.
Qed.

End poll_count.

(** X5: with a credential, [generate_presentation] sends exactly one
    request, the POST of the payload to [/generations], and touches neither
    the ledger nor any file; without a credential it raises [ValueError]
    before anything is sent. *)
Theorem generate_presentation_one_request env input_text theme_id num_cards instr
    has_image_urls st :
  let run :=
    generate_presentation env input_text theme_id num_cards instr has_image_urls in
  if str_truthy (GAMMA_API_KEY env) then
    events_of run st =
      [EvPost (GAMMA_API_BASE_URL +:+ "/generations")
         (build_payload input_text theme_id num_cards instr has_image_urls)] ∧
    nreq (run st).2 = S (nreq st) ∧
    ledger_file (run st).2 = ledger_file st ∧ files (run st).2 = files st
  else run st = (Raise ValueError, st).
Proof.
  intros run. unfold run, events_of. rewrite generate_presentation_run.
  destruct (str_truthy (GAMMA_API_KEY env)); [|done].
  assert (∀ A (a : result A) (e : event) d,
            let r := (a, advance d (next_req (log e st))) in
            drop (length (trace st)) (trace r.2) = [e] ∧
            nreq r.2 = S (nreq st) ∧
            ledger_file r.2 = ledger_file st ∧ files r.2 = files st) as Hsent.
  { intros A a e d. simpl. by rewrite drop_app_length. }
  repeat case_match; apply Hsent.
Qed.


(** X7: the number of status requests of [wait_for_completion].  Every
    request of the call is a status request of the generation.  Either there
    is none and nothing happened at all, or the polls are a full interval
    apart and all start within the time allowed, so [n] polls need
    [(n - 1) * check_interval < max_wait_time], and the call ends less than
    one request and one interval after the time allowed.  With no time
    allowed the call returns [(False, None)] at once, whatever the
    credential. *)
Theorem wait_for_completion_poll_bound env generation_id max_wait_time check_interval st :
  (0 ≤ check_interval)%Z →
  let run := wait_for_completion env generation_id max_wait_time check_interval in
  let n := nreq (run st).2 - nreq st in
  gets (events_of run st) = replicate n (status_url generation_id) ∧
  ((n = 0 ∧ (run st).2 = st) ∨
   (0 < n ∧
    ((Z.of_nat n - 1) * check_interval < max_wait_time)%Z ∧
    (clock (run st).2 - clock st
     < max_wait_time + Z.of_N (latency env (nreq (run st).2 - 1)) + check_interval)%Z)) ∧
  ((max_wait_time ≤ 0)%Z → run st = (Ret (false, None), st)).
Proof.
  intros Hint run n. unfold n, run, events_of. rewrite !wait_for_completion_eq.
  split; [|split].
  - destruct (wait_loop_gets env generation_id max_wait_time check_interval (clock st)
                (Z.to_nat max_wait_time + 1) st) as (evs & Htrace & Hgets).
    change (trace (wait_loop env (Z.to_nat max_wait_time + 1) generation_id max_wait_time
                     check_interval (clock st) st).2 = trace st ++ evs) in Htrace.
    rewrite Htrace, drop_app_length. exact Hgets.
  - pose proof (wait_loop_polls env generation_id max_wait_time check_interval (clock st)
                  (Z.to_nat max_wait_time + 1) st Hint) as Hpolls.
    cbv zeta in Hpolls. destruct Hpolls as [?|(Hpos & Hbound & Hend)]; [by left|].
    right. split; [done|]. split; [lia|done].
  - intros Hnone. replace (Z.to_nat max_wait_time + 1) with 1 by lia.
    rewrite wait_loop_unfold. rewrite bool_decide_false by lia. done.
Qed.

Lemma wait_for_completion_poll_bound_witness :
  let run := wait_for_completion demo_env (JStr "g1") 300 5 in
  let n := nreq (run polling_state).2 - nreq polling_state in
  gets (events_of run polling_state) = replicate n (status_url (JStr "g1")) ∧
  ((n = 0 ∧ (run polling_state).2 = polling_state) ∨
   (0 < n ∧
    ((Z.of_nat n - 1) * 5 < 300)%Z ∧
    (clock (run polling_state).2 - clock polling_state
     < 300 + Z.of_N (latency demo_env (nreq (run polling_state).2 - 1)) + 5)%Z)) ∧
  ((300 ≤ 0)%Z → run polling_state = (Ret (false, None), polling_state)).
Proof.
  apply (wait_for_completion_poll_bound demo_env (JStr "g1") 300 5 polling_state). lia.
Defined.

(** ** The document id of a Gamma URL *)

Lemma str_app_nil s : "" +:+ s = s.
Proof. done. Qed.

Lemma str_app_cons a p s : String a p +:+ s = String a (p +:+ s).
Proof. done. Qed.

Ltac str_app := rewrite ?str_app_cons, ?str_app_nil in *.

Lemma prefix_str_drop p s :
  String.prefix p s = true → s = p +:+ str_drop (String.length p) s.
Proof.
  revert s. induction p as [|a p IH]; intros s; [done|].
  destruct s as [|b s]; [done|]. simpl. destruct (ascii_dec a b) as [->|]; [|done].
  intros Hp. rewrite str_app_cons. f_equal. by apply IH.
Qed.

Lemma doc_id_run_split s : ∃ rest, s = doc_id_run s +:+ rest ∧ ends_doc_id rest.
Proof.
  induction s as [|c s IH]; simpl.
  - by exists "".
  - case_bool_decide as Hc.
    + exists (String c s). done.
    + destruct IH as (rest & Hs & Hrest). exists rest. rewrite str_app_cons.
      split; [|done]. by f_equal.
Qed.

Lemma doc_id_run_clean s :
  contains "/" (doc_id_run s) = false ∧ contains "?" (doc_id_run s) = false.
Proof.
  induction s as [|c s [IH1 IH2]]; simpl; [done|].
  case_bool_decide as Hc; [done|].
  cbn [contains String.prefix]. rewrite IH1, IH2.
  destruct (ascii_dec "/" c) as [<-|]; [destruct Hc; by left|].
  destruct (ascii_dec "?" c) as [<-|]; [destruct Hc; by right|].
  done.
Qed.

Lemma doc_id_run_ends rest : ends_doc_id rest → doc_id_run rest = "".
Proof.
  destruct rest as [|c rest]; simpl; [done|]. intros Hc. by rewrite bool_decide_true.
Qed.

Lemma doc_id_run_empty rest : doc_id_run rest = "" → ends_doc_id rest.
Proof.
  destruct rest as [|c rest]; simpl; [done|]. by case_bool_decide.
Qed.

Lemma search_doc_id_unfold c s :
  search_doc_id (String c s) =
  if String.prefix "/docs/" (String c s)
     && negb (bool_decide (doc_id_run (str_drop 6 (String c s)) = ""))
  then Some (doc_id_run (str_drop 6 (String c s)))
  else search_doc_id s.
Proof. done. Qed.

(** ** Files after an export *)

Lemma emits_trace {A} P (m : M A) st :
  emits P m → trace (m st).2 = trace st ++ events_of m st.
Proof.
  intros Hm. destruct (Hm st) as (evs & Htrace & _).
  by rewrite (events_of_app m st evs Htrace).
Qed.

Section export_files.
Context (env : Env) (output_path export_format : string).

Lemma for_export_urls_files urls : ∀ st,
  let r := for_export_urls env urls output_path export_format st in
  ledger_file r.2 = ledger_file st ∧
  (r.1 = Ret (true, Some "api") ∧
     (∃ response, files r.2 = <[output_path := content response]> (files st) ∧
                  is_valid export_format response = true)
   ∨ r.1 = Ret (false, None) ∧ files r.2 = files st).
Proof.
  induction urls as [|export_url rest IH]; intros st; cbv zeta.
  { simpl. split; [done|]. by right. }
  cbn [for_export_urls]. mrun. rewrite try_export_url_cases.
  pose proof (IH (polled env export_url st)) as Hnext. cbv zeta in Hnext.
  destruct (http_get env (nreq st) export_url) as [|response]; [exact Hnext|].
  destruct (bool_decide (status_code response = 200%Z)); [|exact Hnext].
  destruct (is_valid export_format response) eqn:Hvalid; [|exact Hnext].
  destruct (writable env output_path); [|exact Hnext].
  simpl. split; [done|]. left. split; [done|]. by exists response.
Qed.

Lemma download_via_api_files gamma_url generation_id st :
  let r := download_via_api env (JStr gamma_url) generation_id output_path export_format st in
  ledger_file r.2 = ledger_file st ∧
  (r.1 = Ret (true, Some "api") ∧
     (∃ response, files r.2 = <[output_path := content response]> (files st) ∧
                  is_valid export_format response = true)
   ∨ r.1 = Ret (false, None) ∧ files r.2 = files st).
Proof. apply for_export_urls_files. Qed.

End export_files.

(** ** The two export functions *)

Section fallback.
Context (env : Env).

Lemma download_pdf_run gamma_url generation_id output_path use_browser st :
  let headless :=
    bool_decide (lower (default "false" (BROWSER_HEADLESS env)) = "true") in
  download_pdf env gamma_url generation_id output_path use_browser st =
  match download_via_api env gamma_url generation_id output_path "pdf" st with
  | (Ret (true, _), st1) => (Ret true, st1)
  | (Ret (false, _), st1) =>
      if SELENIUM_AVAILABLE env then
        let st2 := next_req (log (EvBrowser (py_str gamma_url) "pdf" headless) st1) in
        match browser_export env (nreq st1) (py_str gamma_url) output_path headless with
        | Some data => (Ret true, set_files (<[output_path := data]> (files st2)) st2)
        | None => (Ret false, st2)
        end
      else (Ret false, st1)
  | (Raise e, st1) => (Raise e, st1)
  | (Diverges, st1) => (Diverges, st1)
  end.
Proof.
  intros headless. unfold download_pdf. mrun. fold headless.
  destruct (download_via_api env gamma_url generation_id output_path "pdf" st)
    as [[[[] method]| |] st1]; try done.
  unfold download_via_browser.
  destruct (SELENIUM_AVAILABLE env); [|by destruct use_browser].
  rewrite orb_true_r. cbn [negb].
  by destruct (browser_export _ _ _ _ _).
Qed.

Lemma download_pptx_run gamma_url generation_id output_path use_browser st :
  download_pptx env gamma_url generation_id output_path use_browser st =
  match download_via_api env gamma_url generation_id output_path "pptx" st with
  | (Ret (true, _), st1) => (Ret true, st1)
  | (Ret (false, _), st1) =>
      if SELENIUM_AVAILABLE env then
        let st2 := next_req (log (EvBrowser (py_str gamma_url) "pptx" true) st1) in
        match browser_export env (nreq st1) (py_str gamma_url) output_path true with
        | Some data => (Ret true, set_files (<[output_path := data]> (files st2)) st2)
        | None => (Ret false, st2)
        end
      else (Ret false, st1)
  | (Raise e, st1) => (Raise e, st1)
  | (Diverges, st1) => (Diverges, st1)
  end.
Proof.
  unfold download_pptx. mrun.
  destruct (download_via_api env gamma_url generation_id output_path "pptx" st)
    as [[[[] method]| |] st1]; try done.
  unfold download_via_browser.
  destruct (SELENIUM_AVAILABLE env); [|by destruct use_browser].
  rewrite andb_true_r. rewrite orb_negb_r. cbn [negb].
  by destruct (browser_export _ _ _ _ _).
Qed.

(** What an export that falls back on the browser leaves behind. *)
Lemma fallback_outcome gamma_url generation_id output_path export_format headless st :
  let api :=
    download_via_api env (JStr gamma_url) generation_id output_path export_format in
  let r :=
    match api st with
    | (Ret (true, _), st1) => (Ret true, st1)
    | (Ret (false, _), st1) =>
        if SELENIUM_AVAILABLE env then
          let st2 := next_req (log (EvBrowser gamma_url export_format headless) st1) in
          match browser_export env (nreq st1) gamma_url output_path headless with
          | Some data => (Ret true, set_files (<[output_path := data]> (files st2)) st2)
          | None => (Ret false, st2)
          end
        else (Ret false, st1)
    | (Raise e, st1) => (Raise e, st1)
    | (Diverges, st1) => (Diverges, st1)
    end in
  ∃ b : bool, r.1 = Ret b ∧
    (if b then is_Some (files r.2 !! output_path) else files r.2 = files st) ∧
    ledger_file r.2 = ledger_file st ∧
    drop (length (trace st)) (trace r.2) =
      events_of api st ++
      match (api st).1 with
      | Ret (true, _) => []
      | _ => if SELENIUM_AVAILABLE env
             then [EvBrowser gamma_url export_format headless] else []
      end.
Proof.
  intros api r. unfold r.
  assert (emits (λ _, True) api) as Hemits by (by apply emits_download_via_api).
  pose proof (emits_trace _ api st Hemits) as Htrace.
  destruct (download_via_api_files env output_path export_format gamma_url generation_id st)
    as [Hledger Hfiles].
  fold api in Hledger, Hfiles.
  destruct (api st) as [a st1]. cbn [fst snd] in *.
  destruct Hfiles as [[-> (response & Hfiles & _)]|[-> Hfiles]].
  - exists true. cbn [fst snd]. split_and!; try done.
    + rewrite Hfiles, lookup_insert_eq. by eexists.
    + by rewrite Htrace, drop_app_length, app_nil_r.
  - destruct (SELENIUM_AVAILABLE env).
    + destruct (browser_export env (nreq st1) gamma_url output_path headless) as [data|].
      * exists true. cbn. split_and!; try done.
        -- rewrite lookup_insert_eq. by eexists.
        -- by rewrite Htrace, <- app_assoc, drop_app_length.
      * exists false. cbn. split_and!; try done.
        by rewrite Htrace, <- app_assoc, drop_app_length.
    + exists false. cbn. split_and!; try done.
      by rewrite Htrace, drop_app_length, app_nil_r.
Qed.

End fallback.

(** X8: the document id that [download_via_api] reads in a Gamma URL.
    When one is found, it is not empty, holds neither a slash nor a question
    mark, stands in the URL right after [/docs/], and ends where the URL
    ends or at a slash or question mark.  None is found only in a URL where
    every [/docs/] is followed at once by the end, a slash or a question
    mark. *)
Theorem search_doc_id_spec gamma_url :
  match search_doc_id gamma_url with
  | Some doc_id =>
      doc_id ≠ "" ∧ contains "/" doc_id = false ∧ contains "?" doc_id = false ∧
      ∃ before rest,
        gamma_url = before +:+ "/docs/" +:+ doc_id +:+ rest ∧ ends_doc_id rest
  | None =>
      ∀ before rest, gamma_url = before +:+ "/docs/" +:+ rest → ends_doc_id rest
  end.
Proof.
  induction gamma_url as [|c s IH].
  - simpl. intros before rest Hs. destruct before; str_app; done.
  - rewrite search_doc_id_unfold.
    assert (match search_doc_id s with
            | Some doc_id =>
                doc_id ≠ "" ∧ contains "/" doc_id = false ∧ contains "?" doc_id = false ∧
                ∃ before rest,
                  String c s = before +:+ "/docs/" +:+ doc_id +:+ rest ∧ ends_doc_id rest
            | None =>
                ∀ before rest, s = before +:+ "/docs/" +:+ rest → ends_doc_id rest
            end) as Hlater.
    { destruct (search_doc_id s) as [doc_id|]; [|done].
      destruct IH as (Hne & Hs1 & Hs2 & before & rest & Hs & Hrest).
      split_and!; try done. exists (String c before), rest. split; [|done].
      rewrite str_app_cons. by f_equal. }
    destruct (String.prefix "/docs/" (String c s)) eqn:Hprefix; cbn [andb].
    + apply prefix_str_drop in Hprefix. cbn [String.length] in Hprefix.
      set (tail := str_drop 6 (String c s)) in *.
      case_bool_decide as Hrun; cbn [negb].
      * destruct (search_doc_id s) as [doc_id|]; [done|].
        intros [|b before] rest Hs.
        -- rewrite str_app_nil in Hs. rewrite Hprefix in Hs.
           apply doc_id_run_empty. str_app. congruence.
        -- rewrite str_app_cons in Hs. injection Hs as _ Hs. by apply (Hlater before).
      * destruct (doc_id_run_clean tail) as [Hs1 Hs2].
        destruct (doc_id_run_split tail) as (rest & Htail & Hrest).
        split_and!; try done. exists "", rest. split; [|done].
        rewrite Hprefix at 1. rewrite str_app_nil. by rewrite <- Htail.
    + destruct (search_doc_id s) as [doc_id|]; [done|].
      intros [|b before] rest Hs.
      * rewrite str_app_nil in Hs. rewrite Hs in Hprefix. str_app.
        simpl in Hprefix. by destruct rest.
      * rewrite str_app_cons in Hs. injection Hs as _ Hs. by apply (Hlater before).
Qed.

(** X9: an export format other than [pdf] and [pptx] is never exported by
    [download_via_api]: every candidate URL is still requested, in order, but
    no answer is accepted, the result is [(False, None)] and no file is
    written. *)
Theorem download_via_api_unknown_format env gamma_url generation_id output_path
    export_format st :
  export_format ≠ "pdf" → export_format ≠ "pptx" →
  let run := download_via_api env (JStr gamma_url) generation_id output_path export_format in
  (run st).1 = Ret (false, None) ∧
  files (run st).2 = files st ∧
  gets (events_of run st) = export_urls (search_doc_id gamma_url) generation_id export_format ∧
  writes (events_of run st) = [].
Proof.
  intros Hpdf Hpptx run.
  assert (∀ response, is_valid export_format response = false) as Hinvalid.
  { intros response. unfold is_valid. by rewrite !bool_decide_false. }
  destruct (download_via_api_files env output_path export_format gamma_url generation_id st)
    as [_ Hfiles].
  destruct (download_via_api_spec env gamma_url generation_id output_path export_format st)
    as (n & Hn & Hgets & _ & Hres).
  fold run in Hfiles, Hgets, Hres.
  destruct Hres as [[_ (u & response & _ & _ & _ & _ & Hvalid & _)]|(Hres & -> & Hwrites)].
  { by rewrite Hinvalid in Hvalid. }
  destruct Hfiles as [[Hok _]|[_ Hfiles]]; [congruence|].
  split_and!; try done. by rewrite Hgets, firstn_all.
Qed.

Lemma download_via_api_unknown_format_witness :
  let run := download_via_api demo_env (JStr "https://gamma.app/docs/abc") (JStr "g1")
               "output/report.docx" "docx" in
  (run polling_state).1 = Ret (false, None) ∧
  files (run polling_state).2 = files polling_state ∧
  gets (events_of run polling_state) =
    export_urls (search_doc_id "https://gamma.app/docs/abc") (JStr "g1") "docx" ∧
  writes (events_of run polling_state) = [].
Proof.
  apply (download_via_api_unknown_format demo_env "https://gamma.app/docs/abc" (JStr "g1")
           "output/report.docx" "docx" polling_state); done.
Defined.

(** X10: the parameter [use_browser] of [download_pdf] and of
    [download_pptx] changes nothing in what they do: the result, the requests,
    the browser session and the files are the same with [True] and with
    [False]. *)
Theorem use_browser_is_ignored env gamma_url generation_id output_path use_browser st :
  download_pdf env gamma_url generation_id output_path use_browser st
  = download_pdf env gamma_url generation_id output_path (negb use_browser) st ∧
  download_pptx env gamma_url generation_id output_path use_browser st
  = download_pptx env gamma_url generation_id output_path (negb use_browser) st.
Proof. by rewrite !download_pdf_run, !download_pptx_run. Qed.



(** ** Links in a text *)

Lemma text_prefix_app p t : text_prefix p t = true → t = p ++ drop (length p) t.
Proof.
  revert t. induction p as [|a p IH]; intros t; simpl; [done|].
  destruct t as [|b t]; [done|]. intros [Hab Hp]%andb_true_iff.
  apply bool_decide_eq_true in Hab as ->. simpl. f_equal. by apply IH.
Qed.

Lemma url_run_split t :
  ∃ rest, t = url_run t ++ rest ∧ Forall (λ c, url_char c = true) (url_run t) ∧
          match rest with
          | [] => True
          | c :: _ => url_char c = false
          end.
Proof.
  induction t as [|c t IH]; simpl.
  - by exists [].
  - destruct (url_char c) eqn:Hc.
    + destruct IH as (rest & Ht & Hrun & Hrest). exists rest. split_and!; try done.
      * simpl. by f_equal.
      * by constructor.
    + exists (c :: t). split_and!; try done.
Qed.

Lemma match_url_spec t url : match_url t = Some url → url_match_in t url.
Proof.
  unfold match_url.
  assert (∀ scheme : list N,
            text_prefix scheme t = true →
            (utext "https://" = scheme ∨ utext "http://" = scheme) →
            match url_run (drop (length scheme) t) with
            | [] => None
            | c :: run => Some (take (length scheme) t ++ c :: run)
            end = Some url →
            url_match_in t url) as Hscheme.
  { intros scheme Hprefix Hwhich Hrun. apply text_prefix_app in Hprefix.
    destruct (url_run_split (drop (length scheme) t)) as (rest & Hdrop & Hchars & Hrest).
    destruct (url_run (drop (length scheme) t)) as [|c run] eqn:Hfound; [done|].
    injection Hrun as <-.
    assert (take (length scheme) t = scheme) as ->.
    { rewrite Hprefix at 1. by rewrite take_app_length. }
    exists [], rest. split_and!; try done.
    - simpl. rewrite <- app_assoc, <- Hdrop. exact Hprefix.
    - exists (c :: run). split_and!; try done.
      destruct Hwhich as [<-|<-]; [by left|by right]. }
  destruct (text_prefix (utext "https://") t) eqn:Hs.
  { apply (Hscheme (utext "https://")); [done|by left]. }
  destruct (text_prefix (utext "http://") t) eqn:Hp; [|done].
  apply (Hscheme (utext "http://")); [done|by right].
Qed.

Lemma url_match_in_cons c t url : url_match_in t url → url_match_in (c :: t) url.
Proof.
  intros (before & rest & -> & Hurl & Hrest). by exists (c :: before), rest.
Qed.

Lemma findall_from_spec t : ∀ skip, Forall (url_match_in t) (findall_from skip t).
Proof.
  induction t as [|c t IH]; intros skip; simpl; [constructor|].
  assert (∀ k, Forall (url_match_in (c :: t)) (findall_from k t)) as Hlater.
  { intros k. eapply Forall_impl; [apply IH|]. intros url. apply url_match_in_cons. }
  destruct skip as [|k]; [|apply Hlater].
  destruct (match_url (c :: t)) as [url|] eqn:Hmatch; [|apply Hlater].
  constructor; [by apply match_url_spec|apply Hlater].
Qed.

(** ** Image links *)

Section image_links.

Local Abbreviation keep := (λ (image_urls : list (list N)) (url : list N),
  if is_image_link url && negb (bool_decide (url ∈ image_urls))
  then image_urls ++ [url] else image_urls).

Lemma docx_image_urls_fold urls : docx_image_urls urls = foldl keep [] urls.
Proof. done. Qed.

Lemma keep_fold urls : ∀ acc,
  NoDup acc →
  ∃ new,
    foldl keep acc urls = acc ++ new ∧ NoDup (acc ++ new) ∧ sublist new urls ∧
    ∀ url, url ∈ acc ++ new ↔ url ∈ acc ∨ url ∈ urls ∧ is_image_link url = true.
Proof.
  induction urls as [|u urls IH]; intros acc Hacc; simpl.
  - exists []. rewrite app_nil_r. split_and!; try done.
    intros url. split; [by left|]. intros [? | [Hin _]]; [done|]. by apply elem_of_nil in Hin.
  - destruct (is_image_link u && negb (bool_decide (u ∈ acc))) eqn:Hkeep.
    + apply andb_true_iff in Hkeep as [Himage Hnew].
      apply negb_true_iff, bool_decide_eq_false in Hnew.
      destruct (IH (acc ++ [u])) as (new & Hfold & Hnd & Hsub & Hin).
      { apply NoDup_app. split_and!; [done| |apply NoDup_singleton].
        intros x Hx Hu%list_elem_of_singleton. by subst. }
      exists (u :: new). rewrite <- app_assoc in Hfold, Hnd, Hin. simpl in Hfold, Hnd, Hin.
      split_and!; try done.
      * by constructor.
      * intros url. rewrite Hin. rewrite elem_of_app, list_elem_of_singleton, elem_of_cons.
        split.
        -- intros [[? | ->] | [? ?]]; [by left|right; split; [by left|done]|].
           right. split; [by right|done].
        -- intros [? | [[-> | ?] ?]]; [left; by left|left; by right|]. by right.
    + destruct (IH acc Hacc) as (new & Hfold & Hnd & Hsub & Hin).
      exists new. split_and!; try done.
      * by apply sublist_cons.
      * intros url. rewrite Hin. rewrite elem_of_cons. split.
        -- intros [? | [? ?]]; [by left|]. right. split; [by right|done].
        -- intros [? | [[-> | ?] Himage]]; [by left| |by right].
           left. rewrite Himage in Hkeep. cbn [andb] in Hkeep.
           by apply negb_false_iff, bool_decide_eq_true in Hkeep.
Qed.

Lemma docx_image_urls_elem_of urls url :
  url ∈ docx_image_urls urls ↔ url ∈ urls ∧ is_image_link url = true.
Proof.
  rewrite docx_image_urls_fold.
  destruct (keep_fold urls [] (NoDup_nil_2)) as (new & -> & _ & _ & Hin).
  rewrite Hin. split; [|by right]. intros [Hnil | ?]; [|done]. by apply elem_of_nil in Hnil.
Qed.

End image_links.

Lemma has_ext_bmp url :
  has_ext [".jpg"; ".jpeg"; ".png"; ".gif"; ".webp"; ".svg"] url = true →
  has_ext [".jpg"; ".jpeg"; ".png"; ".gif"; ".webp"; ".svg"; ".bmp"] url = true.
Proof.
  unfold has_ext. rewrite !existsb_exists. intros (ext & Hin & Hends).
  exists ext. split; [|done].
  change (In ext ([".jpg"; ".jpeg"; ".png"; ".gif"; ".webp"; ".svg"] ++ [".bmp"])).
  apply in_or_app. by left.
Qed.

(** X13: every link that the URL pattern finds in a text stands in the
    text; it is [http://] or [https://] followed by one character or more,
    none of them white space or one of the characters the pattern excludes;
    and it goes as far as such characters go. *)
Theorem findall_urls_sound t : Forall (url_match_in t) (findall_urls t).
Proof. apply findall_from_spec. Qed.


(** X15: the PDF branch takes fewer links for images than the document
    branch: a link it keeps is one the document branch would keep for the
    same text.  The converse fails for a [.bmp] link. *)
Theorem pdf_image_urls_in_docx_image_urls t :
  Forall (λ url, url ∈ docx_image_urls (findall_urls t)) (pdf_image_urls (Some t)) ∧
  pdf_image_urls (Some (utext "http://x.org/a.bmp")) = [] ∧
  docx_image_urls (findall_urls (utext "http://x.org/a.bmp")) = [utext "http://x.org/a.bmp"].
Proof.
  split; [|split; vm_compute; reflexivity].
  apply Forall_forall. intros url Hin. apply docx_image_urls_elem_of.
  destruct t as [|c t]; [by apply elem_of_nil in Hin|].
  unfold pdf_image_urls in Hin. apply list_elem_of_In, filter_In in Hin as [Hin Hext].
  split; [by apply list_elem_of_In|].
  unfold is_image_link. by rewrite has_ext_bmp.
Qed.

(** The outcomes of the extraction step. *)
Lemma extract_cases env input_path st :
  match extract env input_path st with
  | (Ret (Some (text_content, image_urls)), st') =>
      st' = st ∧ blank text_content = false ∧
      (lower (p_suffix input_path) = ".docx" ∧
         image_urls = docx_image_urls (findall_urls text_content)
       ∨ lower (p_suffix input_path) = ".pdf" ∧
         image_urls = pdf_image_urls (Some text_content))
  | (Ret None, st') => st' = st
  | _ => False
  end.
Proof.
  unfold extract. mrun.
  case_bool_decide as Hdocx.
  - unfold extract_text_from_docx.
    destruct (files st !! p_str input_path) as [data|]; [|done].
    destruct (if readable env (p_str input_path) then Document env data else None)
      as [doc|]; [|done].
    cbn. destruct (blank _) eqn:Hblank; [done|]. split_and!; try done. by left.
  - case_bool_decide as Hpdf; [|done].
    unfold extract_text_from_pdf.
    destruct (files st !! p_str input_path) as [data|]; [|done].
    destruct (if readable env (p_str input_path) then PdfReader env data else None)
      as [pages|]; [|done].
    cbn. destruct (blank _) eqn:Hblank; [done|]. split_and!; try done. by right.
Qed.

(** X16: the extraction step of [process_file] never raises and changes
    nothing.  What it hands on is a text that is not blank, with the image
    links found in that same text: by the rule for documents when the suffix
    is [.docx], by the rule for PDF files when it is [.pdf], the case of the
    suffix being ignored.  A file with any other suffix is refused. *)
Theorem extract_result env input_path st :
  match extract env input_path st with
  | (Ret (Some (text_content, image_urls)), st') =>
      st' = st ∧ blank text_content = false ∧
      (lower (p_suffix input_path) = ".docx" ∧
         image_urls = docx_image_urls (findall_urls text_content)
       ∨ lower (p_suffix input_path) = ".pdf" ∧
         image_urls = pdf_image_urls (Some text_content))
  | (Ret None, st') => st' = st
  | _ => False
  end.
Proof. apply extract_cases. Qed.

(** ** What a step leaves alone *)

Section keeps_rules.
Context {X A B : Type} (g : State → X).

Lemma keeps_same (m : M A) : (∀ st, (m st).2 = st) → keeps g m.
Proof. intros Hm st. by rewrite Hm. Qed.

Lemma keeps_ret (a : A) : keeps g (mret a).
Proof. done. Qed.

Lemma keeps_raise e : keeps g (raise e : M A).
Proof. done. Qed.

Lemma keeps_pure (r : result A) : keeps g (pure r).
Proof. done. Qed.

Lemma keeps_bind (m : M A) (f : A → M B) :
  keeps g m → (∀ a, keeps g (f a)) → keeps g (m ≫= f).
Proof.
  intros Hm Hf st. specialize (Hm st). mrun.
  destruct (m st) as [[a| |] st1]; simpl in *; [|done..].
  by rewrite Hf.
Qed.

End keeps_rules.

(** The steps that only read, wait or talk to the service keep every part of
    the state that the clock, the counters and the trace are not part of. *)
Section keeps_program.
Context (env : Env) {X : Type} (g : State → X).
Context (Hlog : ∀ e st, g (log e st) = g st).
Context (Hadvance : ∀ d st, g (advance d st) = g st).
Context (Hnext_req : ∀ st, g (next_req st) = g st).

Lemma keeps_time_time : keeps g time_time.
Proof. done. Qed.

Lemma keeps_path_exists p : keeps g (path_exists p).
Proof. done. Qed.

Lemma keeps_time_sleep secs : keeps g (time_sleep secs).
Proof.
  intros st. unfold time_sleep. case_bool_decide; [done|].
  cbn [snd]. by rewrite Hadvance, Hlog.
Qed.

Lemma keeps_requests_get url : keeps g (requests_get env url).
Proof.
  intros st. unfold requests_get.
  destruct (http_get env (nreq st) url); cbn [snd]; by rewrite Hadvance, Hnext_req, Hlog.
Qed.

Lemma keeps_requests_post url body : keeps g (requests_post env url body).
Proof.
  intros st. unfold requests_post.
  destruct (http_post env (nreq st) url body); cbn [snd];
    by rewrite Hadvance, Hnext_req, Hlog.
Qed.

Lemma keeps_response_json r : keeps g (response_json r).
Proof. unfold response_json. by destruct (json r). Qed.

Lemma keeps_check_existing_generation p : keeps g (check_existing_generation env p).
Proof. apply keeps_same. intros st. apply check_existing_generation_state. Qed.

Lemma keeps_extract p : keeps g (extract env p).
Proof. apply keeps_same. intros st. apply extract_state. Qed.

Lemma keeps_generate_presentation input_text theme_id num_cards instr has_image_urls :
  keeps g (generate_presentation env input_text theme_id num_cards instr has_image_urls).
Proof.
  unfold generate_presentation.
  destruct (negb (str_truthy (GAMMA_API_KEY env))); [apply keeps_raise|].
  apply keeps_bind; [apply keeps_requests_post|intros response].
  destruct (negb _); [apply keeps_ret|].
  apply keeps_bind; [apply keeps_response_json|intros result].
  destruct (negb _); apply keeps_ret.
Qed.

Lemma keeps_check_generation_status generation_id :
  keeps g (check_generation_status env generation_id).
Proof.
  unfold check_generation_status.
  destruct (negb (str_truthy (GAMMA_API_KEY env))); [apply keeps_raise|].
  apply keeps_bind; [apply keeps_requests_get|intros response; apply keeps_pure].
Qed.

Lemma keeps_wait_loop fuel generation_id max_wait_time check_interval start_time :
  keeps g (wait_loop env fuel generation_id max_wait_time check_interval start_time).
Proof.
  induction fuel as [|fuel IH]; [done|].
  cbn [wait_loop].
  apply keeps_bind; [apply keeps_time_time|intros now].
  destruct (bool_decide _); [|apply keeps_ret].
  apply keeps_bind; [apply keeps_check_generation_status|intros [status result]].
  repeat (destruct (bool_decide _); [apply keeps_ret|]).
  destruct (bool_decide _);
    (apply keeps_bind; [apply keeps_time_sleep|intros _; apply IH]).
Qed.

Lemma keeps_wait_for_completion generation_id max_wait_time check_interval :
  keeps g (wait_for_completion env generation_id max_wait_time check_interval).
Proof.
  unfold wait_for_completion.
  apply keeps_bind; [apply keeps_time_time|intros start_time].
  apply keeps_wait_loop.
Qed.

(** The export of the presentation of [input_path], given that the two ways
    of fetching the file keep [g]. *)
Context (input_path : PyPath).
Context (Hapi : ∀ gamma_url generation_id export_format,
           keeps g (download_via_api env gamma_url generation_id
                      (output_path_of input_path) export_format)).
Context (Hbrowser : ∀ gamma_url export_format headless,
           keeps g (download_via_browser env gamma_url (output_path_of input_path)
                      export_format headless)).

Lemma keeps_download_pdf gamma_url generation_id use_browser :
  keeps g (download_pdf env gamma_url generation_id (output_path_of input_path) use_browser).
Proof.
  unfold download_pdf.
  apply keeps_bind; [apply Hapi|intros [success method]].
  destruct success; [done|].
  destruct (use_browser || SELENIUM_AVAILABLE env); [|done].
  destruct (SELENIUM_AVAILABLE env); [|done].
  apply keeps_bind; [apply Hbrowser|intros [found by_browser]].
  by destruct found.
Qed.

Lemma keeps_reuse_existing : keeps g (reuse_existing env input_path).
Proof.
  unfold reuse_existing.
  apply keeps_bind; [apply keeps_check_existing_generation|intros [exists_ record]].
  destruct exists_; [|done]. destruct record as [record|]; [|done].
  destruct (truthy (jget "gamma_url" record)); [|done].
  apply keeps_bind; [apply keeps_path_exists|intros present].
  apply keeps_bind; [|done].
  destruct (negb present); [|done].
  apply keeps_bind; [apply keeps_download_pdf|done].
Qed.

(** The whole run, given that the two writers of the ledger keep [g]. *)
Context (Hadd : ∀ generation_id gamma_url status,
           keeps g (add_generation_record env input_path generation_id gamma_url status)).
Context (Hupdate : ∀ generation_id kwargs,
           keeps g (update_generation_record env generation_id kwargs)).

Lemma keeps_finish_generation generation_id :
  keeps g (finish_generation env input_path generation_id).
Proof.
  unfold finish_generation. destruct (negb (truthy generation_id)); [done|].
  apply keeps_bind; [apply keeps_wait_for_completion|intros [success result]].
  destruct (negb success); [done|]. destruct result as [result|]; [|done].
  destruct (negb (truthy _)); [done|].
  apply keeps_bind; [apply Hadd|intros _].
  apply keeps_bind; [apply keeps_download_pdf|intros download_success].
  apply keeps_bind; [|done].
  destruct download_success; apply Hupdate.
Qed.

Lemma keeps_process_file force_regenerate :
  keeps g (process_file env input_path force_regenerate).
Proof.
  unfold process_file.
  apply keeps_bind; [apply keeps_path_exists|intros present].
  destruct (negb present); [done|].
  apply keeps_bind.
  { destruct (negb force_regenerate); [apply keeps_reuse_existing|done]. }
  intros [b|]; [done|].
  apply keeps_bind; [apply keeps_extract|].
  intros [[text_content image_urls]|]; [|done].
  unfold generate_and_export.
  apply keeps_bind; [apply keeps_generate_presentation|].
  intros generation_id. apply keeps_finish_generation.
Qed.

End keeps_program.

Section keeps_ledger_program.
Context (env : Env).

Lemma keeps_ledger_download_via_api gamma_url generation_id output_path export_format :
  keeps_ledger (download_via_api env gamma_url generation_id output_path export_format).
Proof.
  destruct gamma_url as [| | |u]; try done.
  intros st. apply (download_via_api_files env output_path export_format u generation_id st).
Qed.

Lemma keeps_ledger_download_via_browser gamma_url output_path export_format headless :
  keeps_ledger (download_via_browser env gamma_url output_path export_format headless).
Proof.
  unfold download_via_browser. destruct (negb (SELENIUM_AVAILABLE env)); [done|].
  intros st. by destruct (browser_export _ _ _ _ _).
Qed.

Lemma keeps_ledger_download_pdf input_path gamma_url generation_id use_browser :
  keeps_ledger (download_pdf env gamma_url generation_id (output_path_of input_path)
                  use_browser).
Proof.
  apply keeps_download_pdf; intros;
    [apply keeps_ledger_download_via_api|apply keeps_ledger_download_via_browser].
Qed.

Lemma keeps_ledger_wait_for_completion generation_id max_wait_time check_interval :
  keeps_ledger (wait_for_completion env generation_id max_wait_time check_interval).
Proof. by apply keeps_wait_for_completion. Qed.

Lemma keeps_ledger_generate_presentation input_text theme_id num_cards instr has_image_urls :
  keeps_ledger
    (generate_presentation env input_text theme_id num_cards instr has_image_urls).
Proof. by apply keeps_generate_presentation. Qed.

Lemma keeps_ledger_reuse_existing p : keeps_ledger (reuse_existing env p).
Proof.
  apply keeps_reuse_existing; try done; intros;
    [apply keeps_ledger_download_via_api|apply keeps_ledger_download_via_browser].
Qed.

End keeps_ledger_program.

(** ** Invariants of the ledger *)

Section invariants.
Context {A B : Type} (I : State → Prop).

Lemma inv_ret (a : A) : hoare I (mret a) (λ _, I).
Proof. by intros st. Qed.

Lemma inv_raise e : hoare I (raise e : M A) (λ _, I).
Proof. by intros st. Qed.

Lemma inv_bind (m : M A) (f : A → M B) :
  hoare I m (λ _, I) → (∀ a, hoare I (f a) (λ _, I)) → hoare I (m ≫= f) (λ _, I).
Proof.
  intros Hm Hf st HI. specialize (Hm st HI). mrun.
  destruct (m st) as [[a| |] st1]; simpl in *; [|done..].
  by apply Hf.
Qed.

End invariants.

Lemma ledger_of_frame st st' : ledger_file st' = ledger_file st → ledger_of st' = ledger_of st.
Proof. unfold ledger_of. by intros ->. Qed.

Lemma inv_keeps {A} (m : M A) : keeps_ledger m → hoare all_resolved m (λ _, all_resolved).
Proof. intros Hm st HI. unfold all_resolved. by rewrite (ledger_of_frame st _ (Hm st)). Qed.

Lemma dict_set_Forall {V} (P : V → Prop) k v (d : list (string * V)) :
  Forall P d.*2 → P v → Forall P (dict_set k v d).*2.
Proof.
  intros Hd Hv. induction d as [|[k' v'] d IH]; simpl.
  - by constructor.
  - apply Forall_cons in Hd as [Hv' Hd]. destruct (decide (k' = k)); simpl.
    + by constructor.
    + constructor; [done|by apply IH].
Qed.

Lemma update_generation_record_run env generation_id kwargs st :
  update_generation_record env generation_id kwargs st =
  match generation_id with
  | JStr gid =>
      match dict_get gid (ledger_of st) with
      | Some record =>
          let updated :=
            dict_set "updated_at" (JStr (isoformat_now env (ndate st)))
              (dict_update record kwargs) in
          if writable env RECORDS_FILE
          then (Ret true,
                set_ledger_file (LedgerJson (dict_set gid updated (ledger_of st)))
                  (next_date st))
          else (Ret false, next_date st)
      | None => (Ret false, st)
      end
  | _ => (Ret false, st)
  end.
Proof.
  unfold update_generation_record. mrun. rewrite load_records_ledger_of.
  destruct generation_id as [| | |gid]; try done.
  destruct (dict_get gid (ledger_of st)); [|done].
  unfold datetime_now_isoformat, save_records.
  by destruct (writable env RECORDS_FILE).
Qed.

Section resolved_ledger.
Context (env : Env).

Lemma add_generation_record_resolved file_path generation_id gamma_url status :
  truthy gamma_url = true →
  hoare all_resolved (add_generation_record env file_path generation_id gamma_url status)
    (λ _, all_resolved).
Proof.
  intros Hurl st HI. rewrite add_generation_record_run.
  destruct (get_file_hash_total env (p_str file_path) st) as [file_hash ->].
  destruct (no_hash file_hash); [done|]. cbv zeta.
  destruct (writable env RECORDS_FILE); [|done].
  unfold all_resolved, ledger_of at 1. cbn [snd ledger_file set_ledger_file].
  rewrite dict_of_pairs_setitem_dumped by apply ledger_of_NoDup.
  by apply dict_set_Forall.
Qed.

Lemma update_generation_record_resolved generation_id kwargs :
  "gamma_url" ∉ kwargs.*1 →
  hoare all_resolved (update_generation_record env generation_id kwargs)
    (λ _, all_resolved).
Proof.
  intros Hkw st HI. rewrite update_generation_record_run.
  destruct generation_id as [| | |gid]; try done.
  destruct (dict_get gid (ledger_of st)) as [record|] eqn:Hget; [|done]. cbv zeta.
  destruct (writable env RECORDS_FILE); [|done].
  unfold all_resolved. cbn [snd].
  rewrite ledger_of_saved by (apply dict_set_NoDup, ledger_of_NoDup).
  apply dict_set_Forall; [done|].
  unfold resolved, jget.
  rewrite dict_get_set_ne by done. rewrite dict_get_update_other by done.
  apply dict_get_elem_of in Hget.
  unfold all_resolved in HI. rewrite Forall_forall in HI.
  apply (HI record). apply list_elem_of_fmap. by exists (gid, record).
Qed.

Lemma finish_generation_resolved input_path generation_id :
  hoare all_resolved (finish_generation env input_path generation_id) (λ _, all_resolved).
Proof.
  unfold finish_generation. destruct (negb (truthy generation_id)); [apply inv_ret|].
  apply inv_bind;
    [apply inv_keeps, keeps_ledger_wait_for_completion|intros [success result]].
  destruct (negb success); [apply inv_ret|].
  destruct result as [result|]; [|apply inv_raise].
  destruct (truthy (py_or (jget "gammaUrl" result) (jget "url" result))) eqn:Hurl;
    cbn [negb]; [|apply inv_ret].
  apply inv_bind; [by apply add_generation_record_resolved|intros _].
  apply inv_bind; [apply inv_keeps, keeps_ledger_download_pdf|intros download_success].
  apply inv_bind; [|intros _; apply inv_ret].
  destruct download_success; apply update_generation_record_resolved; compute_done.
Qed.

Lemma process_file_resolved input_path force_regenerate :
  hoare all_resolved (process_file env input_path force_regenerate) (λ _, all_resolved).
Proof.
  unfold process_file.
  apply inv_bind; [apply inv_keeps, keeps_path_exists|intros present].
  destruct (negb present); [apply inv_ret|].
  apply inv_bind.
  { destruct (negb force_regenerate); [|apply inv_ret].
    apply inv_keeps, keeps_ledger_reuse_existing. }
  intros [b|]; [apply inv_ret|].
  apply inv_bind; [apply inv_keeps, keeps_extract|].
  intros [[text_content image_urls]|]; [|apply inv_ret].
  unfold generate_and_export.
  apply inv_bind; [apply inv_keeps, keeps_ledger_generate_presentation|].
  intros generation_id. apply finish_generation_resolved.
Qed.

End resolved_ledger.

(** ** The events of a run *)

Lemma submissions_quiet evs : Forall not_submit evs → submissions evs = 0.
Proof.
  unfold submissions. induction 1 as [|e evs He _ IH]; [done|].
  simpl. unfold not_submit in He. by rewrite He.
Qed.

Lemma events_of_same {A} (m : M A) st : (m st).2 = st → events_of m st = [].
Proof. intros Hst. unfold events_of. rewrite Hst. apply drop_all. Qed.

Section runs.
Context (env : Env).

(** A generation either fails for want of a credential before anything
    happens, or begins with the submission, which is the only one. *)
Lemma generate_and_export_cases input_path text_content image_urls st :
  let run := generate_and_export env input_path text_content image_urls in
  run st = (Raise ValueError, st) ∨
  ∃ evs,
    events_of run st =
      EvPost (GAMMA_API_BASE_URL +:+ "/generations") (payload_of env text_content image_urls)
        :: evs ∧
    Forall not_submit evs.
Proof.
  intros run. unfold run, generate_and_export, events_of. mrun.
  rewrite generate_presentation_run.
  destruct (str_truthy (GAMMA_API_KEY env)); [|by left]. right.
  set (url := GAMMA_API_BASE_URL +:+ "/generations").
  fold (payload_of env text_content image_urls).
  set (body := payload_of env text_content image_urls).
  set (st' := advance _ (next_req (log (EvPost url body) st))).
  assert (trace st' = trace st ++ [EvPost url body]) as Hsent by done.
  assert (∀ generation_id,
            ∃ evs, drop (length (trace st))
                     (trace (finish_generation env input_path generation_id st').2)
                   = EvPost url body :: evs ∧ Forall not_submit evs) as Hfinish.
  { intros generation_id.
    destruct (emits_finish_generation env not_submit input_path generation_id
                ltac:(done) ltac:(done) ltac:(done) ltac:(done) st')
      as (evs & Htrace & Hquiet).
    exists evs. split; [|done].
    rewrite Htrace, Hsent, <- app_assoc. by rewrite drop_app_length. }
  assert (∀ A (a : result A), ∃ evs,
            drop (length (trace st)) (trace (a, st').2) = EvPost url body :: evs ∧
            Forall not_submit evs) as Hstop.
  { intros A a. exists []. split; [|done]. cbn [snd]. by rewrite Hsent, drop_app_length. }
  destruct (http_post env (nreq st) url body) as [|response]; [apply Hstop|].
  destruct (bool_decide (status_code response ∈ [200; 201]%Z)); [|apply Hfinish].
  destruct (json response) as [o|]; [apply Hfinish|apply Hstop].
Qed.

(** The events of [process_file]: quiet ones, or a submission followed by
    quiet ones; in the first case the ledger is as before. *)
Lemma process_file_cases input_path force_regenerate st :
  let run := process_file env input_path force_regenerate in
  Forall not_submit (events_of run st) ∧ ledger_file (run st).2 = ledger_file st ∨
  ∃ url body evs, events_of run st = EvPost url body :: evs ∧ Forall not_submit evs.
Proof.
  intros run. unfold run. unfold events_of. rewrite process_file_unfold.
  destruct (bool_decide (is_Some (files st !! p_str input_path)));
    [|left; cbn [snd]; by rewrite drop_all].
  assert (∀ st1, st1 = st →
            let r :=
              match extract env input_path st1 with
              | (Ret (Some (text_content, image_urls)), st2) =>
                  generate_and_export env input_path text_content image_urls st2
              | (Ret None, st2) => (Ret false, st2)
              | (Raise e, st2) => (Raise e, st2)
              | (Diverges, st2) => (Diverges, st2)
              end in
            Forall not_submit (drop (length (trace st)) (trace r.2)) ∧
              ledger_file r.2 = ledger_file st ∨
            ∃ url body evs,
              drop (length (trace st)) (trace r.2) = EvPost url body :: evs ∧
              Forall not_submit evs) as Hgenerate.
  { intros st1 ->. cbv zeta.
    pose proof (extract_state env input_path st) as Hst.
    destruct (extract env input_path st) as [[[[text_content image_urls]|]| |] st2];
      simpl in Hst; subst st2; try (left; cbn [snd]; by rewrite drop_all).
    destruct (generate_and_export_cases input_path text_content image_urls st)
      as [Hraise|(evs & Hevs & Hquiet)].
    - left. rewrite Hraise. cbn [snd]. by rewrite drop_all.
    - right. by eexists _, _, evs. }
  destruct force_regenerate; [by apply Hgenerate|].
  assert (emits not_submit (reuse_existing env input_path)) as Hemits
    by (by apply emits_reuse_existing).
  pose proof (emits_events_of _ _ st Hemits) as Hquiet. unfold events_of in Hquiet.
  pose proof (keeps_ledger_reuse_existing env input_path st) as Hledger.
  pose proof (reuse_existing_none env input_path st) as Hnone.
  destruct (reuse_existing env input_path st) as [[[b|]| |] st1];
    cbn [fst snd] in *; try (by left).
  apply Hgenerate. by apply Hnone.
Qed.

End runs.

(** X17: a run of [process_file] makes at most one submission, and when it
    makes one, the submission is the first thing the run does: no request,
    no write and no pause comes before it. *)
Theorem process_file_one_submission env input_path force_regenerate st :
  let evs := events_of (process_file env input_path force_regenerate) st in
  submissions evs ≤ 1 ∧ Forall not_submit (tail evs).
Proof.
  intros evs. unfold evs.
  destruct (process_file_cases env input_path force_regenerate st)
    as [[Hquiet _]|(url & body & rest & -> & Hquiet)].
  - rewrite (submissions_quiet _ Hquiet). split; [lia|].
    destruct (events_of _ _) as [|e rest]; [done|]. by apply Forall_cons in Hquiet as [_ ?].
  - split; [|done]. unfold submissions. simpl.
    fold (submissions rest). rewrite (submissions_quiet _ Hquiet). lia.
Qed.

(** X18: a run of [process_file] that makes no submission leaves the ledger
    file as it was: reusing a record never rewrites it, not even after the
    PDF is fetched again. *)
Theorem process_file_reuse_keeps_ledger env input_path force_regenerate st :
  let run := process_file env input_path force_regenerate in
  submissions (events_of run st) = 0 →
  ledger_file (run st).2 = ledger_file st.
Proof.
  intros run Hnone.
  destruct (process_file_cases env input_path force_regenerate st)
    as [[_ Hledger]|(url & body & rest & Hevs & _)]; [done|].
  unfold run in Hnone. by rewrite Hevs in Hnone.
Qed.

Lemma process_file_reuse_keeps_ledger_witness :
  ledger_file (process_file demo_env report false demo_state).2 = ledger_file demo_state.
Proof.
  apply (process_file_reuse_keeps_ledger demo_env report false demo_state).
  vm_compute. reflexivity.
Defined.

(** X19: if every record of the ledger has a Gamma URL before a run of
    [process_file], every record has one after it, however the run ends: a
    record is added only once the service has given the URL, and an update
    never removes it. *)
Theorem process_file_keeps_ledger_resolved env input_path force_regenerate st :
  all_resolved st → all_resolved (process_file env input_path force_regenerate st).2.
Proof. apply process_file_resolved. Qed.

Lemma process_file_keeps_ledger_resolved_witness :
  all_resolved (process_file html_env report true demo_state).2.
Proof.
  apply (process_file_keeps_ledger_resolved html_env report true demo_state).
  unfold all_resolved. vm_compute. repeat constructor.
Defined.

(** ** A run that submits *)

Lemma update_generation_record_files env generation_id kwargs st :
  ∃ b st', update_generation_record env generation_id kwargs st = (Ret b, st') ∧
           files st' = files st.
Proof.
  rewrite update_generation_record_run.
  destruct generation_id as [| | |gid]; try by eexists _, _.
  destruct (dict_get gid (ledger_of st)); [|by eexists _, _]. cbv zeta.
  destruct (writable env RECORDS_FILE); by eexists _, _.
Qed.

Lemma add_generation_record_files env file_path generation_id gamma_url status st :
  ∃ b st', add_generation_record env file_path generation_id gamma_url status st
           = (Ret b, st') ∧ files st' = files st.
Proof.
  rewrite add_generation_record_run.
  destruct (get_file_hash_total env (p_str file_path) st) as [file_hash ->].
  destruct (no_hash file_hash); [by eexists _, _|]. cbv zeta.
  destruct (writable env RECORDS_FILE); by eexists _, _.
Qed.

Section submitting_run.
Context (env : Env).

Lemma finish_generation_true input_path generation_id st :
  (finish_generation env input_path generation_id st).1 = Ret true →
  is_Some (files (finish_generation env input_path generation_id st).2
             !! output_path_of input_path).
Proof.
  unfold finish_generation. destruct (negb (truthy generation_id)); [done|]. mrun.
  destruct (wait_for_completion env generation_id 300 5 st)
    as [[[success result]| |] st1]; [|done..].
  destruct (negb success); [done|]. destruct result as [result|]; [|done].
  destruct (negb (truthy (py_or (jget "gammaUrl" result) (jget "url" result)))); [done|].
  destruct (add_generation_record_files env input_path generation_id
              (py_or (jget "gammaUrl" result) (jget "url" result)) "completed" st1)
    as (added & st2 & -> & _).
  rewrite download_pdf_run.
  destruct (py_or (jget "gammaUrl" result) (jget "url" result)) as [| | |gamma_url];
    try done.
  cbn [py_str].
  destruct (fallback_outcome env gamma_url generation_id (output_path_of input_path) "pdf"
              (bool_decide (lower (default "false" (BROWSER_HEADLESS env)) = "true")) st2)
    as (b & Hres & Hfiles & _).
  cbv zeta in Hres, Hfiles.
  destruct (match download_via_api env (JStr gamma_url) generation_id
                    (output_path_of input_path) "pdf" st2 with
            | (Ret (true, _), st3) => _
            | (Ret (false, _), st3) => _
            | (Raise e, st3) => _
            | (Diverges, st3) => _
            end) as [r st3].
  cbn [fst snd] in Hres, Hfiles. subst r.
  destruct b.
  - destruct (update_generation_record_files env generation_id
                [("pdf_downloaded", JBool true);
                 ("pdf_path", JStr (output_path_of input_path))] st3)
      as (updated & st4 & -> & Hsame).
    intros _. cbn [snd]. by rewrite Hsame.
  - destruct (update_generation_record_files env generation_id
                [("pdf_downloaded", JBool false)] st3)
      as (updated & st4 & -> & Hsame).
    done.
Qed.

Lemma generate_and_export_true input_path text_content image_urls st :
  let run := generate_and_export env input_path text_content image_urls in
  (run st).1 = Ret true → is_Some (files (run st).2 !! output_path_of input_path).
Proof.
  intros run. unfold run, generate_and_export. mrun.
  destruct (generate_presentation env _ _ _ _ _ st) as [[generation_id| |] st1]; [|done..].
  apply finish_generation_true.
Qed.

End submitting_run.



(** ** The order of the listing *)

Lemma str_compare_trans a : ∀ b c,
  (a ?= b)%string = Lt → (b ?= c)%string = Lt → (a ?= c)%string = Lt.
Proof.
  induction a as [|x a IH]; intros [|y b] [|z c]; simpl; try done.
  unfold Ascii.compare.
  destruct (N.compare_spec (N_of_ascii x) (N_of_ascii y)) as [Hxy|Hxy|Hxy];
    destruct (N.compare_spec (N_of_ascii y) (N_of_ascii z)) as [Hyz|Hyz|Hyz];
    destruct (N.compare_spec (N_of_ascii x) (N_of_ascii z)) as [Hxz|Hxz|Hxz];
    try done; try lia.
  apply IH.
Qed.

Lemma str_compare_irrefl a : (a ?= a)%string ≠ Lt.
Proof.
  induction a as [|x a IH]; simpl; [done|].
  unfold Ascii.compare. by rewrite N.compare_refl.
Qed.

Lemma key_lt_irrefl a : key_lt a a ≠ Some true.
Proof.
  destruct a as [|b|n|s]; simpl; try done.
  - intros [= Hlt]. apply bool_decide_eq_true in Hlt. lia.
  - intros [= Hlt]. apply bool_decide_eq_true in Hlt. lia.
  - intros [= Hlt]. unfold String.ltb in Hlt.
    pose proof (str_compare_irrefl s). by destruct (s ?= s)%string.
Qed.

Lemma key_lt_trans a b c :
  key_lt a b = Some true → key_lt b c = Some true → key_lt a c = Some true.
Proof.
  destruct a as [|x|x|x], b as [|y|y|y], c as [|z|z|z]; simpl; try done;
    try (intros [= Hab] [= Hbc]; f_equal;
         apply bool_decide_eq_true in Hab; apply bool_decide_eq_true in Hbc;
         apply bool_decide_eq_true; repeat case_match; lia).
  unfold String.ltb. intros [= Hab] [= Hbc]. f_equal.
  destruct (x ?= y)%string eqn:Hxy; try done.
  destruct (y ?= z)%string eqn:Hyz; try done.
  by rewrite (str_compare_trans x y z).
Qed.

Lemma key_lt_asym a b : key_lt a b = Some true → key_lt b a ≠ Some true.
Proof.
  intros Hab Hba. by apply (key_lt_irrefl a), (key_lt_trans a b a).
Qed.

Section listing.
Implicit Types (item : string * list (string * jval))
               (items sorted : list (string * list (string * jval))).

Lemma insert_desc_perm item sorted : insert_desc item sorted ≡ₚ item :: sorted.
Proof.
  induction sorted as [|item' rest IH]; simpl; [done|].
  destruct (default false _); [done|].
  rewrite IH. apply Permutation_swap.
Qed.

Lemma insert_desc_newest_first item sorted :
  newest_first sorted → newest_first (insert_desc item sorted).
Proof.
  induction sorted as [|item' rest IH]; simpl; [done|].
  intros [Hfirst Hrest].
  destruct (key_lt (created_at_key item') (created_at_key item)) as [[]|] eqn:Hlt; simpl.
  - split; [|done]. constructor.
    + by apply key_lt_asym.
    + eapply Forall_impl; [exact Hfirst|]. intros later Hlater Hitem.
      apply Hlater. by apply (key_lt_trans _ (created_at_key item)).
  - split; [|by apply IH]. rewrite insert_desc_perm. constructor; [|done].
    unfold not_older. by rewrite Hlt.
  - split; [|by apply IH]. rewrite insert_desc_perm. constructor; [|done].
    unfold not_older. by rewrite Hlt.
Qed.

Lemma created_with_none k items :
  Forall (λ item, created_at_key item ≠ k) items → created_with k items = [].
Proof.
  unfold created_with. induction 1 as [|item items Hne _ IH]; simpl; [done|].
  by rewrite bool_decide_false.
Qed.

Lemma created_with_app k items1 items2 :
  created_with k (items1 ++ items2) = created_with k items1 ++ created_with k items2.
Proof. apply List.filter_app. Qed.

(** The new item goes after the items made at the same time. *)
Lemma insert_desc_stable k item sorted :
  newest_first sorted →
  created_with k (insert_desc item sorted) = created_with k sorted ++ created_with k [item].
Proof.
  induction sorted as [|item' rest IH]; [done|].
  intros [Hfirst Hrest]. cbn [insert_desc].
  destruct (key_lt (created_at_key item') (created_at_key item)) as [[]|] eqn:Hlt;
    cbn [default from_option id].
  - change (item :: item' :: rest) with ([item] ++ item' :: rest).
    rewrite created_with_app.
    destruct (decide (created_at_key item = k)) as [Hk|Hk].
    + rewrite (created_with_none k (item' :: rest)); [by rewrite app_nil_r|].
      constructor.
      * intros Hk'. rewrite Hk, <- Hk' in Hlt. by apply key_lt_irrefl in Hlt.
      * eapply Forall_impl; [exact Hfirst|]. intros later Hlater Hk'.
        apply Hlater. by rewrite Hk', <- Hk.
    + rewrite (created_with_none k [item]); [by rewrite app_nil_r|].
      by constructor.
  - change (item' :: insert_desc item rest) with ([item'] ++ insert_desc item rest).
    change (item' :: rest) with ([item'] ++ rest).
    rewrite !created_with_app, IH by done. by rewrite app_assoc.
  - change (item' :: insert_desc item rest) with ([item'] ++ insert_desc item rest).
    change (item' :: rest) with ([item'] ++ rest).
    rewrite !created_with_app, IH by done. by rewrite app_assoc.
Qed.

Lemma sort_fold items : ∀ sorted,
  newest_first sorted →
  let r := foldl (λ sorted item, insert_desc item sorted) sorted items in
  r ≡ₚ sorted ++ items ∧ newest_first r ∧
  ∀ k, created_with k r = created_with k sorted ++ created_with k items.
Proof.
  induction items as [|item items IH]; intros sorted Hsorted; cbn [foldl].
  - rewrite app_nil_r. split_and!; try done. intros k.
    change (created_with k []) with (@nil (string * list (string * jval))).
    by rewrite app_nil_r.
  - destruct (IH (insert_desc item sorted)) as (Hperm & Hnewest & Hstable).
    { by apply insert_desc_newest_first. }
    split_and!; try done.
    + rewrite Hperm, insert_desc_perm. simpl. apply Permutation_middle.
    + intros k. rewrite Hstable, insert_desc_stable by done.
      rewrite <- app_assoc. f_equal.
      change (item :: items) with ([item] ++ items). by rewrite created_with_app.
Qed.

End listing.

Lemma list_generations_state st : (list_generations st).2 = st.
Proof.
  unfold list_generations. mrun. rewrite load_records_ledger_of.
  destruct (ledger_of st); [done|].
  by destruct (sorted_newest_first _).
Qed.

(** X21: what [list_generations] lists.  It reads the ledger and changes
    nothing.  Each record is listed once, the entries are numbered from 1,
    and no entry is older, by its [created_at], than one listed after it, a
    record without [created_at] counting as the oldest; records made at the
    same time keep the order of the ledger.  The only failure is the
    [TypeError] of a ledger with two records or more whose [created_at]
    values cannot be compared with each other. *)
Theorem list_generations_newest_first st :
  match list_generations st with
  | (Ret entries, st') =>
      st' = st ∧
      ∃ sorted,
        entries = imap (λ i item, entry_of (S i) item.2) sorted ∧
        sorted ≡ₚ ledger_of st ∧
        newest_first sorted ∧
        ∀ k, created_with k sorted = created_with k (ledger_of st)
  | (Raise e, st') =>
      st' = st ∧ e = TypeError ∧ 2 ≤ length (ledger_of st) ∧
      comparable_keys (created_at_key <$> ledger_of st) = false
  | (Diverges, _) => False
  end.
Proof.
  unfold list_generations. mrun. rewrite load_records_ledger_of.
  destruct (ledger_of st) as [|item items] eqn:Hledger.
  { split; [done|]. exists []. split_and!; done. }
  unfold sorted_newest_first.
  case_bool_decide as Hlen; cbn [andb].
  - destruct (comparable_keys _) eqn:Hkeys; cbn [negb].
    + split; [done|].
      destruct (sort_fold (item :: items) [] I) as (Hperm & Hnewest & Hstable).
      eexists. split_and!; [done|exact Hperm|exact Hnewest|exact Hstable].
    + done.
  - split; [done|].
    destruct (sort_fold (item :: items) [] I) as (Hperm & Hnewest & Hstable).
    eexists. split_and!; [done|exact Hperm|exact Hnewest|exact Hstable].
Qed.

(** ** The command line *)

Section flags.
Context (env : Env).

Local Abbreviation env' := (with_browser_export env).

Lemma wait_loop_with_browser_export fuel : wait_loop env' fuel = wait_loop env fuel.
Proof.
  induction fuel as [|fuel IH]; [done|].
  cbn [wait_loop]. by rewrite IH.
Qed.

Lemma for_export_urls_with_browser_export urls :
  for_export_urls env' urls = for_export_urls env urls.
Proof.
  induction urls as [|export_url rest IH]; [done|].
  cbn [for_export_urls]. by rewrite IH.
Qed.

Lemma download_pdf_with_browser_export gamma_url generation_id output_path b1 b2 st :
  download_pdf env' gamma_url generation_id output_path b1 st
  = download_pdf env gamma_url generation_id output_path b2 st.
Proof.
  rewrite !download_pdf_run. unfold download_via_api.
  by destruct gamma_url.
Qed.

Lemma reuse_existing_with_browser_export input_path st :
  reuse_existing env' input_path st = reuse_existing env input_path st.
Proof.
  unfold reuse_existing. mrun.
  change (check_existing_generation env' input_path st)
    with (check_existing_generation env input_path st).
  destruct (check_existing_generation env input_path st)
    as [[[exists_ record]| |] st1]; [|done..].
  destruct exists_; [|done]. destruct record as [record|]; [|done].
  destruct (truthy (jget "gamma_url" record)); [|done].
  destruct (path_exists (output_path_of input_path) st1) as [[present| |] st2]; [|done..].
  destruct (negb present); [|done].
  by rewrite (download_pdf_with_browser_export _ _ _ false false).
Qed.

Lemma finish_generation_with_browser_export input_path generation_id st :
  finish_generation env' input_path generation_id st
  = finish_generation env input_path generation_id st.
Proof.
  unfold finish_generation. destruct (negb (truthy generation_id)); [done|]. mrun.
  unfold wait_for_completion. mrun. rewrite wait_loop_with_browser_export.
  destruct (time_time st) as [[start_time| |] st0]; [|done..].
  destruct (wait_loop env _ generation_id 300 5 start_time st0)
    as [[[success result]| |] st1]; [|done..].
  destruct (negb success); [done|]. destruct result as [result|]; [|done].
  destruct (negb (truthy (py_or (jget "gammaUrl" result) (jget "url" result)))); [done|].
  change (add_generation_record env') with (add_generation_record env).
  destruct (add_generation_record env input_path generation_id _ "completed" st1)
    as [[added| |] st2]; [|done..].
  rewrite (download_pdf_with_browser_export _ _ _ _
             (bool_decide (lower (default "false" (USE_BROWSER_EXPORT env)) = "true"))).
  done.
Qed.

Lemma process_file_with_browser_export input_path force_regenerate st :
  process_file env' input_path force_regenerate st
  = process_file env input_path force_regenerate st.
Proof.
  rewrite !process_file_unfold.
  destruct (bool_decide (is_Some (files st !! p_str input_path))); [|done].
  rewrite reuse_existing_with_browser_export.
  destruct (if force_regenerate then (Ret None, st) else reuse_existing env input_path st)
    as [[[b|]| |] st1]; try done.
  change (extract env' input_path st1) with (extract env input_path st1).
  destruct (extract env input_path st1) as [[[[text_content image_urls]|]| |] st2];
    try done.
  unfold generate_and_export. mrun.
  change (generate_presentation env') with (generate_presentation env).
  change (GAMMA_THEME_ID env') with (GAMMA_THEME_ID env).
  destruct (generate_presentation env _ _ _ _ _ st2) as [[generation_id| |] st3];
    [|done..].
  apply finish_generation_with_browser_export.
Qed.

Lemma run_command_use_browser force_regenerate b1 b2 docx_files pdf_files st :
  run_command env (CmdRun force_regenerate b1) docx_files pdf_files st
  = run_command env (CmdRun force_regenerate b2) docx_files pdf_files st.
Proof.
  assert (∀ b, run_command env (CmdRun force_regenerate b) docx_files pdf_files st
               = run_command env (CmdRun force_regenerate false) docx_files pdf_files st)
    as Hb; [|by rewrite (Hb b1), (Hb b2)].
  intros [|]; [|done]. unfold run_command.
  change (GAMMA_API_KEY env') with (GAMMA_API_KEY env).
  destruct (negb (str_truthy (GAMMA_API_KEY env))); [done|].
  destruct docx_files as [|docx_file docx_files].
  - destruct pdf_files as [|pdf_file pdf_files]; [done|]. mrun.
    by rewrite process_file_with_browser_export.
  - destruct (List.find _ _) as [found|]; [|done]. mrun.
    by rewrite process_file_with_browser_export.
Qed.

Lemma parse_args_use_browser args docx_files pdf_files st : ∀ force_regenerate b1 b2,
  run_command env (parse_args args force_regenerate b1) docx_files pdf_files st
  = run_command env (parse_args args force_regenerate b2) docx_files pdf_files st.
Proof.
  induction args as [|arg args IH]; intros force_regenerate b1 b2.
  - apply run_command_use_browser.
  - cbn [parse_args]. repeat (destruct (_ || _); [done || apply IH|]). done.
Qed.

(** The events of [run_command]. *)
Lemma run_command_events command docx_files pdf_files st :
  let evs := events_of (run_command env command docx_files pdf_files) st in
  submissions evs ≤ 1 ∧ Forall not_submit (tail evs).
Proof.
  assert (∀ env0 input_path force_regenerate,
            let evs := events_of (process_file env0 input_path force_regenerate;; mret ()) st in
            submissions evs ≤ 1 ∧ Forall not_submit (tail evs)) as Hone.
  { intros env0 input_path force_regenerate.
    assert (events_of (process_file env0 input_path force_regenerate;; mret ()) st
            = events_of (process_file env0 input_path force_regenerate) st) as ->.
    { unfold events_of. mrun.
      by destruct (process_file env0 input_path force_regenerate st) as [[b| |] st1]. }
    cbv zeta.
    destruct (process_file_cases env0 input_path force_regenerate st)
      as [[Hquiet _]|(url & body & rest & -> & Hquiet)].
    - rewrite (submissions_quiet _ Hquiet). split; [lia|].
      destruct (events_of _ _) as [|e rest]; [done|].
      by apply Forall_cons in Hquiet as [_ ?].
    - split; [|done]. unfold submissions. simpl.
      fold (submissions rest). rewrite (submissions_quiet _ Hquiet). lia. }
  assert (∀ m : M unit, (m st).2 = st →
            let evs := events_of m st in
            submissions evs ≤ 1 ∧ Forall not_submit (tail evs)) as Hnone.
  { intros m Hm. cbv zeta. rewrite (events_of_same m st Hm). split; [unfold submissions; simpl; lia|done]. }
  destruct command as [|arg|force_regenerate use_browser]; cbn [run_command].
  - apply Hnone. mrun. pose proof (list_generations_state st) as Hlist.
    by destruct (list_generations st) as [[entries|e|] st1].
  - by apply Hnone.
  - cbv zeta. destruct (negb (str_truthy _)); [by apply Hnone|].
    destruct docx_files as [|docx_file docx_files].
    + destruct pdf_files as [|pdf_file pdf_files]; [by apply Hnone|]. apply Hone.
    + destruct (List.find _ _) as [found|]; [apply Hone|by apply Hnone].
Qed.

End flags.

(** X22: one run of the tool makes at most one submission, however many
    files the data directory holds, and the submission, when there is one,
    is its first action.  With [--list] or an unknown argument, without a
    credential, and with documents of which none has the marked name, it
    does not process any file: nothing is sent and nothing is written, even
    if PDF files are there. *)
Theorem main_one_submission env argv docx_files pdf_files st :
  let run := main env argv docx_files pdf_files in
  (submissions (events_of run st) ≤ 1 ∧ Forall not_submit (tail (events_of run st))) ∧
  (match parse_args (drop 1 argv) false false with
   | CmdRun _ _ =>
       str_truthy (GAMMA_API_KEY env) = false ∨
       docx_files ≠ [] ∧
       Forall (λ docx_file, contains RAW_MAIL_DATA (p_name docx_file) = false) docx_files
   | _ => True
   end → (run st).2 = st).
Proof.
  intros run. split; [apply run_command_events|].
  unfold run, main.
  destruct (parse_args (drop 1 argv) false false) as [|arg|force_regenerate use_browser];
    cbn [run_command].
  - intros _. mrun. pose proof (list_generations_state st) as Hlist.
    by destruct (list_generations st) as [[entries|e|] st1].
  - done.
  - cbv zeta.
    assert (GAMMA_API_KEY (if use_browser then with_browser_export env else env)
            = GAMMA_API_KEY env) as -> by (by destruct use_browser).
    intros [->|[Hdocx Hnames]]; [done|].
    destruct (negb (str_truthy (GAMMA_API_KEY env))); [done|].
    destruct docx_files as [|docx_file docx_files]; [done|].
    destruct (List.find _ _) as [found|] eqn:Hfind; [|done].
    apply find_some in Hfind as [Hin Hname].
    rewrite Forall_forall in Hnames. apply list_elem_of_In in Hin.
    by rewrite (Hnames found Hin) in Hname.
Qed.

(** X23: the flag [--browser] (or [-b]) has no effect on what the tool does:
    [process_file] behaves the same with [USE_BROWSER_EXPORT] set to [true],
    and a command line with the flag is run as the same command line without
    it.  Only messages can differ. *)
Theorem browser_flag_has_no_effect env :
  (∀ input_path force_regenerate st,
     process_file (with_browser_export env) input_path force_regenerate st
     = process_file env input_path force_regenerate st) ∧
  (∀ program before after docx_files pdf_files st,
     main env (program :: before ++ "--browser" :: after) docx_files pdf_files st
     = main env (program :: before ++ after) docx_files pdf_files st ∧
     main env (program :: before ++ "-b" :: after) docx_files pdf_files st
     = main env (program :: before ++ after) docx_files pdf_files st).
Proof.
  split; [apply process_file_with_browser_export|].
  intros program before after docx_files pdf_files st. unfold main. cbn [drop].
  assert (∀ flag, flag = "--browser" ∨ flag = "-b" →
            ∀ force_regenerate use_browser,
              run_command env
                (parse_args (before ++ flag :: after) force_regenerate use_browser)
                docx_files pdf_files st
              = run_command env (parse_args (before ++ after) force_regenerate use_browser)
                  docx_files pdf_files st) as Hflag.
  { intros flag Hflag. induction before as [|arg before IH];
      intros force_regenerate use_browser.
    - simpl app. destruct Hflag as [-> | ->].
      + change (parse_args ("--browser" :: after) force_regenerate use_browser)
          with (parse_args after force_regenerate true).
        apply parse_args_use_browser.
      + change (parse_args ("-b" :: after) force_regenerate use_browser)
          with (parse_args after force_regenerate true).
        apply parse_args_use_browser.
    - simpl app. cbn [parse_args].
      repeat (destruct (_ || _); [done || apply IH|]). done. }
  split; apply Hflag; [by left|by right].
Qed.

(** ** The files of a run *)

Section writes.
Context (env : Env) (input_path : PyPath).

Local Abbreviation out := (output_path_of input_path).

Lemma files_but_same st st' : files st' = files st → files_but out st' = files_but out st.
Proof. unfold files_but. by intros ->. Qed.

Lemma writes_only_download_via_api gamma_url generation_id export_format :
  writes_only out (download_via_api env gamma_url generation_id out export_format).
Proof.
  destruct gamma_url as [| | |u]; try done. intros st.
  destruct (download_via_api_files env out export_format u generation_id st)
    as [_ [[_ (response & Hfiles & _)]|[_ Hfiles]]];
    unfold files_but; rewrite Hfiles; [apply delete_insert_eq|done].
Qed.

Lemma writes_only_download_via_browser gamma_url export_format headless :
  writes_only out (download_via_browser env gamma_url out export_format headless).
Proof.
  unfold download_via_browser. destruct (negb (SELENIUM_AVAILABLE env)); [done|].
  intros st. destruct (browser_export _ _ _ _ _); [|done].
  unfold files_but. cbn. apply delete_insert_eq.
Qed.

Lemma writes_only_process_file force_regenerate :
  writes_only out (process_file env input_path force_regenerate).
Proof.
  apply keeps_process_file; try done.
  - apply writes_only_download_via_api.
  - apply writes_only_download_via_browser.
  - intros generation_id gamma_url status st.
    destruct (add_generation_record_files env input_path generation_id gamma_url status st)
      as (b & st' & -> & Hfiles). by apply files_but_same.
  - intros generation_id kwargs st.
    destruct (update_generation_record_files env generation_id kwargs st)
      as (b & st' & -> & Hfiles). by apply files_but_same.
Qed.

Lemma process_file_other_files force_regenerate st path :
  path ≠ out →
  files (process_file env input_path force_regenerate st).2 !! path = files st !! path.
Proof.
  intros Hpath. pose proof (writes_only_process_file force_regenerate st) as Hsame.
  unfold files_but in Hsame. apply (f_equal (λ m, m !! path)) in Hsame.
  by rewrite !lookup_delete_ne in Hsame.
Qed.

End writes.


(** ** How a run ends *)


Section ends.
Context (env : Env).








End ends.


(** ** Running again *)

Lemma get_file_hash_lookup env file_path st st' :
  files st' !! file_path = files st !! file_path →
  (get_file_hash env file_path st').1 = (get_file_hash env file_path st).1.
Proof. intros Hfile. unfold get_file_hash. rewrite Hfile. by repeat case_match. Qed.

Lemma recorded_frame p st st' :
  ledger_file st' = ledger_file st → recorded p st → recorded p st'.
Proof. intros Hledger. unfold recorded. by rewrite (ledger_of_frame st st' Hledger). Qed.

Section rerun.
Context (env : Env) (input_path : PyPath).

Local Abbreviation out := (output_path_of input_path).
Local Abbreviation path := (resolve env (p_str input_path)).

Lemma update_generation_record_recorded generation_id kwargs st :
  "file_path" ∉ kwargs.*1 →
  recorded path st → recorded path (update_generation_record env generation_id kwargs st).2.
Proof.
  intros Hkw (k & record & Hget & Hmatch). rewrite update_generation_record_run.
  destruct generation_id as [| | |gid]; try by exists k, record.
  destruct (dict_get gid (ledger_of st)) as [old|] eqn:Hold; [|by exists k, record].
  cbv zeta. destruct (writable env RECORDS_FILE); [|by exists k, record].
  unfold recorded. cbn [snd].
  rewrite ledger_of_saved by (apply dict_set_NoDup, ledger_of_NoDup).
  destruct (decide (gid = k)) as [->|Hne].
  - eexists k, _. split; [apply dict_get_set_eq|].
    rewrite Hget in Hold. injection Hold as <-.
    unfold path_match, jget in *.
    rewrite dict_get_set_ne by done. by rewrite dict_get_update_other.
  - exists k, record. split; [|done]. by rewrite dict_get_set_ne.
Qed.

Lemma finish_generation_recorded generation_id st h :
  (get_file_hash env (p_str input_path) st).1 = Ret (Some h) → h ≠ "" →
  writable env RECORDS_FILE = true →
  (finish_generation env input_path generation_id st).1 = Ret true →
  recorded path (finish_generation env input_path generation_id st).2.
Proof.
  intros Hhash Hh Hwritable.
  unfold finish_generation. destruct (negb (truthy generation_id)); [done|]. mrun.
  pose proof (keeps_wait_for_completion env files ltac:(done) ltac:(done) ltac:(done)
                generation_id 300 5 st) as Hfiles.
  destruct (wait_for_completion env generation_id 300 5 st)
    as [[[success result]| |] st1]; [|done..].
  cbn [snd] in Hfiles.
  destruct (negb success); [done|]. destruct result as [result|]; [|done].
  set (gamma_url := py_or (jget "gammaUrl" result) (jget "url" result)).
  destruct (negb (truthy gamma_url)); [done|].
  rewrite add_generation_record_run.
  destruct (get_file_hash_total env (p_str input_path) st1) as [file_hash Hhash1].
  rewrite Hhash1.
  assert (file_hash = Some h) as ->.
  { pose proof (get_file_hash_frame env (p_str input_path) st st1 Hfiles) as Hsame.
    rewrite Hhash1, Hhash in Hsame. by injection Hsame. }
  cbn [no_hash]. rewrite bool_decide_false by done. cbv zeta. rewrite Hwritable.
  set (record := [("file_path", JStr path); _; _; _; _; _; _; _]).
  set (st2 := set_ledger_file _ _).
  assert (recorded path st2) as Hrecorded.
  { exists (json_key generation_id), record. split.
    - unfold ledger_of, st2. cbn [ledger_file set_ledger_file].
      rewrite dict_of_pairs_setitem_dumped by apply ledger_of_NoDup.
      apply dict_get_set_eq.
    - unfold path_match, record, jget. simpl. by rewrite bool_decide_true. }
  pose proof (keeps_ledger_download_pdf env input_path gamma_url generation_id
                (bool_decide (lower (default "false" (USE_BROWSER_EXPORT env)) = "true"))
                st2) as Hledger.
  destruct (download_pdf env gamma_url generation_id out _ st2)
    as [[download_success| |] st3]; [|done..].
  cbn [snd] in Hledger.
  apply (recorded_frame path st2 st3 Hledger) in Hrecorded.
  destruct download_success.
  - pose proof (update_generation_record_recorded generation_id
                  [("pdf_downloaded", JBool true); ("pdf_path", JStr out)] st3
                  ltac:(compute_done) Hrecorded) as Hupdated.
    by destruct (update_generation_record env generation_id _ st3) as [[updated| |] st4].
  - by destruct (update_generation_record env generation_id _ st3) as [[updated| |] st4].
Qed.

(** A run that submits is the generation from what was extracted. *)
Lemma process_file_submitting force_regenerate st :
  submissions (events_of (process_file env input_path force_regenerate) st) = 1 →
  ∃ text_content image_urls,
    process_file env input_path force_regenerate st
    = generate_and_export env input_path text_content image_urls st.
Proof.
  unfold events_of. rewrite process_file_unfold.
  destruct (bool_decide (is_Some (files st !! p_str input_path)));
    [|cbn [snd]; by rewrite drop_all].
  assert (∀ st1, st1 = st →
            let r :=
              match extract env input_path st1 with
              | (Ret (Some (text_content, image_urls)), st2) =>
                  generate_and_export env input_path text_content image_urls st2
              | (Ret None, st2) => (Ret false, st2)
              | (Raise e, st2) => (Raise e, st2)
              | (Diverges, st2) => (Diverges, st2)
              end in
            submissions (drop (length (trace st)) (trace r.2)) = 1 →
            ∃ text_content image_urls,
              r = generate_and_export env input_path text_content image_urls st)
    as Hgenerate.
  { intros st1 ->. cbv zeta.
    pose proof (extract_state env input_path st) as Hst.
    destruct (extract env input_path st) as [[[[text_content image_urls]|]| |] st2];
      cbn [snd] in Hst; subst st2; try (cbn [snd]; by rewrite drop_all).
    intros _. by eexists _, _. }
  destruct force_regenerate; [by apply Hgenerate|].
  assert (emits not_submit (reuse_existing env input_path)) as Hemits
    by (by apply emits_reuse_existing).
  pose proof (emits_events_of _ _ st Hemits) as Hquiet. unfold events_of in Hquiet.
  pose proof (reuse_existing_none env input_path st) as Hnone.
  destruct (reuse_existing env input_path st) as [[[b|]| |] st1];
    cbn [fst snd] in *; try (by rewrite (submissions_quiet _ Hquiet)).
  apply Hgenerate. by apply Hnone.
Qed.

Lemma rerun st h force_regenerate :
  (get_file_hash env (p_str input_path) st).1 = Ret (Some h) → h ≠ "" →
  writable env RECORDS_FILE = true →
  p_str input_path ≠ out →
  all_resolved st →
  let first := process_file env input_path force_regenerate st in
  first.1 = Ret true →
  submissions (events_of (process_file env input_path force_regenerate) st) = 1 →
  process_file env input_path false first.2 = (Ret true, first.2).
Proof.
  intros Hhash Hh Hwritable Hpath Hresolved first Htrue Hsubmit.
  pose proof (process_file_resolved env input_path force_regenerate st Hresolved)
    as Hresolved'.
  pose proof (process_file_other_files env input_path force_regenerate st
                (p_str input_path) Hpath) as Hinput.
  fold first in Hresolved', Hinput. cbn beta in Hresolved'.
  assert (is_Some (files first.2 !! out) ∧ recorded path first.2) as [Hout Hrecorded].
  { destruct (process_file_submitting force_regenerate st Hsubmit)
      as (text_content & image_urls & Hrun).
    unfold first in *. rewrite Hrun in *.
    split; [by apply generate_and_export_true|].
    clear Hresolved' Hinput Hrun Hsubmit.
    unfold generate_and_export in *. mrun.
    pose proof (keeps_generate_presentation env files ltac:(done) ltac:(done) ltac:(done)
                  (prepare_text text_content image_urls) (GAMMA_THEME_ID env) None
                  (Some (instructions image_urls)) (bool_decide (0 < length image_urls))
                  st) as Hfiles.
    destruct (generate_presentation env _ _ _ _ _ st) as [[generation_id| |] st1];
      [|done..].
    cbn [snd] in Hfiles.
    apply (finish_generation_recorded generation_id st1 h); try done.
    by rewrite (get_file_hash_frame env _ st st1 Hfiles). }
  assert ((get_file_hash env (p_str input_path) first.2).1 = Ret (Some h)) as Hhash'.
  { by rewrite (get_file_hash_lookup env _ st first.2 Hinput). }
  assert (is_Some (files first.2 !! p_str input_path)) as Hthere.
  { rewrite Hinput. unfold get_file_hash in Hhash.
    destruct (files st !! p_str input_path); [by eexists|done]. }
  rewrite process_file_unfold. rewrite bool_decide_true by done.
  unfold reuse_existing. mrun.
  rewrite (check_existing_generation_scan env input_path first.2 h (ledger_of first.2));
    [|done|done|by rewrite load_records_ledger_of].
  pose proof (scan_records_spec path h (ledger_of first.2)) as Hscan. cbv zeta in Hscan.
  destruct (scan_records path h (ledger_of first.2)) as [[] [found|]]; try done.
  - destruct Hscan as (before & record_id & after & Hledger & _ & _).
    assert (truthy (jget "gamma_url" found) = true) as ->.
    { unfold all_resolved in Hresolved'. rewrite Forall_forall in Hresolved'.
      apply (Hresolved' found). apply list_elem_of_fmap. exists (record_id, found).
      split; [done|]. rewrite Hledger. apply elem_of_app. right. left. }
    unfold path_exists. cbn [fst snd]. by rewrite bool_decide_true.
  - destruct Hrecorded as (k & record & Hget & Hmatch).
    apply dict_get_elem_of in Hget. specialize (Hscan _ Hget). cbn [snd] in Hscan.
    by rewrite Hmatch in Hscan.
Qed.

End rerun.

(** X26: running again after a success.  When a run of [process_file] has
    made a submission and returned [True], with a ledger that could be
    written and a file whose content hash could be computed, a second run on
    the same file, not forced, returns [True] and does nothing at all: no
    submission, no request, no change of state.  This holds for a ledger in
    which every earlier record has a Gamma URL. *)
Theorem rerun_after_success_is_idle env input_path st h force_regenerate :
  (get_file_hash env (p_str input_path) st).1 = Ret (Some h) → h ≠ "" →
  writable env RECORDS_FILE = true →
  p_str input_path ≠ output_path_of input_path →
  all_resolved st →
  let first := process_file env input_path force_regenerate st in
  first.1 = Ret true →
  submissions (events_of (process_file env input_path force_regenerate) st) = 1 →
  process_file env input_path false first.2 = (Ret true, first.2).
Proof. apply rerun. Qed.

Lemma rerun_after_success_is_idle_witness :
  let first := process_file html_env report true demo_state in
  process_file html_env report false first.2 = (Ret true, first.2).
Proof.
  apply (rerun_after_success_is_idle html_env report demo_state "md5-REPORT" true).
  - reflexivity.
  - done.
  - reflexivity.
  - done.
  - unfold all_resolved. vm_compute. repeat constructor.
  - vm_compute. reflexivity.
  - vm_compute. reflexivity.
Defined.
